(** * fly-ssh-bastion: machine registry, port allocator and generated files

    A shallow embedding of the server side of the bastion
    (internal/db, internal/config, internal/server) and the properties of
    its registry that the specification states.

    Conventions.
    - A Go [string] is modelled by the list of its runes (Unicode code
      points).  The fields of a registration are decoded by
      [encoding/json], which only produces valid UTF-8, so the list of
      runes and the byte string determine each other; [len] is the number
      of bytes of the UTF-8 encoding.  The content of a text file is
      modelled the same way.
    - Go [int], [int64] and SQLite [INTEGER] are [Z]; the port numbers and
      row ids of this program stay far away from the 64-bit bounds.
    - A point in time ([CURRENT_TIMESTAMP], [time.Time]) is a [Z]; the
      clock is an argument of the operations that read it.
    - The SQLite table [machines] is the list of its rows in rowid order
      together with the AUTOINCREMENT counter. *)

From Stdlib Require Import ZArith NArith List Bool Lia Ascii String DecimalString.
From Stdlib Require DecimalPos DecimalZ.
From Stdlib Require Import Sorted Permutation.
From stdpp Require Import base decidable list numbers gmap sets.

(** ** Go strings *)

Definition rune : Type := N.
Definition gostring : Type := list rune.

(** A literal: the runes of an ASCII string. *)
Definition str (s : String.string) : gostring :=
  map N_of_ascii (list_ascii_of_string s).

(** [len(s)]: the number of bytes of the UTF-8 encoding. *)
Definition RuneLen (r : rune) : Z :=
  if (r <? 128)%N then 1
  else if (r <? 2048)%N then 2
  else if (r <? 65536)%N then 3
  else 4.

Definition len (s : gostring) : Z :=
  fold_right (fun r n => (RuneLen r + n)%Z) 0%Z s.

(** [strconv.Itoa] / the verb [%d]. *)
Definition Itoa (z : Z) : gostring :=
  str (NilZero.string_of_int (Z.to_int z)).


Definition NL : rune := 10%N.      (* newline *)
Definition DQ : rune := 34%N.      (* double quote *)

(** ** internal/db: the machine table *)

Module db.

Definition PortMin : Z := 10022.
Definition PortMax : Z := 10099.

Record Machine : Type := mkMachine {
  ID        : Z;
  Name      : gostring;
  Owner     : gostring;
  Port      : Z;
  LocalUser : gostring;
  PublicKey : gostring;
  CreatedAt : Z;
  LastSeen  : option Z
}.

Definition setID (m : Machine) (i : Z) : Machine :=
  mkMachine i (Name m) (Owner m) (Port m) (LocalUser m) (PublicKey m)
            (CreatedAt m) (LastSeen m).
Definition setName (m : Machine) (n : gostring) : Machine :=
  mkMachine (ID m) n (Owner m) (Port m) (LocalUser m) (PublicKey m)
            (CreatedAt m) (LastSeen m).
Definition setPort (m : Machine) (p : Z) : Machine :=
  mkMachine (ID m) (Name m) (Owner m) p (LocalUser m) (PublicKey m)
            (CreatedAt m) (LastSeen m).
Definition setLastSeen (m : Machine) (t : option Z) : Machine :=
  mkMachine (ID m) (Name m) (Owner m) (Port m) (LocalUser m) (PublicKey m)
            (CreatedAt m) t.

(** The table [machines]: its rows in rowid order, and the largest rowid
    ever handed out (the [sqlite_sequence] entry of an AUTOINCREMENT
    key). *)
Record DB : Type := mkDB {
  rows   : list Machine;
  lastID : Z
}.

(** The database right after [Open] of a fresh file: [migrate] has created
    the empty table. *)
Definition Open : DB := mkDB [] 0.

Inductive column : Type := ColName | ColPort.

Inductive error : Type :=
  | ErrNoPorts (slots : Z)          (* no available ports (all %d slots in use) *)
  | ErrUnique (c : column)          (* UNIQUE constraint failed: machines.<c> *)
  | ErrInsert (cause : error)       (* insert machine: %w *)
  | ErrRename (cause : error)       (* rename machine: %w *)
  | ErrNotFound (name : gostring).  (* machine %q not found *)

(** *** The SQL statements the package executes

    Each is one statement, applied to the table as SQLite does under the
    schema of migrations.go: [name] and [port] are UNIQUE, and a statement
    that violates a constraint aborts without any effect. *)

Definition hasName (n : gostring) (l : list Machine) : bool :=
  existsb (fun r => bool_decide (Name r = n)) l.
Definition hasPort (p : Z) (l : list Machine) : bool :=
  existsb (fun r => bool_decide (Port r = p)) l.

(** [INSERT INTO machines (name, owner, port, local_user, public_key)
    VALUES (?, ?, ?, ?, ?)]: the id is the next AUTOINCREMENT value,
    [created_at] defaults to the current time and [last_seen] is NULL.
    Returns the new table and [LastInsertId]. *)
Definition sql_insert (d : DB) (now : Z)
    (name owner : gostring) (port : Z) (local_user public_key : gostring)
    : error + DB * Z :=
  if hasName name (rows d) then inl (ErrUnique ColName)
  else if hasPort port (rows d) then inl (ErrUnique ColPort)
  else
    let id := (lastID d + 1)%Z in
    let r := mkMachine id name owner port local_user public_key now None in
    inr (mkDB (rows d ++ [r]) id, id).

(** [SELECT port FROM machines]. *)
Definition sql_select_ports (d : DB) : list Z := map Port (rows d).

(** [SELECT ... FROM machines WHERE name = ?]: at most the first row is
    read by [QueryRow]. *)
Definition sql_select_by_name (d : DB) (name : gostring) : option Machine :=
  find (fun r => bool_decide (Name r = name)) (rows d).

(** [ORDER BY port]: insertion into a list sorted by port, stable. *)
Fixpoint insert_by_port (m : Machine) (l : list Machine) : list Machine :=
  match l with
  | [] => [m]
  | x :: l' => if (Port m <? Port x)%Z then m :: x :: l'
               else x :: insert_by_port m l'
  end.

(** [SELECT ... FROM machines ORDER BY port]. *)
Definition sql_select_order_by_port (d : DB) : list Machine :=
  fold_right insert_by_port [] (rows d).

(** [DELETE FROM machines WHERE name = ?]: the table without the matching
    rows, and [RowsAffected]. *)
Definition sql_delete (d : DB) (name : gostring) : DB * Z :=
  let keep := List.filter (fun r => negb (bool_decide (Name r = name))) (rows d) in
  (mkDB keep (lastID d),
   Z.of_nat (length (rows d)) - Z.of_nat (length keep))%Z.

Definition countName (n : gostring) (l : list Machine) : nat :=
  length (List.filter (fun r => bool_decide (Name r = n)) l).

(** What [SET name = ? WHERE name = ?] does to one row. *)
Definition renameRow (oldName newName : gostring) (r : Machine) : Machine :=
  if bool_decide (Name r = oldName) then setName r newName else r.

(** [UPDATE machines SET name = ? WHERE name = ?]: every matching row gets
    the new name.  The statement aborts when a changed row would share its
    name with another row: the new name differs from the old one and is
    already in the table, or more than one row is changed. *)
Definition sql_update_name (d : DB) (newName oldName : gostring)
    : error + DB * Z :=
  let n := countName oldName (rows d) in
  if (0 <? n)%nat && negb (bool_decide (newName = oldName))
     && (hasName newName (rows d) || (1 <? n)%nat)
  then inl (ErrUnique ColName)
  else
    inr (mkDB (map (renameRow oldName newName) (rows d)) (lastID d),
         Z.of_nat n).

(** What [SET last_seen = CURRENT_TIMESTAMP WHERE name = ?] does to one
    row. *)
Definition touchRow (now : Z) (name : gostring) (r : Machine) : Machine :=
  if bool_decide (Name r = name) then setLastSeen r (Some now) else r.

(** [UPDATE machines SET last_seen = CURRENT_TIMESTAMP WHERE name = ?]. *)
Definition sql_update_last_seen (d : DB) (now : Z) (name : gostring)
    : DB * Z :=
  (mkDB (map (touchRow now name) (rows d)) (lastID d),
   Z.of_nat (countName name (rows d))).

(** *** db.go *)

(** The loop [for p := PortMin; p <= PortMax; p++] of [AllocatePort], with
    the number of remaining iterations as fuel. *)
Fixpoint scanPorts (used : gset Z) (p : Z) (fuel : nat) : option Z :=
  match fuel with
  | O => None
  | S fuel' =>
      if bool_decide (p ∈ used) then scanPorts used (p + 1)%Z fuel'
      else Some p
  end.

(** [AllocatePort() (int, error)]. *)
Definition AllocatePort (d : DB) : Z * option error :=
  let used : gset Z := list_to_set (sql_select_ports d) in
  match scanPorts used PortMin (Z.to_nat (PortMax - PortMin + 1)) with
  | Some p => (p, None)
  | None => (0%Z, Some (ErrNoPorts (PortMax - PortMin + 1)))
  end.

(** [CreateMachine(m) error], [m] a pointer to a Machine: the machine the
    pointer refers to after the call, the error, and the database. *)
Definition CreateMachine (d : DB) (now : Z) (m : Machine)
    : Machine * option error * DB :=
  match AllocatePort d with
  | (_, Some err) => (m, Some err, d)
  | (port, None) =>
      let m := setPort m port in
      match sql_insert d now (Name m) (Owner m) (Port m) (LocalUser m) (PublicKey m) with
      | inl err => (m, Some (ErrInsert err), d)
      | inr (d', id) => (setID m id, None, d')
      end
  end.

(** [GetMachine(name string)]: a pointer to the machine and an error;
    [nil, nil] when there is no such row. *)
Definition GetMachine (d : DB) (name : gostring) : option Machine :=
  sql_select_by_name d name.

(** [ListMachines() ([]Machine, error)]. *)
Definition ListMachines (d : DB) : list Machine :=
  sql_select_order_by_port d.

(** [DeleteMachine(name string) error]. *)
Definition DeleteMachine (d : DB) (name : gostring) : option error * DB :=
  let '(d', n) := sql_delete d name in
  if (n =? 0)%Z then (Some (ErrNotFound name), d')
  else (None, d').

(** [RenameMachine(oldName, newName string) error]. *)
Definition RenameMachine (d : DB) (oldName newName : gostring)
    : option error * DB :=
  match sql_update_name d newName oldName with
  | inl err => (Some (ErrRename err), d)
  | inr (d', n) =>
      if (n =? 0)%Z then (Some (ErrNotFound oldName), d')
      else (None, d')
  end.

(** [UpdateLastSeen(name string) error]. *)
Definition UpdateLastSeen (d : DB) (now : Z) (name : gostring)
    : option error * DB :=
  let '(d', n) := sql_update_last_seen d now name in
  if (n =? 0)%Z then (Some (ErrNotFound name), d')
  else (None, d').

End db.

(** ** The strings package *)

Module strings.

(** [unicode.IsSpace]: tab, newline, vertical tab, form feed, carriage
    return, space, U+0085 and U+00A0 in Latin-1, and beyond it the runes
    with the Unicode property White_Space. *)
Definition IsSpace (r : rune) : bool :=
  let one c := (r =? c)%N in
  one 9%N || one 10%N || one 11%N || one 12%N || one 13%N || one 32%N
  || one 133%N || one 160%N
  || one 5760%N || ((8192 <=? r)%N && (r <=? 8202)%N)
  || one 8232%N || one 8233%N || one 8239%N || one 8287%N || one 12288%N.

Fixpoint TrimLeftSpace (s : gostring) : gostring :=
  match s with
  | [] => []
  | r :: s' => if IsSpace r then TrimLeftSpace s' else s
  end.

Definition TrimRightSpace (s : gostring) : gostring :=
  rev (TrimLeftSpace (rev s)).

(** [strings.TrimSpace]: all leading and trailing white space removed. *)
Definition TrimSpace (s : gostring) : gostring :=
  TrimRightSpace (TrimLeftSpace s).

Fixpoint HasPrefix (s prefix : gostring) {struct prefix} : bool :=
  match prefix, s with
  | [], _ => true
  | _ :: _, [] => false
  | x :: prefix', y :: s' => (x =? y)%N && HasPrefix s' prefix'
  end.

(** [strings.Contains]. *)
Fixpoint Contains (s substr : gostring) : bool :=
  HasPrefix s substr ||
  match s with
  | [] => false
  | _ :: s' => Contains s' substr
  end.

(** [strings.Fields]: the maximal runs of runes that are not white space,
    in order; [cur] is the field being read. *)
Fixpoint fieldsFrom (cur : gostring) (s : gostring) : list gostring :=
  match s with
  | [] => match cur with [] => [] | _ :: _ => [cur] end
  | r :: s' =>
      if IsSpace r
      then match cur with
           | [] => fieldsFrom [] s'
           | _ :: _ => cur :: fieldsFrom [] s'
           end
      else fieldsFrom (cur ++ [r]) s'
  end.

Definition Fields (s : gostring) : list gostring := fieldsFrom [] s.

End strings.

(** ** internal/config: the generated files *)

Module config.

Import db.

(** The file system, as far as the server uses it: the regular files by
    path.  Directories are not modelled; whether a system call that needs
    one succeeds is part of [Faults]. *)
Abbreviation FS := (gmap gostring gostring).

(** What the operating system refuses during one request.  A file that
    cannot be opened keeps its content; a write that fails after the file
    was opened and truncated leaves the runes written so far. *)
Record Faults : Type := mkFaults {
  failWriteKey       : bool;   (* os.WriteFile of a key file cannot open it *)
  failCreateConfig   : bool;   (* os.Create of the routing config *)
  failMkdirAll       : bool;   (* os.MkdirAll of the credential directory *)
  failWriteAuthKeys  : bool;   (* os.WriteFile of the credential file cannot open it *)
  failListMachines   : bool;   (* the query of ListMachines *)
  cutWriteKey        : option nat;  (* the write of a key file fails after so many runes *)
  cutExecute         : option nat;  (* tmpl.Execute fails after so many runes *)
  cutWriteAuthKeys   : option nat;  (* the write of the credential file fails after so many runes *)
  failRemoveKey      : bool    (* os.Remove of an existing key file *)
}.

Definition noFaults : Faults :=
  mkFaults false false false false false None None None false.

Inductive error : Type :=
  | ErrWriteFile (path : gostring)
  | ErrRemove (path : gostring)
  | ErrMkdirAll (path : gostring)
  | ErrCreateConfig               (* create config: %w *)
  | ErrExecute                    (* execute template: %w *)
  | ErrQuery.                     (* a failed database query *)

(** *** The template of the routing config

    [sshpiperTemplate] after [Parse]: the text before the range, the body
    of [range .Machines], and the text after [end].  The trim markers of
    the two actions have removed the newline before each of them. *)
Inductive item : Type :=
  | Text (s : gostring)
  | DotName                 (* .Name *)
  | DotPort                 (* .Port *)
  | DotLocalUser            (* .LocalUser *)
  | RootKeysDir             (* $.KeysDir *)
  | RootServerKey.          (* $.ServerKey *)

Record template : Type := mkTemplate {
  before : gostring;
  body   : list item;
  after  : gostring
}.

Definition sshpiperTemplate : template :=
  mkTemplate
    (str "version: " ++ [DQ] ++ str "1.0" ++ [DQ] ++ [NL] ++
     str "pipes:")
    [ Text ([NL] ++
            str "  - from:" ++ [NL] ++
            str "      - username: " ++ [DQ]);
      DotName;
      Text ([DQ] ++ [NL] ++
            str "        authorized_keys:" ++ [NL] ++
            str "          - ");
      RootKeysDir;
      Text (str "/");
      DotName;
      Text (str ".pub" ++ [NL] ++
            str "    to:" ++ [NL] ++
            str "      host: localhost:");
      DotPort;
      Text ([NL] ++
            str "      username: " ++ [DQ]);
      DotLocalUser;
      Text ([DQ] ++ [NL] ++
            str "      private_key: ");
      RootServerKey;
      Text ([NL] ++
            str "      ignore_hostkey: true") ]
    [NL].

Record templateData : Type := mkTemplateData {
  Machines    : list Machine;
  dataKeysDir   : gostring;
  dataServerKey : gostring
}.

Record Generator : Type := mkGenerator {
  ConfigPath : gostring;
  KeysDir    : gostring;
  ServerKey  : gostring
}.

Definition NewGenerator (configPath keysDir serverKey : gostring) : Generator :=
  mkGenerator configPath keysDir serverKey.

(** What one action or text node writes, with [m] the element of the range
    and [data] the root. *)
Definition execItem (data : templateData) (m : Machine) (i : item) : gostring :=
  match i with
  | Text s => s
  | DotName => Name m
  | DotPort => Itoa (Port m)
  | DotLocalUser => LocalUser m
  | RootKeysDir => dataKeysDir data
  | RootServerKey => dataServerKey data
  end.

(** [tmpl.Execute(f, data)]: the bytes written to [f], in order. *)
Definition Execute (t : template) (data : templateData) : gostring :=
  let out := before t in
  let out :=
    fold_left
      (fun out m => fold_left (fun out i => out ++ execItem data m i) (body t) out)
      (Machines data) out in
  out ++ after t.

(** *** path/filepath, on Unix *)

Definition Separator : rune := 47%N.   (* the slash *)

(** The elements of a path: the texts between its separators; [cur] is
    the element being read. *)
Fixpoint elementsFrom (cur : gostring) (path : gostring) : list gostring :=
  match path with
  | [] => [cur]
  | r :: path' =>
      if (r =? Separator)%N then cur :: elementsFrom [] path'
      else elementsFrom (cur ++ [r]) path'
  end.

(** One round of the loop of [filepath.Clean], on the element [e]: [out]
    holds the elements written so far, the last one first.  An empty
    element and [.] are dropped; [..] removes the last element when there
    is one to backtrack over, is written when the path is not rooted, and
    is dropped at the root; any other element is written. *)
Definition cleanStep (rooted : bool) (out : list gostring) (e : gostring)
    : list gostring :=
  if bool_decide (e = []) || bool_decide (e = str ".") then out
  else if bool_decide (e = str "..") then
    match out with
    | top :: rest =>
        if bool_decide (top = str "..")
        then (if rooted then out else e :: out)
        else rest
    | [] => if rooted then out else [e]
    end
  else e :: out.

(** The elements of [out], each followed by a separator. *)
Definition withSeparators (out : list gostring) : gostring :=
  concat (map (fun e => e ++ [Separator]) out).

(** The elements of [out] with a separator between them. *)
Definition joinElements (out : list gostring) : gostring :=
  match rev out with
  | [] => []
  | e :: before => withSeparators (rev before) ++ e
  end.

(** [filepath.Clean]. *)
Definition filepath_Clean (path : gostring) : gostring :=
  match path with
  | [] => str "."
  | r :: _ =>
      let rooted := (r =? Separator)%N in
      let out := rev (fold_left (cleanStep rooted) (elementsFrom [] path) []) in
      let s := (if rooted then [Separator] else []) ++ joinElements out in
      (* Turn empty string into "." *)
      match s with
      | [] => str "."
      | _ :: _ => s
      end
  end.

(** [filepath.Join(dir, file)]: the elements from the first one that is
    not empty on, joined by separators, and cleaned. *)
Definition filepath_Join (dir file : gostring) : gostring :=
  match dir, file with
  | _ :: _, _ => filepath_Clean (dir ++ [Separator] ++ file)
  | [], _ :: _ => filepath_Clean file
  | [], [] => []
  end.

(** [os.WriteFile]: the file is opened and truncated, the data written,
    the file closed. *)
Definition os_WriteFile (refused : bool) (cut : option nat) (fs : FS)
    (path data : gostring) : option error * FS :=
  if refused then (Some (ErrWriteFile path), fs)
  else
    match cut with
    | Some n => (Some (ErrWriteFile path), <[path := take n data]> fs)
    | None => (None, <[path := data]> fs)
    end.

(** [WriteKey] writes a machine's public key to the keys directory. *)
Definition WriteKey (g : Generator) (io : Faults) (fs : FS)
    (name publicKey : gostring) : option error * FS :=
  let path := filepath_Join (KeysDir g) (name ++ str ".pub") in
  os_WriteFile (failWriteKey io) (cutWriteKey io) fs path (publicKey ++ [NL]).

(** [RemoveKey] removes a machine's public key file. *)
Definition RemoveKey (g : Generator) (io : Faults) (fs : FS) (name : gostring)
    : option error * FS :=
  let path := filepath_Join (KeysDir g) (name ++ str ".pub") in
  match fs !! path with
  | None => (Some (ErrRemove path), fs)
  | Some _ =>
      if failRemoveKey io then (Some (ErrRemove path), fs)
      else (None, delete path fs)
  end.

Definition authKeysPath : gostring := str "/home/bastion/.ssh/authorized_keys".

(** The line [UpdateAuthorizedKeys] formats for one machine. *)
Definition authorizedKeysEntry (m : Machine) : gostring :=
  str "permitlisten=" ++ [DQ] ++ str "localhost:" ++ Itoa (Port m) ++ [DQ] ++
  str ",no-pty,no-agent-forwarding,no-X11-forwarding " ++ PublicKey m ++ [NL].

(** [UpdateAuthorizedKeys] rebuilds the credential file of the bastion
    user: the server key, then one restricted entry per machine. *)
Definition UpdateAuthorizedKeys (g : Generator) (io : Faults) (fs : FS)
    (machines : list Machine) : option error * FS :=
  let keys : gostring := [] in
  let keys :=
    match fs !! (ServerKey g ++ str ".pub") with
    | Some serverPubKey =>
        let keys := keys ++ serverPubKey in
        if (0 <? length keys)%nat && negb (bool_decide (last keys = Some NL))
        then keys ++ [NL] else keys
    | None => keys
    end in
  let keys := fold_left (fun keys m => keys ++ authorizedKeysEntry m) machines keys in
  if failMkdirAll io then (Some (ErrMkdirAll (str "/home/bastion/.ssh")), fs)
  else os_WriteFile (failWriteAuthKeys io) (cutWriteAuthKeys io) fs authKeysPath keys.

(** [Generate] writes the sshpiper.yaml config from the current machine
    list.  Parsing the constant template cannot fail, and no action of it
    can fail on a [templateData]; [os.Create] truncates the file, and
    [tmpl.Execute] fails when a write to the file fails. *)
Definition Generate (g : Generator) (io : Faults) (fs : FS)
    (machines : list Machine) : option error * FS :=
  let tmpl := sshpiperTemplate in
  if failCreateConfig io then (Some ErrCreateConfig, fs)
  else
    let fs := <[ConfigPath g := []]> fs in
    let data := mkTemplateData machines (KeysDir g) (ServerKey g) in
    match cutExecute io with
    | Some n => (Some ErrExecute, <[ConfigPath g := take n (Execute tmpl data)]> fs)
    | None => (None, <[ConfigPath g := Execute tmpl data]> fs)
    end.

End config.

(** ** internal/server: the handlers *)

Module server.

Import config.

(** The character classes of [validName]. *)
Definition isAlnum (r : rune) : bool :=
  ((97 <=? r)%N && (r <=? 122)%N)        (* a-z *)
  || ((65 <=? r)%N && (r <=? 90)%N)      (* A-Z *)
  || ((48 <=? r)%N && (r <=? 57)%N).     (* 0-9 *)

Definition isNameRune (r : rune) : bool :=
  isAlnum r || (r =? 46)%N || (r =? 95)%N || (r =? 45)%N.   (* . _ - *)

(** [validName.MatchString]: one alphanumeric rune, then at most 63 runes
    of the second class, up to the end of the text. *)
Definition validName (s : gostring) : bool :=
  match s with
  | [] => false
  | r :: rest => isAlnum r && (length rest <=? 63)%nat && forallb isNameRune rest
  end.

Inductive keyError : Type :=
  | KeyNotSingleLine                    (* public key must be a single line *)
  | KeyTooLarge                         (* public key too large *)
  | KeyBadFormat                        (* invalid SSH public key format *)
  | KeyUnsupportedType (t : gostring).  (* unsupported key type: %s *)

Definition validTypes : gmap gostring bool :=
  list_to_map
    [ (str "ssh-rsa", true); (str "ssh-ed25519", true);
      (str "ecdsa-sha2-nistp256", true); (str "ecdsa-sha2-nistp384", true);
      (str "ecdsa-sha2-nistp521", true);
      (str "ssh-dss", true) ].

(** [validatePublicKey]; [None] is the nil error. *)
Definition validatePublicKey (key : gostring) : option keyError :=
  let key := strings.TrimSpace key in
  if strings.Contains key [NL] then Some KeyNotSingleLine
  else if (2048 <? len key)%Z then Some KeyTooLarge
  else
    let parts := strings.Fields key in
    if (length parts <? 2)%nat then Some KeyBadFormat
    else
      let part0 := hd [] parts in
      if negb (default false (validTypes !! part0))
      then Some (KeyUnsupportedType part0)
      else None.

Record Handlers : Type := mkHandlers {
  Gen       : Generator;
  OnChange  : bool;          (* whether the reload hook is set (not nil) *)
  ServerURL : gostring
}.

Record registerRequest : Type := mkRegisterRequest {
  reqName      : gostring;
  reqOwner     : gostring;
  reqLocalUser : gostring;
  reqPublicKey : gostring
}.

Record registerResponse : Type := mkRegisterResponse {
  respName            : gostring;
  respPort            : Z;
  respServer          : gostring;
  respTunnelPort      : Z;
  respSSHUser         : gostring;
  respServerPublicKey : gostring
}.

Record machineListEntry : Type := mkMachineListEntry {
  entryName      : gostring;
  entryOwner     : gostring;
  entryPort      : Z;
  entryLocalUser : gostring;
  entryLastSeen  : option Z
}.

(** The text of an error body. *)
Inductive message : Type :=
  | MsgInvalidJSON          (* invalid json *)
  | MsgRequired             (* name, owner, local_user, and public_key are required *)
  | MsgInvalidName          (* invalid machine name: ... *)
  | MsgInvalidOwner         (* invalid owner: ... *)
  | MsgInvalidLocalUser     (* invalid local_user: ... *)
  | MsgKey (e : keyError)   (* err.Error() of validatePublicKey *)
  | MsgInternal             (* internal error *)
  | MsgAlreadyRegistered    (* machine already registered *)
  | MsgFailedRegister       (* failed to register machine *)
  | MsgNameRequired         (* name is required *)
  | MsgStore (e : db.error). (* err.Error() of the store *)

Definition StatusOK : Z := 200.
Definition StatusCreated : Z := 201.
Definition StatusBadRequest : Z := 400.
Definition StatusNotFound : Z := 404.
Definition StatusConflict : Z := 409.
Definition StatusInternalServerError : Z := 500.

(** What a handler writes to its [http.ResponseWriter]. *)
Inductive response : Type :=
  | jsonError (msg : message) (code : Z)
  | jsonCreated (r : registerResponse)            (* 201 and the body *)
  | jsonOK                                        (* 200 and ok: true *)
  | jsonMachines (l : list machineListEntry)
  | jsonStatus (machine_count : Z).

Inductive logline : Type :=
  | LogCreating (e : db.error)           (* error creating machine *)
  | LogWritingKey (e : config.error)     (* error writing key *)
  | LogRegenerating (e : config.error)   (* error regenerating config *)
  | LogAuthorizedKeys (e : config.error). (* warning: failed to update authorized_keys *)

(** Everything a request can read or change: the database, the files, the
    number of times the reload hook ran, and the log. *)
Record state : Type := mkState {
  store   : db.DB;
  files   : FS;
  reloads : nat;
  logs    : list logline
}.

Definition setStore (st : state) (d : db.DB) : state :=
  mkState d (files st) (reloads st) (logs st).
Definition setFiles (st : state) (fs : FS) : state :=
  mkState (store st) fs (reloads st) (logs st).
Definition logPrintf (st : state) (l : logline) : state :=
  mkState (store st) (files st) (reloads st) (logs st ++ [l]).
Definition runOnChange (st : state) : state :=
  mkState (store st) (files st) (S (reloads st)) (logs st).

(** [regenerateConfig]. *)
Definition regenerateConfig (h : Handlers) (io : Faults) (st : state)
    : option config.error * state :=
  if failListMachines io then (Some ErrQuery, st)
  else
    let machines := db.ListMachines (store st) in
    match Generate (Gen h) io (files st) machines with
    | (Some err, fs) => (Some err, setFiles st fs)
    | (None, fs) =>
        let st := setFiles st fs in
        let st :=
          match UpdateAuthorizedKeys (Gen h) io (files st) machines with
          | (Some err, fs) => logPrintf (setFiles st fs) (LogAuthorizedKeys err)
          | (None, fs) => setFiles st fs
          end in
        let st := if OnChange h then runOnChange st else st in
        (None, st)
    end.

(** The machine [Register] builds from a request:
    [m := &db.Machine{Name: ..., Owner: ..., LocalUser: ..., PublicKey: ...}]. *)
Definition newMachine (req : registerRequest) : db.Machine :=
  db.mkMachine 0 (reqName req) (reqOwner req) 0 (reqLocalUser req)
               (reqPublicKey req) 0 None.

(** [Register], on the decoded body ([None]: the body is not JSON). *)
Definition Register (h : Handlers) (io : Faults) (now : Z) (st : state)
    (body : option registerRequest) : response * state :=
  match body with
  | None => (jsonError MsgInvalidJSON StatusBadRequest, st)
  | Some req =>
    if bool_decide (reqName req = []) || bool_decide (reqOwner req = [])
       || bool_decide (reqLocalUser req = []) || bool_decide (reqPublicKey req = [])
    then (jsonError MsgRequired StatusBadRequest, st)
    else if negb (validName (reqName req))
    then (jsonError MsgInvalidName StatusBadRequest, st)
    else if negb (validName (reqOwner req))
    then (jsonError MsgInvalidOwner StatusBadRequest, st)
    else if negb (validName (reqLocalUser req))
    then (jsonError MsgInvalidLocalUser StatusBadRequest, st)
    else
    match validatePublicKey (reqPublicKey req) with
    | Some err => (jsonError (MsgKey err) StatusBadRequest, st)
    | None =>
    (* Check if already exists *)
    match db.GetMachine (store st) (reqName req) with
    | Some existing => (jsonError MsgAlreadyRegistered StatusConflict, st)
    | None =>
    let m := newMachine req in
    match db.CreateMachine (store st) now m with
    | (m, Some err, d) =>
        (jsonError MsgFailedRegister StatusInternalServerError,
         logPrintf (setStore st d) (LogCreating err))
    | (m, None, d) =>
        let st := setStore st d in
        let st :=
          match WriteKey (Gen h) io (files st) (db.Name m) (db.PublicKey m) with
          | (Some err, fs) => logPrintf (setFiles st fs) (LogWritingKey err)
          | (None, fs) => setFiles st fs
          end in
        let st :=
          match regenerateConfig h io st with
          | (Some err, st) => logPrintf st (LogRegenerating err)
          | (None, st) => st
          end in
        (* Read server public key to include in response *)
        let serverPubKey :=
          match files st !! (ServerKey (Gen h) ++ str ".pub") with
          | Some pubKeyData => strings.TrimSpace pubKeyData
          | None => []
          end in
        (jsonCreated
           (mkRegisterResponse (db.Name m) (db.Port m) (ServerURL h) 2222
                               (str "bastion") serverPubKey),
         st)
    end end end
  end.

(** [ListMachines]. *)
Definition ListMachines (st : state) : response * state :=
  let machines := db.ListMachines (store st) in
  (jsonMachines
     (map (fun m => mkMachineListEntry (db.Name m) (db.Owner m) (db.Port m)
                                       (db.LocalUser m) (db.LastSeen m))
          machines),
   st).

(** [DeleteMachine], on the [name] parameter of the URL. *)
Definition DeleteMachine (h : Handlers) (io : Faults) (st : state)
    (name : gostring) : response * state :=
  match db.DeleteMachine (store st) name with
  | (Some err, d) => (jsonError (MsgStore err) StatusNotFound, setStore st d)
  | (None, d) =>
      let st := setStore st d in
      let st := setFiles st (snd (RemoveKey (Gen h) io (files st) name)) in
      let st :=
        match regenerateConfig h io st with
        | (Some err, st) => logPrintf st (LogRegenerating err)
        | (None, st) => st
        end in
      (jsonOK, st)
  end.

(** [Status]. *)
Definition Status (st : state) : response * state :=
  (jsonStatus (Z.of_nat (length (db.ListMachines (store st)))), st).

(** [Heartbeat], on the decoded body. *)
Definition Heartbeat (now : Z) (st : state) (body : option gostring)
    : response * state :=
  match body with
  | None => (jsonError MsgNameRequired StatusBadRequest, st)
  | Some name =>
      if bool_decide (name = [])
      then (jsonError MsgNameRequired StatusBadRequest, st)
      else
        match db.UpdateLastSeen (store st) now name with
        | (Some err, d) => (jsonError (MsgStore err) StatusNotFound, setStore st d)
        | (None, d) => (jsonOK, setStore st d)
        end
  end.

End server.

(** ** The registry as a transition system *)

Module registry.

Import db.

(** The port pool. *)
Definition inPool (p : Z) : Prop := (PortMin <= p <= PortMax)%Z.

(** Port [p] is held by a machine of the table. *)
Definition portUsed (d : DB) (p : Z) : Prop :=
  exists m, In m (rows d) /\ Port m = p.

(** The ports of the rows named [n]. *)
Definition portsOf (d : DB) (n : gostring) : list Z :=
  map Port (List.filter (fun r => bool_decide (Name r = n)) (rows d)).

(** The invariant of the data model. *)
Record Inv (d : DB) : Prop := mkInv {
  inv_names : NoDup (map Name (rows d));
  inv_ports : NoDup (map Port (rows d));
  inv_pool  : Forall (fun m => inPool (Port m)) (rows d);
  inv_one   : forall m, In m (rows d) -> exists p, portsOf d (Name m) = [p]
}.

(** The mutating operations of the store. *)
Inductive op : Type :=
  | Create (now : Z) (m : Machine)
  | Rename (oldName newName : gostring)
  | Delete (name : gostring)
  | Heartbeat (now : Z) (name : gostring).

Definition apply (d : DB) (o : op) : DB :=
  match o with
  | Create now m => snd (CreateMachine d now m)
  | Rename oldName newName => snd (RenameMachine d oldName newName)
  | Delete name => snd (DeleteMachine d name)
  | Heartbeat now name => snd (UpdateLastSeen d now name)
  end.

(** The states of the table that the operations can produce from a fresh
    database. *)
Inductive reachable : DB -> Prop :=
  | reachable_Open : reachable Open
  | reachable_apply d o : reachable d -> reachable (apply d o).

End registry.

(** ** Concrete tables and requests, as in the tests of the repository *)

Module fixtures.

Import db registry.

(** A machine as the tests pass it to [CreateMachine]. *)
Definition machine (name owner key : String.string) : Machine :=
  mkMachine 0 (str name) (str owner) 0 (str owner) (str key) 0 None.

(** TestPortAllocation: [m1] and [m2] registered on a fresh database. *)
Definition two : DB :=
  apply (apply Open (Create 1 (machine "m1" "a" "key1")))
        (Create 2 (machine "m2" "b" "key2")).

(** The row of [m1] in [two]. *)
Definition row1 : Machine :=
  mkMachine 1 (str "m1") (str "a") 10022 (str "a") (str "key1") 1 None.

(** The row of [m2] in [two]. *)
Definition row2 : Machine :=
  mkMachine 2 (str "m2") (str "b") 10023 (str "b") (str "key2") 2 None.

(** [two] after [m1] was deleted: the lowest port of the pool is free and
    [m2] holds the lowest port in use. *)
Definition onlySecond : DB := apply two (Delete (str "m1")).

(** The deployment of entrypoint.sh. *)
Definition gen : config.Generator :=
  config.NewGenerator (str "/data/sshpiper.yaml") (str "/data/keys")
                      (str "/data/server-key").

Definition handlers : server.Handlers :=
  server.mkHandlers gen true (str "bastion.example.com").

Definition serverPubKey : gostring :=
  str "ssh-ed25519 SERVER bastion-server" ++ [NL].

(** The server after its first boot: an empty table, and the public key
    of the server on disk. *)
Definition fresh : server.state :=
  server.mkState Open {[ str "/data/server-key.pub" := serverPubKey ]} 0 [].

(** The request of TestRegisterSuccess. *)
Definition alice : server.registerRequest :=
  server.mkRegisterRequest (str "alice-mac") (str "alice") (str "alice")
                           (str "ssh-ed25519 AAAA alice").

Definition bob : server.registerRequest :=
  server.mkRegisterRequest (str "bob-pc") (str "bob") (str "bob")
                           (str "ssh-ed25519 BBBB bob").

(** The server after [alice] registered. *)
Definition withAlice : server.state :=
  snd (server.Register handlers config.noFaults 1 fresh (Some alice)).

(** Every fault at once. *)
Definition allFaults : config.Faults :=
  config.mkFaults true true true true true (Some 0%nat) (Some 0%nat) (Some 0%nat) true.

(** A valid key followed by 2040 spaces: 2062 bytes. *)
Definition paddedKey : gostring :=
  str "ssh-ed25519 AAAA alice" ++ repeat 32%N 2040.

Definition padded : server.registerRequest :=
  server.mkRegisterRequest (str "alice-mac") (str "alice") (str "alice") paddedKey.

(** A valid key after an empty line. *)
Definition newlineKey : gostring := [NL] ++ str "ssh-ed25519 AAAA alice".

Definition newlined : server.registerRequest :=
  server.mkRegisterRequest (str "alice-mac") (str "alice") (str "alice") newlineKey.

End fixtures.

(** ** The generated documents, as the specification describes them *)

Module docspec.

Import db.

(** The rule of one machine in the routing config: connections that
    authenticate as [name] with a key of [keysDir/name.pub] go to
    [localhost:port] as [local_user], with the server's private key and
    without checking the host key. *)
Definition routingRule (keysDir serverKey : gostring) (m : Machine) : gostring :=
  [NL] ++ str "  - from:" ++
  [NL] ++ str "      - username: " ++ [DQ] ++ Name m ++ [DQ] ++
  [NL] ++ str "        authorized_keys:" ++
  [NL] ++ str "          - " ++ keysDir ++ str "/" ++ Name m ++ str ".pub" ++
  [NL] ++ str "    to:" ++
  [NL] ++ str "      host: localhost:" ++ Itoa (Port m) ++
  [NL] ++ str "      username: " ++ [DQ] ++ LocalUser m ++ [DQ] ++
  [NL] ++ str "      private_key: " ++ serverKey ++
  [NL] ++ str "      ignore_hostkey: true".

(** The routing config: the version, the [pipes] key, one rule per
    machine in the order of the list, and a final newline. *)
Definition routingDocument (keysDir serverKey : gostring)
    (machines : list Machine) : gostring :=
  str "version: " ++ [DQ] ++ str "1.0" ++ [DQ] ++ [NL] ++ str "pipes:" ++
  concat (map (routingRule keysDir serverKey) machines) ++ [NL].

(** The grant of a machine in the credential file. *)
Definition grant (port : Z) : gostring :=
  str "permitlisten=" ++ [DQ] ++ str "localhost:" ++ Itoa port ++ [DQ] ++
  str ",no-pty,no-agent-forwarding,no-X11-forwarding".

(** An entry of the credential file: the grant, a space, the key, and the
    end of the line. *)
Definition grantEntry (port : Z) (publicKey : gostring) : gostring :=
  grant port ++ str " " ++ publicKey ++ [NL].

(** The server key as the first entry: its file, closed by a newline when
    it is not empty and does not end with one. *)
Definition firstEntry (serverPubKey : gostring) : gostring :=
  match last serverPubKey with
  | None => []
  | Some r => if bool_decide (r = NL) then serverPubKey else serverPubKey ++ [NL]
  end.

(** The credential file: the server key first, then the entries of the
    machines. *)
Definition credentialFile (serverPubKey : gostring) (machines : list Machine)
    : gostring :=
  firstEntry serverPubKey ++
  concat (map (fun m => grantEntry (Port m) (PublicKey m)) machines).

(** The lines of a text: the runes before each newline, and what follows
    the last newline when it is not empty.  An entry of an
    authorized_keys file is one line. *)
Fixpoint linesFrom (cur : gostring) (s : gostring) : list gostring :=
  match s with
  | [] => match cur with [] => [] | _ :: _ => [cur] end
  | r :: s' =>
      if (r =? NL)%N then cur :: linesFrom [] s'
      else linesFrom (cur ++ [r]) s'
  end.

Definition lines (s : gostring) : list gostring := linesFrom [] s.


End docspec.

(** ** The rules of the specification for a submitted public key *)

Module keyspec.

Import strings.

(** The recognized SSH key algorithms. *)
Definition recognizedTypes : list gostring :=
  [ str "ssh-rsa"; str "ssh-ed25519"; str "ecdsa-sha2-nistp256";
    str "ecdsa-sha2-nistp384"; str "ecdsa-sha2-nistp521"; str "ssh-dss" ].

(** Only white space. *)
Definition blank (s : gostring) : Prop := Forall (fun r => IsSpace r = true) s.

(** No white space at all. *)
Definition solid (s : gostring) : Prop := Forall (fun r => IsSpace r = false) s.

(** Some rune that is not white space. *)
Definition hasInk (s : gostring) : Prop := exists r, In r s /\ IsSpace r = false.

(** [core] is [key] without its surrounding white space: [key] is [core]
    between two blank strings, and [core] neither starts nor ends with
    white space. *)
Definition trimmedTo (key core : gostring) : Prop :=
  exists pre post,
    key = pre ++ core ++ post /\ blank pre /\ blank post /\
    (forall r, head core = Some r -> IsSpace r = false) /\
    (forall r, last core = Some r -> IsSpace r = false).

(** [s] splits into the white-space separated fields [fs]: every field is
    a non-empty run without white space, the fields are separated by
    non-empty blank runs, and blank runs may surround them. *)
Inductive splitsInto : gostring -> list gostring -> Prop :=
  | splits_blank ws : blank ws -> splitsInto ws []
  | splits_last ws f ws' :
      blank ws -> f <> [] -> solid f -> blank ws' ->
      splitsInto (ws ++ f ++ ws') [f]
  | splits_more ws f sp rest fs :
      blank ws -> f <> [] -> solid f -> IsSpace sp = true ->
      splitsInto rest fs -> fs <> [] ->
      splitsInto (ws ++ f ++ sp :: rest) (f :: fs).

(** The keys the specification accepts: after trimming surrounding white
    space, no newline, at most 2048 bytes, at least two fields, the first
    of them a recognized algorithm. *)
Definition acceptable (key : gostring) : Prop :=
  exists core,
    trimmedTo key core /\ ~ In NL core /\ (len core <= 2048)%Z /\
    exists algo field2 more,
      splitsInto core (algo :: field2 :: more) /\ In algo recognizedTypes.

(** A key of two lines: text, a newline, text. *)
Definition twoLines (key : gostring) : Prop :=
  exists l1 l2, key = l1 ++ NL :: l2 /\ hasInk l1 /\ hasInk l2.

End keyspec.

(** ** Registration requests *)

Module reqspec.

Import server.

(** A request that passes the validation of [Register]: the four fields
    are present, name, owner and local_user obey the name rule, and the
    key obeys the key rule. *)
Definition wellFormed (req : registerRequest) : Prop :=
  reqName req <> [] /\ reqOwner req <> [] /\ reqLocalUser req <> [] /\
  reqPublicKey req <> [] /\
  validName (reqName req) = true /\ validName (reqOwner req) = true /\
  validName (reqLocalUser req) = true /\
  validatePublicKey (reqPublicKey req) = None.

(** The algorithm token of a key: its first field. *)
Definition algorithm (key : gostring) : option gostring :=
  head (strings.Fields key).

End reqspec.

(** ** cmd/bastiond: the start of the server *)

Module bastiond.

Import db config.

Inductive logline : Type :=
  | WarnWriteKey (name : gostring) (e : config.error)
      (* Warning: failed to write key for %s: %v *)
  | WarnAuthorizedKeys (e : config.error)
      (* Warning: failed to update authorized_keys: %v *)
  | LogGenerated (machines : nat).
      (* Generated sshpiper config for %d machines *)




End bastiond.

(** ** internal/tunnel *)

Module tunnel.

(** [time.Second], in nanoseconds, the unit of [time.Duration]. *)
Definition Second : Z := 1000000000.

(** [backoff].  The float [math.Pow(2, float64(attempt))] is a power of
    two and therefore exact: for a negative [attempt] it is a fraction
    below one, which the conversion to [time.Duration] truncates to zero;
    beyond the range of the floats it is +Inf, which the cap turns into
    60. *)
Definition backoff (attempt : Z) : Z :=
  if (attempt <? 0)%Z then 0%Z
  else
    let secs := (2 ^ attempt)%Z in
    let secs := if (60 <? secs)%Z then 60%Z else secs in
    (secs * Second)%Z.

End tunnel.

(** ** cmd/bastion: the client *)

Module client.

Import config.

Record clientConfig : Type := mkClientConfig {
  ServerURL    : gostring;
  APIKey       : gostring;
  MachineName  : gostring;
  AssignedPort : Z;
  KeyPath      : gostring
}.

(** [getConfigValue]. *)
Definition getConfigValue (cfg : clientConfig) (key : gostring) : gostring :=
  if bool_decide (key = str "server_url") then ServerURL cfg
  else if bool_decide (key = str "api_key") then APIKey cfg
  else if bool_decide (key = str "machine_name") then MachineName cfg
  else if bool_decide (key = str "key_path") then KeyPath cfg
  else if bool_decide (key = str "assigned_port") then Itoa (AssignedPort cfg)
  else [].

(** [setConfigValue]: the configuration the pointer refers to after the
    call. *)
Definition setConfigValue (cfg : clientConfig) (key value : gostring)
    : clientConfig :=
  if bool_decide (key = str "server_url")
  then mkClientConfig value (APIKey cfg) (MachineName cfg) (AssignedPort cfg) (KeyPath cfg)
  else if bool_decide (key = str "api_key")
  then mkClientConfig (ServerURL cfg) value (MachineName cfg) (AssignedPort cfg) (KeyPath cfg)
  else if bool_decide (key = str "machine_name")
  then mkClientConfig (ServerURL cfg) (APIKey cfg) value (AssignedPort cfg) (KeyPath cfg)
  else if bool_decide (key = str "key_path")
  then mkClientConfig (ServerURL cfg) (APIKey cfg) (MachineName cfg) (AssignedPort cfg) value
  else cfg.

Definition validKeys : gmap gostring bool :=
  list_to_map
    [ (str "server_url", true); (str "api_key", true);
      (str "machine_name", true); (str "key_path", true) ].

Definition readOnlyKeys : gmap gostring bool :=
  list_to_map [ (str "assigned_port", true) ].

Inductive setError : Type :=
  | ErrReadOnly (key : gostring)     (* %q is read-only (set by server during register) *)
  | ErrUnknownKey (key : gostring).  (* unknown key %q (valid: ...) *)

(** The subcommand [config set <key> <value>] of [configCmd], on the
    loaded configuration: the error, or the configuration that is saved. *)
Definition configSet (cfg : clientConfig) (key value : gostring)
    : setError + clientConfig :=
  if negb (default false (validKeys !! key)) then
    if default false (readOnlyKeys !! key) then inl (ErrReadOnly key)
    else inl (ErrUnknownKey key)
  else inr (setConfigValue cfg key value).

(** What the operating system refuses during one call of
    [addToAuthorizedKeys]. *)
Record refusals : Type := mkRefusals {
  refuseMkdirAll  : bool;        (* os.MkdirAll of the .ssh directory *)
  refuseOpenFile  : bool;        (* os.OpenFile of authorized_keys *)
  refuseNewline   : bool;        (* the WriteString of the separating newline *)
  cutWriteString  : option nat   (* the WriteString of the key fails after so many runes *)
}.

Definition noRefusals : refusals := mkRefusals false false false None.

(** [addToAuthorizedKeys], with the home directory of the user ([home] is
    empty when [os.UserHomeDir] fails: its error is dropped).  A file that
    cannot be read counts as empty; the file is opened for appending, so
    what it holds stays; the error of the first [WriteString] is dropped,
    that of the second is returned. *)
Definition addToAuthorizedKeys (io : refusals) (fs : FS)
    (home pubKey : gostring) : option config.error * FS :=
  let sshDir := filepath_Join home (str ".ssh") in
  if refuseMkdirAll io then (Some (ErrMkdirAll sshDir), fs)
  else
    let authKeysPath := filepath_Join sshDir (str "authorized_keys") in
    (* Check if key is already present *)
    let existing := default [] (fs !! authKeysPath) in
    if strings.Contains existing pubKey then (None, fs)
    else if refuseOpenFile io then (Some (ErrWriteFile authKeysPath), fs)
    else
      (* Ensure we start on a new line *)
      let f := existing in
      let f :=
        if (0 <? length existing)%nat
           && negb (bool_decide (last existing = Some NL))
        then (if refuseNewline io then f else f ++ [NL]) else f in
      match cutWriteString io with
      | Some n =>
          (Some (ErrWriteFile authKeysPath),
           <[authKeysPath := f ++ take n (pubKey ++ [NL])]> fs)
      | None => (None, <[authKeysPath := f ++ (pubKey ++ [NL])]> fs)
      end.

End client.

(** ** Further notions used by the properties *)

Module facts.

Import db config server.

(** The ids of a table: pairwise distinct, positive, and not above the
    AUTOINCREMENT counter. *)
Definition idsFresh (d : DB) : Prop :=
  (0 <= lastID d)%Z /\
  NoDup (map ID (rows d)) /\
  Forall (fun m => (0 < ID m <= lastID d)%Z) (rows d).

(** Registering the machines of a list one after the other. *)
Definition createAll (d : DB) (now : Z) (ms : list Machine) : DB :=
  fold_left (fun d m => snd (CreateMachine d now m)) ms d.


(** The path of the key file of a machine. *)
Definition keyPath (g : Generator) (name : gostring) : gostring :=
  filepath_Join (KeysDir g) (name ++ str ".pub").

(** The generated files do not share a path: the routing config, the
    credential file, the public key of the server and the key file of
    [name] are four different files. *)
Definition separated (g : Generator) (name : gostring) : Prop :=
  ConfigPath g <> authKeysPath /\
  ConfigPath g <> ServerKey g ++ str ".pub" /\
  authKeysPath <> ServerKey g ++ str ".pub" /\
  keyPath g name <> ConfigPath g /\
  keyPath g name <> authKeysPath /\
  keyPath g name <> ServerKey g ++ str ".pub".

(** The routing config and the credential file agree with the table. *)
Definition inSync (h : Handlers) (st : state) : Prop :=
  files st !! ConfigPath (Gen h)
    = Some (docspec.routingDocument (KeysDir (Gen h)) (ServerKey (Gen h))
              (db.ListMachines (store st)))
  /\ files st !! authKeysPath
     = Some (docspec.credentialFile
               (default [] (files st !! (ServerKey (Gen h) ++ str ".pub")))
               (db.ListMachines (store st))).

(** The requests that change the state, as the router passes them to the
    handlers of handlers.go. *)
Inductive request : Type :=
  | PostRegister (now : Z) (body : option registerRequest)
  | DeleteMachines (name : gostring)
  | PostHeartbeat (now : Z) (body : option gostring).

Definition serve (h : Handlers) (io : Faults) (st : state) (r : request)
    : response * state :=
  match r with
  | PostRegister now body => Register h io now st body
  | DeleteMachines name => DeleteMachine h io st name
  | PostHeartbeat now body => Heartbeat now st body
  end.

(** The states of a server that started on an empty table. *)
Inductive served (h : Handlers) : state -> Prop :=
  | served_start fs : served h (mkState Open fs 0 [])
  | served_request st io r :
      served h st -> served h (snd (serve h io st r)).

(** A table without a free port: 78 machines registered on a fresh
    database. *)
Definition numbered (i : nat) : Machine :=
  mkMachine 0 (str "m" ++ Itoa (Z.of_nat i)) (str "owner") 0 (str "user")
            (str "ssh-ed25519 AAAA key") 0 None.

Definition full : DB := createAll Open 1 (map numbered (seq 0 78)).

(** A text that is safe as a file name and inside a quoted YAML scalar:
    1 to 64 bytes, one per rune, without a slash, a double quote, a
    newline, a space or a backslash. *)
Definition plain (s : gostring) : Prop :=
  (1 <= len s <= 64)%Z /\ len s = Z.of_nat (length s) /\
  ~ In 47%N s /\ ~ In DQ s /\ ~ In NL s /\ ~ In 32%N s /\ ~ In 92%N s.

(** The rules of [Register] hold for a stored machine. *)
Definition validRow (m : Machine) : Prop :=
  validName (Name m) = true /\ validName (Owner m) = true /\
  validName (LocalUser m) = true /\ validatePublicKey (PublicKey m) = None.

End facts.

(* ================================================================== *)
(** * Properties *)
(* ================================================================== *)

Import db registry.

(** ** The port scan *)

Section Scan.

Variable used : gset Z.

Lemma scanPorts_Some p fuel q :
  scanPorts used p fuel = Some q ->
  (p <= q < p + Z.of_nat fuel)%Z /\ (q ∉ used) /\
  forall r, (p <= r < q)%Z -> r ∈ used.
Proof.
  revert p. induction fuel as [|fuel IH]; intros p; simpl; [discriminate|].
  case_bool_decide as Hp.
  - intros H. apply IH in H as (Hq & Hfree & Hlow).
    split; [lia|]. split; [exact Hfree|].
    intros r Hr. destruct (decide (r = p)) as [->|Hne]; [exact Hp|].
    apply Hlow. lia.
  - intros [= <-]. split; [lia|]. split; [exact Hp|]. intros r Hr. lia.
Qed.

Lemma scanPorts_None p fuel :
  scanPorts used p fuel = None <->
  forall r, (p <= r < p + Z.of_nat fuel)%Z -> r ∈ used.
Proof.
  revert p. induction fuel as [|fuel IH]; intros p; simpl.
  - split; [intros _ r Hr; lia | reflexivity].
  - case_bool_decide as Hp.
    + rewrite IH. split; intros H r Hr.
      * destruct (decide (r = p)) as [->|Hne]; [exact Hp|]. apply H. lia.
      * apply H. lia.
    + split; [discriminate|]. intros H. exfalso. apply Hp, H. lia.
Qed.

Lemma scanPorts_lowest p fuel q :
  (p <= q < p + Z.of_nat fuel)%Z -> q ∉ used ->
  (forall r, (p <= r < q)%Z -> r ∈ used) ->
  scanPorts used p fuel = Some q.
Proof.
  intros Hq Hfree Hlow.
  destruct (scanPorts used p fuel) as [q'|] eqn:E.
  - apply scanPorts_Some in E as (Hq' & Hfree' & Hlow').
    f_equal. destruct (Z.lt_trichotomy q q') as [Hlt|[->|Hgt]]; [|reflexivity|].
    + exfalso. apply Hfree, Hlow'. lia.
    + exfalso. apply Hfree', Hlow. lia.
  - exfalso. apply Hfree. eapply scanPorts_None; [exact E | lia].
Qed.

End Scan.

(** ** Lists of rows *)

Lemma hasName_In n l : hasName n l = true <-> In n (map Name l).
Proof.
  unfold hasName. rewrite existsb_exists, in_map_iff.
  split; intros (r & H1 & H2).
  - apply bool_decide_eq_true in H2. eauto.
  - exists r. split; [exact H2|]. apply bool_decide_eq_true. exact H1.
Qed.

Lemma hasName_false n l : hasName n l = false <-> ~ In n (map Name l).
Proof.
  rewrite <- hasName_In. destruct (hasName n l); split; congruence.
Qed.

Lemma hasPort_In p l : hasPort p l = true <-> In p (map Port l).
Proof.
  unfold hasPort. rewrite existsb_exists, in_map_iff.
  split; intros (r & H1 & H2).
  - apply bool_decide_eq_true in H2. eauto.
  - exists r. split; [exact H2|]. apply bool_decide_eq_true. exact H1.
Qed.

Lemma portUsed_In d p : portUsed d p <-> In p (map Port (rows d)).
Proof.
  unfold portUsed. rewrite in_map_iff.
  split; intros (m & H1 & H2); exists m; tauto.
Qed.

Lemma used_set d p :
  p ∈ (list_to_set (sql_select_ports d) : gset Z) <-> portUsed d p.
Proof.
  rewrite elem_of_list_to_set, list_elem_of_In, portUsed_In. reflexivity.
Qed.

(** On a list without two elements of the same key, the key determines
    the element. *)
Lemma NoDup_map_inj {A B} (f : A -> B) l x y :
  NoDup (map f l) -> In x l -> In y l -> f x = f y -> x = y.
Proof.
  induction l as [|a l IH]; simpl; [tauto|].
  intros Hnd. apply NoDup_cons in Hnd as [Hnotin Hnd]. rewrite list_elem_of_In in Hnotin.
  intros [->|Hx] [->|Hy] Heq; auto.
  - exfalso. apply Hnotin. rewrite Heq. apply in_map. exact Hy.
  - exfalso. apply Hnotin. rewrite <- Heq. apply in_map. exact Hx.
Qed.

Lemma NoDup_map_filter {A B} (f : A -> B) (P : A -> bool) l :
  NoDup (map f l) -> NoDup (map f (List.filter P l)).
Proof.
  induction l as [|a l IH]; simpl; [auto|].
  intros Hnd. apply NoDup_cons in Hnd as [Hnotin Hnd]. rewrite list_elem_of_In in Hnotin.
  destruct (P a); simpl; [|auto].
  apply NoDup_cons. split; [rewrite list_elem_of_In|auto].
  intros Hin. apply Hnotin. apply in_map_iff in Hin as (x & Hx & Hin).
  apply filter_In in Hin as [Hin _]. rewrite <- Hx. apply in_map. exact Hin.
Qed.

(** A map that is injective on the elements of a list keeps it free of
    duplicates. *)
Lemma NoDup_map_inj_on {A B} (g : A -> B) l :
  NoDup l -> (forall x y, In x l -> In y l -> g x = g y -> x = y) ->
  NoDup (map g l).
Proof.
  induction l as [|a l IH]; simpl; intros Hnd Hinj; [constructor|].
  apply NoDup_cons in Hnd as [Hnotin Hnd]. rewrite list_elem_of_In in Hnotin.
  apply NoDup_cons. split; [rewrite list_elem_of_In|].
  - intros Hin. apply in_map_iff in Hin as (x & Hx & Hin).
    apply Hnotin. rewrite <- (Hinj x a); auto.
  - apply IH; auto.
Qed.

Lemma filter_key_unique {A B} `{EqDecision B} (f : A -> B) l m :
  NoDup (map f l) -> In m l ->
  List.filter (fun r => bool_decide (f r = f m)) l = [m].
Proof.
  induction l as [|a l IH]; simpl; [tauto|].
  intros Hnd. apply NoDup_cons in Hnd as [Hnotin Hnd]. rewrite list_elem_of_In in Hnotin.
  assert (Hnone : forall k, ~ In k (map f l) ->
            List.filter (fun r => bool_decide (f r = k)) l = []).
  { clear. intros k. induction l as [|b l IH]; simpl; [reflexivity|].
    intros Hk. case_bool_decide as Hb; [exfalso; apply Hk; auto|].
    apply IH. tauto. }
  intros [->|Hin].
  - rewrite bool_decide_eq_true_2 by reflexivity. f_equal. apply Hnone, Hnotin.
  - case_bool_decide as Ha.
    + exfalso. apply Hnotin. rewrite Ha. apply in_map. exact Hin.
    + apply IH; assumption.
Qed.

Lemma countName_0 n l : countName n l = 0%nat <-> ~ In n (map Name l).
Proof.
  unfold countName. induction l as [|a l IH]; simpl; [tauto|].
  case_bool_decide as Ha; simpl.
  - split; [discriminate|]. intros H. exfalso. apply H. auto.
  - rewrite IH. tauto.
Qed.

Lemma countName_NoDup n l : NoDup (map Name l) -> (countName n l <= 1)%nat.
Proof.
  unfold countName. induction l as [|a l IH]; simpl; [lia|].
  intros Hnd. apply NoDup_cons in Hnd as [Hnotin Hnd]. rewrite list_elem_of_In in Hnotin.
  case_bool_decide as Ha; simpl; [|auto].
  subst n. apply countName_0 in Hnotin. unfold countName in Hnotin.
  rewrite Hnotin. lia.
Qed.

(** The invariant follows from its first three parts. *)
Lemma Inv_intro d :
  NoDup (map Name (rows d)) -> NoDup (map Port (rows d)) ->
  Forall (fun m => inPool (Port m)) (rows d) -> Inv d.
Proof.
  intros Hn Hp Hpool. constructor; try assumption.
  intros m Hm. exists (Port m). unfold portsOf.
  rewrite (filter_key_unique Name (rows d) m Hn Hm). reflexivity.
Qed.

(** ** AllocatePort *)

Lemma pool_size : Z.of_nat (Z.to_nat (PortMax - PortMin + 1)) = 78%Z.
Proof. reflexivity. Qed.

Lemma AllocatePort_ok d p :
  AllocatePort d = (p, None) <->
  inPool p /\ ~ portUsed d p /\
  forall q, (PortMin <= q < p)%Z -> portUsed d q.
Proof.
  unfold AllocatePort, inPool.
  set (used := list_to_set (sql_select_ports d) : gset Z).
  split.
  - destruct (scanPorts used PortMin _) as [q|] eqn:E; [|discriminate].
    intros [= ->]. apply scanPorts_Some in E as (Hq & Hfree & Hlow).
    rewrite pool_size in Hq. unfold PortMin, PortMax in *.
    split; [lia|]. split.
    + intros Hu. apply Hfree, used_set, Hu.
    + intros q Hq'. apply used_set, Hlow. exact Hq'.
  - intros (Hp & Hfree & Hlow).
    rewrite (scanPorts_lowest used PortMin _ p); [reflexivity| | |].
    + rewrite pool_size. unfold PortMin, PortMax in *. lia.
    + intros Hu. apply Hfree, used_set, Hu.
    + intros r Hr. apply used_set, Hlow, Hr.
Qed.

Lemma AllocatePort_exhausted d :
  AllocatePort d = (0%Z, Some (ErrNoPorts 78)) <->
  forall p, inPool p -> portUsed d p.
Proof.
  unfold AllocatePort, inPool.
  set (used := list_to_set (sql_select_ports d) : gset Z).
  destruct (scanPorts used PortMin _) as [q|] eqn:E.
  - split; [discriminate|]. intros H. exfalso.
    apply scanPorts_Some in E as (Hq & Hfree & _).
    rewrite pool_size in Hq. apply Hfree, used_set, H.
    unfold PortMin, PortMax in *. lia.
  - split; [|reflexivity]. intros _ p Hp.
    apply used_set. eapply scanPorts_None; [exact E|].
    rewrite pool_size. unfold PortMin, PortMax in *. lia.
Qed.

(** [AllocatePort] either returns a port without an error or fails with
    the exhaustion error. *)
Lemma AllocatePort_cases d :
  (exists p, AllocatePort d = (p, None)) \/
  AllocatePort d = (0%Z, Some (ErrNoPorts 78)).
Proof.
  unfold AllocatePort.
  destruct (scanPorts _ _ _) as [q|]; [left; eauto | right; reflexivity].
Qed.

(** ** CreateMachine *)

Lemma CreateMachine_ok d now m p :
  AllocatePort d = (p, None) -> hasName (Name m) (rows d) = false ->
  CreateMachine d now m =
    (setID (setPort m p) (lastID d + 1), None,
     mkDB (rows d ++ [mkMachine (lastID d + 1) (Name m) (Owner m) p
                                (LocalUser m) (PublicKey m) now None])
          (lastID d + 1)).
Proof.
  intros Hp Hn. unfold CreateMachine. rewrite Hp.
  unfold sql_insert. simpl. rewrite Hn.
  assert (Hport : hasPort p (rows d) = false).
  { apply AllocatePort_ok in Hp as (_ & Hfree & _).
    destruct (hasPort p (rows d)) eqn:E; [|reflexivity].
    exfalso. apply Hfree, portUsed_In, hasPort_In, E. }
  rewrite Hport. reflexivity.
Qed.

(** A failed [CreateMachine] leaves the table as it was. *)
Lemma CreateMachine_error d now m m' e d' :
  CreateMachine d now m = (m', Some e, d') -> d' = d.
Proof.
  unfold CreateMachine. destruct (AllocatePort d) as [p [err|]].
  - intros [= _ _ <-]. reflexivity.
  - destruct (sql_insert _ _ _ _ _ _ _) as [err|[d1 id]].
    + intros [= _ _ <-]. reflexivity.
    + discriminate.
Qed.

Lemma CreateMachine_duplicate d now m :
  hasName (Name m) (rows d) = true ->
  exists m' e, CreateMachine d now m = (m', Some e, d).
Proof.
  intros Hn. unfold CreateMachine. destruct (AllocatePort d) as [p [err|]].
  - eauto.
  - unfold sql_insert. simpl. rewrite Hn. eauto.
Qed.

Lemma CreateMachine_Inv d now m : Inv d -> Inv (snd (CreateMachine d now m)).
Proof.
  intros HI.
  destruct (CreateMachine d now m) as [[m' [e|]] d'] eqn:E.
  - apply CreateMachine_error in E. subst d'. exact HI.
  - simpl. unfold CreateMachine in E.
    destruct (AllocatePort d) as [p [err|]] eqn:Hp; [discriminate|].
    unfold sql_insert in E. simpl in E.
    destruct (hasName (Name m) (rows d)) eqn:Hn; [discriminate|].
    destruct (hasPort p (rows d)) eqn:Hpt; [discriminate|].
    injection E as _ <-.
    apply AllocatePort_ok in Hp as (Hpool & _ & _).
    destruct HI as [Hnames Hports Hin _].
    apply Inv_intro; simpl.
    + rewrite map_app. apply NoDup_app. split; [exact Hnames|]. split.
      * intros x Hx Hk. apply list_elem_of_In in Hk. simpl in Hk.
        destruct Hk as [<-|[]].
        apply list_elem_of_In, hasName_In in Hx. congruence.
      * apply NoDup_singleton.
    + rewrite map_app. apply NoDup_app. split; [exact Hports|]. split.
      * intros x Hx Hk. apply list_elem_of_In in Hk. simpl in Hk.
        destruct Hk as [<-|[]].
        apply list_elem_of_In, hasPort_In in Hx. congruence.
      * apply NoDup_singleton.
    + apply Forall_app. split; [exact Hin|]. constructor; [exact Hpool|constructor].
Qed.

(** ** DeleteMachine *)

Lemma DeleteMachine_rows d name :
  rows (snd (DeleteMachine d name)) =
  List.filter (fun r => negb (bool_decide (Name r = name))) (rows d).
Proof.
  unfold DeleteMachine, sql_delete. destruct (_ =? 0)%Z; reflexivity.
Qed.

Lemma DeleteMachine_Inv d name : Inv d -> Inv (snd (DeleteMachine d name)).
Proof.
  intros [Hnames Hports Hin _]. apply Inv_intro; rewrite DeleteMachine_rows.
  - apply NoDup_map_filter, Hnames.
  - apply NoDup_map_filter, Hports.
  - rewrite Forall_forall in *. intros x Hx. apply Hin.
    apply list_elem_of_In. apply list_elem_of_In in Hx.
    apply filter_In in Hx. tauto.
Qed.

(** ** GetMachine *)

Lemma GetMachine_Some d n m :
  GetMachine d n = Some m -> In m (rows d) /\ Name m = n.
Proof.
  unfold GetMachine, sql_select_by_name. intros H.
  apply find_some in H as [Hin Hn]. apply bool_decide_eq_true in Hn. tauto.
Qed.

Lemma GetMachine_None d n :
  GetMachine d n = None <-> hasName n (rows d) = false.
Proof.
  unfold GetMachine, sql_select_by_name, hasName.
  induction (rows d) as [|a l IH]; simpl; [tauto|].
  destruct (bool_decide (Name a = n)); simpl; [split; discriminate | exact IH].
Qed.

Lemma GetMachine_unique d m :
  NoDup (map Name (rows d)) -> In m (rows d) -> GetMachine d (Name m) = Some m.
Proof.
  intros Hnd Hin. destruct (GetMachine d (Name m)) as [m'|] eqn:E.
  - apply GetMachine_Some in E as [Hin' Hn].
    f_equal. eapply NoDup_map_inj; eauto.
  - apply GetMachine_None, hasName_false in E. exfalso. apply E, in_map, Hin.
Qed.

(** ** RenameMachine *)

Lemma renameRow_absent oldName newName l :
  ~ In oldName (map Name l) -> map (renameRow oldName newName) l = l.
Proof.
  induction l as [|a l IH]; simpl; intros H; [reflexivity|].
  unfold renameRow at 1. case_bool_decide as Ha; [exfalso; apply H; auto|].
  f_equal. apply IH. tauto.
Qed.

Lemma renameRow_same n l : map (renameRow n n) l = l.
Proof.
  induction l as [|a l IH]; simpl; [reflexivity|]. rewrite IH. f_equal.
  unfold renameRow. case_bool_decide as Ha; [|reflexivity].
  destruct a; simpl in *; subst; reflexivity.
Qed.

Lemma renameRow_ports oldName newName l :
  map Port (map (renameRow oldName newName) l) = map Port l.
Proof.
  rewrite map_map. apply map_ext. intros r. unfold renameRow.
  case_bool_decide; reflexivity.
Qed.

Lemma renameRow_names oldName newName l :
  map Name (map (renameRow oldName newName) l) =
  map (fun n => if bool_decide (n = oldName) then newName else n) (map Name l).
Proof.
  rewrite !map_map. apply map_ext. intros r. unfold renameRow.
  case_bool_decide; reflexivity.
Qed.

Lemma DB_eta d : mkDB (rows d) (lastID d) = d.
Proof. destruct d; reflexivity. Qed.

(** The outcomes of the UPDATE of [RenameMachine]. *)
Lemma RenameMachine_not_found d oldName newName :
  hasName oldName (rows d) = false ->
  RenameMachine d oldName newName = (Some (ErrNotFound oldName), d).
Proof.
  intros H. apply hasName_false in H.
  unfold RenameMachine, sql_update_name.
  rewrite (proj2 (countName_0 _ _) H). simpl.
  rewrite renameRow_absent by exact H. rewrite DB_eta. reflexivity.
Qed.

Lemma RenameMachine_conflict d oldName newName :
  hasName oldName (rows d) = true -> hasName newName (rows d) = true ->
  newName <> oldName ->
  RenameMachine d oldName newName = (Some (ErrRename (ErrUnique ColName)), d).
Proof.
  intros Ho Hn Hne. unfold RenameMachine, sql_update_name.
  destruct (countName oldName (rows d)) as [|k] eqn:E.
  - apply countName_0 in E. apply hasName_In in Ho. tauto.
  - rewrite Hn. rewrite bool_decide_eq_false_2 by exact Hne. reflexivity.
Qed.

Lemma RenameMachine_ok d oldName newName :
  NoDup (map Name (rows d)) ->
  hasName oldName (rows d) = true -> hasName newName (rows d) = false ->
  RenameMachine d oldName newName =
    (None, mkDB (map (renameRow oldName newName) (rows d)) (lastID d)).
Proof.
  intros Hnd Ho Hn. unfold RenameMachine, sql_update_name.
  pose proof (countName_NoDup oldName _ Hnd) as Hle.
  destruct (countName oldName (rows d)) as [|[|k]] eqn:E; [|clear Hle|lia].
  - apply countName_0 in E. apply hasName_In in Ho. tauto.
  - rewrite Hn. simpl. rewrite andb_false_r. reflexivity.
Qed.

Lemma RenameMachine_self d n :
  hasName n (rows d) = true -> RenameMachine d n n = (None, d).
Proof.
  intros Ho. unfold RenameMachine, sql_update_name.
  rewrite bool_decide_eq_true_2 by reflexivity. simpl. rewrite andb_false_r.
  rewrite renameRow_same, DB_eta.
  destruct (countName n (rows d)) eqn:E; [|reflexivity].
  apply countName_0 in E. apply hasName_In in Ho. tauto.
Qed.

Lemma RenameMachine_Inv d oldName newName :
  Inv d -> Inv (snd (RenameMachine d oldName newName)).
Proof.
  intros HI.
  destruct (hasName oldName (rows d)) eqn:Ho;
    [|rewrite RenameMachine_not_found by exact Ho; exact HI].
  destruct (decide (newName = oldName)) as [->|Hne];
    [rewrite RenameMachine_self by exact Ho; exact HI|].
  destruct (hasName newName (rows d)) eqn:Hn;
    [rewrite RenameMachine_conflict by assumption; exact HI|].
  destruct HI as [Hnames Hports Hin _].
  rewrite RenameMachine_ok by assumption. apply Inv_intro; simpl.
  - rewrite renameRow_names. apply NoDup_map_inj_on; [exact Hnames|].
    apply hasName_false in Hn. intros x y Hx Hy.
    repeat case_bool_decide; congruence.
  - rewrite renameRow_ports. exact Hports.
  - rewrite Forall_forall in *. intros x Hx.
    apply list_elem_of_In, in_map_iff in Hx as (r & <- & Hr).
    apply list_elem_of_In, Hin in Hr. unfold renameRow.
    case_bool_decide; exact Hr.
Qed.

(** ** UpdateLastSeen *)

Lemma UpdateLastSeen_rows d now name :
  rows (snd (UpdateLastSeen d now name)) = map (touchRow now name) (rows d).
Proof.
  unfold UpdateLastSeen, sql_update_last_seen. destruct (_ =? 0)%Z; reflexivity.
Qed.

Lemma UpdateLastSeen_Inv d now name :
  Inv d -> Inv (snd (UpdateLastSeen d now name)).
Proof.
  intros [Hnames Hports Hin _]. apply Inv_intro; rewrite UpdateLastSeen_rows.
  - replace (map Name (map (touchRow now name) (rows d))) with (map Name (rows d));
      [exact Hnames|].
    rewrite map_map. apply map_ext. intros r. unfold touchRow.
    case_bool_decide; reflexivity.
  - replace (map Port (map (touchRow now name) (rows d))) with (map Port (rows d));
      [exact Hports|].
    rewrite map_map. apply map_ext. intros r. unfold touchRow.
    case_bool_decide; reflexivity.
  - rewrite Forall_forall in *. intros x Hx.
    apply list_elem_of_In, in_map_iff in Hx as (r & <- & Hr).
    apply list_elem_of_In, Hin in Hr. unfold touchRow.
    case_bool_decide; exact Hr.
Qed.

(** ** The invariant of the registry *)

Lemma Inv_Open : Inv Open.
Proof. apply Inv_intro; simpl; constructor. Qed.

Lemma apply_Inv d o : Inv d -> Inv (apply d o).
Proof.
  destruct o; simpl.
  - apply CreateMachine_Inv.
  - apply RenameMachine_Inv.
  - apply DeleteMachine_Inv.
  - apply UpdateLastSeen_Inv.
Qed.

Lemma reachable_Inv d : reachable d -> Inv d.
Proof.
  induction 1 as [|d o _ IH]; [apply Inv_Open | apply apply_Inv, IH].
Qed.

(** ** GetMachine after RenameMachine *)

Lemma renameRow_hit oldName newName r :
  Name r = oldName -> renameRow oldName newName r = setName r newName.
Proof. intros H. unfold renameRow. rewrite bool_decide_eq_true_2; auto. Qed.

Lemma renameRow_miss oldName newName r :
  Name r <> oldName -> renameRow oldName newName r = r.
Proof. intros H. unfold renameRow. rewrite bool_decide_eq_false_2; auto. Qed.

Lemma find_rename_old oldName newName l :
  oldName <> newName ->
  find (fun r => bool_decide (Name r = oldName)) (map (renameRow oldName newName) l)
  = None.
Proof.
  intros Hne. induction l as [|a l IH]; simpl; [reflexivity|].
  destruct (decide (Name a = oldName)) as [Ha|Ha].
  - rewrite renameRow_hit by exact Ha. simpl.
    rewrite bool_decide_eq_false_2 by congruence. exact IH.
  - rewrite renameRow_miss by exact Ha.
    rewrite bool_decide_eq_false_2 by exact Ha. exact IH.
Qed.

Lemma find_rename_new oldName newName l :
  oldName <> newName -> ~ In newName (map Name l) ->
  find (fun r => bool_decide (Name r = newName)) (map (renameRow oldName newName) l)
  = option_map (fun r => setName r newName)
               (find (fun r => bool_decide (Name r = oldName)) l).
Proof.
  intros Hne. induction l as [|a l IH]; simpl; intros Hn; [reflexivity|].
  destruct (decide (Name a = oldName)) as [Ha|Ha].
  - rewrite renameRow_hit by exact Ha. simpl.
    rewrite bool_decide_eq_true_2 by reflexivity.
    rewrite bool_decide_eq_true_2 by exact Ha. reflexivity.
  - rewrite renameRow_miss by exact Ha.
    rewrite bool_decide_eq_false_2 by tauto.
    rewrite bool_decide_eq_false_2 by exact Ha. apply IH. tauto.
Qed.

Lemma find_rename_other oldName newName n l :
  n <> oldName -> n <> newName ->
  find (fun r => bool_decide (Name r = n)) (map (renameRow oldName newName) l)
  = find (fun r => bool_decide (Name r = n)) l.
Proof.
  intros H1 H2. induction l as [|a l IH]; simpl; [reflexivity|].
  destruct (decide (Name a = oldName)) as [Ha|Ha].
  - rewrite renameRow_hit by exact Ha. simpl.
    rewrite bool_decide_eq_false_2 by congruence.
    rewrite bool_decide_eq_false_2 by congruence. exact IH.
  - rewrite renameRow_miss by exact Ha. rewrite IH. reflexivity.
Qed.

Lemma find_appended n l r :
  hasName n l = false -> Name r = n ->
  find (fun x => bool_decide (Name x = n)) (l ++ [r]) = Some r.
Proof.
  unfold hasName. intros Hl Hr. induction l as [|a l IH]; simpl in *.
  - rewrite bool_decide_eq_true_2 by exact Hr. reflexivity.
  - apply orb_false_iff in Hl as [Ha Hl]. rewrite Ha. apply IH, Hl.
Qed.

(** ** The claims about the store *)

(** C1, as amended.  Port allocation follows the lowest-free policy.  For
    every table: if some port of the pool [PortMin..PortMax] is held by no
    machine, [AllocatePort] returns, without an error, the smallest such
    port; it fails, with the exhaustion error, exactly when every port of
    the pool is held.  Reuse: when a machine is deleted whose port [p] has
    no free pool port below it (the machine holding [PortMin]; or any
    machine of a full pool), the next [CreateMachine] under a name not in
    the table receives exactly [p].  On a full pool [CreateMachine] fails
    with the exhaustion error and leaves the table as it was. *)
Theorem AllocatePort_lowest_free_policy (d : DB) :
  ((exists p, inPool p /\ ~ portUsed d p) ->
   exists p, AllocatePort d = (p, None) /\ inPool p /\ ~ portUsed d p /\
             forall q, inPool q -> ~ portUsed d q -> (p <= q)%Z)
  /\ (AllocatePort d = (0%Z, Some (ErrNoPorts (PortMax - PortMin + 1)))
      <-> forall p, inPool p -> portUsed d p)
  /\ (snd (AllocatePort d) <> None <-> forall p, inPool p -> portUsed d p)
  /\ (forall m now m',
        Inv d -> In m (rows d) ->
        (forall q, (PortMin <= q < Port m)%Z -> portUsed d q) ->
        GetMachine (snd (DeleteMachine d (Name m))) (Name m') = None ->
        exists m'' d',
          CreateMachine (snd (DeleteMachine d (Name m))) now m' = (m'', None, d')
          /\ Port m'' = Port m
          /\ exists r, GetMachine d' (Name m') = Some r /\ Port r = Port m)
  /\ ((forall p, inPool p -> portUsed d p) ->
      forall now m',
        CreateMachine d now m'
        = (m', Some (ErrNoPorts (PortMax - PortMin + 1)), d)).
Proof.
  split; [|split; [|split; [|split]]]; cycle 4.
  { intros Hfull now m'. apply AllocatePort_exhausted in Hfull.
    unfold CreateMachine. rewrite Hfull. reflexivity. }
  - intros (p0 & Hp0 & Hfree0).
    destruct (AllocatePort_cases d) as [[p Hp]|Hex].
    + exists p. split; [exact Hp|].
      apply AllocatePort_ok in Hp as (Hpool & Hfree & Hlow).
      split; [exact Hpool|]. split; [exact Hfree|].
      intros q Hq Hqfree. destruct (Z_lt_le_dec q p) as [Hlt|Hle]; [|exact Hle].
      exfalso. apply Hqfree, Hlow. unfold inPool in Hq. lia.
    + exfalso. apply Hfree0. eapply AllocatePort_exhausted; eassumption.
  - apply AllocatePort_exhausted.
  - destruct (AllocatePort_cases d) as [[p Hp]|Hex].
    + rewrite Hp. simpl. split; [congruence|]. intros H. exfalso.
      apply AllocatePort_ok in Hp as (Hpool & Hfree & _). apply Hfree, H, Hpool.
    + rewrite Hex. simpl. split; [|congruence]. intros _.
      apply AllocatePort_exhausted, Hex.
  - intros m now m' HI Hin Hlow Hfresh.
    set (d1 := snd (DeleteMachine d (Name m))) in *.
    assert (Hrows : rows d1 =
              List.filter (fun r => negb (bool_decide (Name r = Name m))) (rows d))
      by apply DeleteMachine_rows.
    destruct HI as [Hnames Hports Hpool _].
    assert (Halloc : AllocatePort d1 = (Port m, None)).
    { apply AllocatePort_ok. split; [|split].
      - rewrite Forall_forall in Hpool. apply Hpool, list_elem_of_In, Hin.
      - intros (r & Hr & Hrp). rewrite Hrows in Hr.
        apply filter_In in Hr as [Hr Hname].
        apply negb_true_iff, bool_decide_eq_false in Hname.
        apply Hname. f_equal.
        exact (NoDup_map_inj Port (rows d) r m Hports Hr Hin Hrp).
      - intros q Hq. destruct (Hlow q Hq) as (r & Hr & Hrp).
        exists r. split; [|exact Hrp]. rewrite Hrows. apply filter_In.
        split; [exact Hr|]. apply negb_true_iff, bool_decide_eq_false.
        intros Hname.
        assert (r = m) by exact (NoDup_map_inj Name (rows d) r m Hnames Hr Hin Hname).
        subst r. lia. }
    apply GetMachine_None in Hfresh.
    rewrite (CreateMachine_ok d1 now m' (Port m) Halloc Hfresh).
    eexists _, _. split; [reflexivity|]. split; [reflexivity|].
    eexists. split.
    + unfold GetMachine, sql_select_by_name. simpl.
      apply find_appended; [exact Hfresh | reflexivity].
    + reflexivity.
Qed.

(** TestPortReuse: in the table of [m1] and [m2], deleting [m1], which
    holds [PortMin], gives the next machine [PortMin] back. *)
Lemma AllocatePort_lowest_free_policy_witness :
  exists m'' d',
    CreateMachine (snd (DeleteMachine fixtures.two (Name fixtures.row1))) 3
                  (fixtures.machine "m3" "c" "key3") = (m'', None, d')
    /\ Port m'' = Port fixtures.row1
    /\ exists r, GetMachine d' (Name (fixtures.machine "m3" "c" "key3")) = Some r
                 /\ Port r = Port fixtures.row1.
Proof.
  apply (proj1 (proj2 (proj2 (proj2 (AllocatePort_lowest_free_policy fixtures.two))))
           fixtures.row1 3%Z (fixtures.machine "m3" "c" "key3")).
  - apply reachable_Inv. unfold fixtures.two. repeat constructor.
  - vm_compute. left. reflexivity.
  - intros q Hq. unfold PortMin, fixtures.row1 in Hq. simpl in Hq. lia.
  - vm_compute. reflexivity.
Defined.

(** C1 as stated fails in its reuse clause: the machine holding the lowest
    port gets its port back only if no lower pool port is free.  In the
    table that is left when [m1] was deleted, [m2] is the only machine and
    holds the lowest port in use, 10023; after deleting [m2] the next
    machine receives [PortMin] = 10022, the lowest free port, not 10023. *)
Lemma reuse_of_lowest_held_port_fails :
  GetMachine fixtures.onlySecond (str "m2") = Some fixtures.row2
  /\ (forall m, In m (rows fixtures.onlySecond) ->
        (Port fixtures.row2 <= Port m)%Z)
  /\ exists m' d',
       CreateMachine (snd (DeleteMachine fixtures.onlySecond (str "m2"))) 3
                     (fixtures.machine "m3" "c" "key3") = (m', None, d')
       /\ Port m' = 10022%Z /\ Port m' <> Port fixtures.row2.
Proof.
  split; [vm_compute; reflexivity|]. split.
  - intros m Hm. vm_compute in Hm. destruct Hm as [<-|[]]. simpl. lia.
  - eexists _, _. split; [vm_compute; reflexivity|].
    split; [reflexivity|]. simpl. discriminate.
Qed.

(** C2.  The invariant of the data model holds after every operation on
    every reachable table: after create, rename, delete or heartbeat the
    names are pairwise distinct, the ports are pairwise distinct, every
    port lies in the pool, and the rows of each machine's name carry
    exactly one port. *)
Theorem registry_invariant_preserved (d : DB) (o : op) :
  reachable d ->
  NoDup (map Name (rows (apply d o)))
  /\ NoDup (map Port (rows (apply d o)))
  /\ (forall m, In m (rows (apply d o)) -> (PortMin <= Port m <= PortMax)%Z)
  /\ (forall m, In m (rows (apply d o)) ->
        exists p, portsOf (apply d o) (Name m) = [p]).
Proof.
  intros Hr. apply reachable_Inv in Hr.
  destruct (apply_Inv d o Hr) as [Hn Hp Hpool Hone].
  split; [exact Hn|]. split; [exact Hp|]. split; [|exact Hone].
  intros m Hm. rewrite Forall_forall in Hpool.
  apply (Hpool m), list_elem_of_In, Hm.
Qed.

Lemma registry_invariant_preserved_witness :
  NoDup (map Name (rows (apply fixtures.two (Rename (str "m1") (str "m3")))))
  /\ NoDup (map Port (rows (apply fixtures.two (Rename (str "m1") (str "m3")))))
  /\ (forall m, In m (rows (apply fixtures.two (Rename (str "m1") (str "m3")))) ->
        (PortMin <= Port m <= PortMax)%Z)
  /\ (forall m, In m (rows (apply fixtures.two (Rename (str "m1") (str "m3")))) ->
        exists p, portsOf (apply fixtures.two (Rename (str "m1") (str "m3")))
                          (Name m) = [p]).
Proof.
  apply (registry_invariant_preserved fixtures.two (Rename (str "m1") (str "m3"))).
  unfold fixtures.two. repeat constructor.
Defined.

(** C7.  Rename is atomic and preserves the rest of the record.  In a
    table that satisfies the invariant and holds a machine named
    [oldName]: if no machine is named [newName], the rename succeeds,
    afterwards [GetMachine oldName] is absent and [GetMachine newName]
    returns the record with its id, owner, port, local_user, public_key,
    created_at and last_seen unchanged, and every other name reads as
    before; if a machine is named [newName] already, the table, hence
    either record, is exactly as before, and the rename of the one machine
    to the name of the other fails with the uniqueness error. *)
Theorem RenameMachine_atomic (d : DB) (oldName newName : gostring) (m : Machine) :
  Inv d -> GetMachine d oldName = Some m ->
  (GetMachine d newName = None ->
     exists d',
       RenameMachine d oldName newName = (None, d')
       /\ GetMachine d' oldName = None
       /\ (exists m', GetMachine d' newName = Some m'
             /\ Name m' = newName /\ ID m' = ID m /\ Owner m' = Owner m
             /\ Port m' = Port m /\ LocalUser m' = LocalUser m
             /\ PublicKey m' = PublicKey m /\ CreatedAt m' = CreatedAt m
             /\ LastSeen m' = LastSeen m)
       /\ (forall n, n <> oldName -> n <> newName ->
             GetMachine d' n = GetMachine d n))
  /\ (forall other, GetMachine d newName = Some other ->
        snd (RenameMachine d oldName newName) = d
        /\ GetMachine (snd (RenameMachine d oldName newName)) oldName = Some m
        /\ GetMachine (snd (RenameMachine d oldName newName)) newName = Some other
        /\ (newName <> oldName ->
            fst (RenameMachine d oldName newName)
            = Some (ErrRename (ErrUnique ColName)))).
Proof.
  intros HI Hold.
  assert (Ho : hasName oldName (rows d) = true).
  { apply GetMachine_Some in Hold as [Hin <-]. apply hasName_In, in_map, Hin. }
  split.
  - intros Hnew. apply GetMachine_None in Hnew.
    assert (Hne : oldName <> newName) by congruence.
    destruct HI as [Hnames _ _ _].
    rewrite (RenameMachine_ok d oldName newName Hnames Ho Hnew).
    eexists. split; [reflexivity|].
    unfold GetMachine, sql_select_by_name in *. simpl.
    split; [apply find_rename_old, Hne|]. split.
    + exists (setName m newName).
      rewrite find_rename_new; [|exact Hne|apply hasName_false, Hnew].
      rewrite Hold. simpl. repeat split; reflexivity.
    + intros n H1 H2. apply find_rename_other; assumption.
  - intros other Hother.
    assert (Hn : hasName newName (rows d) = true).
    { destruct (hasName newName (rows d)) eqn:E; [reflexivity|].
      apply GetMachine_None in E. congruence. }
    destruct (decide (newName = oldName)) as [->|Hne].
    + rewrite (RenameMachine_self d oldName Ho). simpl.
      split; [reflexivity|]. split; [exact Hold|]. split; [exact Hother|].
      intros Hne. congruence.
    + rewrite (RenameMachine_conflict d oldName newName Ho Hn Hne). simpl.
      split; [reflexivity|]. split; [exact Hold|]. split; [exact Hother|].
      intros _. reflexivity.
Qed.

(** TestRenameMachine and TestRenameMachineDuplicate, on the table of [m1]
    and [m2]. *)
Lemma RenameMachine_atomic_witness :
  (exists d',
     RenameMachine fixtures.two (str "m1") (str "m3") = (None, d')
     /\ GetMachine d' (str "m1") = None
     /\ (exists m', GetMachine d' (str "m3") = Some m'
           /\ Name m' = str "m3" /\ ID m' = ID fixtures.row1
           /\ Owner m' = Owner fixtures.row1
           /\ Port m' = Port fixtures.row1
           /\ LocalUser m' = LocalUser fixtures.row1
           /\ PublicKey m' = PublicKey fixtures.row1
           /\ CreatedAt m' = CreatedAt fixtures.row1
           /\ LastSeen m' = LastSeen fixtures.row1)
     /\ (forall n, n <> str "m1" -> n <> str "m3" ->
           GetMachine d' n = GetMachine fixtures.two n))
  /\ (snd (RenameMachine fixtures.two (str "m1") (str "m2")) = fixtures.two
      /\ GetMachine (snd (RenameMachine fixtures.two (str "m1") (str "m2")))
                    (str "m1") = Some fixtures.row1
      /\ GetMachine (snd (RenameMachine fixtures.two (str "m1") (str "m2")))
                    (str "m2") = Some fixtures.row2
      /\ fst (RenameMachine fixtures.two (str "m1") (str "m2"))
         = Some (ErrRename (ErrUnique ColName))).
Proof.
  assert (HI : Inv fixtures.two)
    by (apply reachable_Inv; unfold fixtures.two; repeat constructor).
  assert (H1 : GetMachine fixtures.two (str "m1") = Some fixtures.row1)
    by (vm_compute; reflexivity).
  split.
  - apply (proj1 (RenameMachine_atomic fixtures.two (str "m1") (str "m3")
                    fixtures.row1 HI H1)).
    vm_compute. reflexivity.
  - destruct (proj2 (RenameMachine_atomic fixtures.two (str "m1") (str "m2")
                       fixtures.row1 HI H1) fixtures.row2)
      as (Hsame & Hold & Hnew & Herr).
    + vm_compute. reflexivity.
    + split; [exact Hsame|]. split; [exact Hold|]. split; [exact Hnew|].
      apply Herr. vm_compute. discriminate.
Defined.

(** ** TrimSpace, Contains and Fields *)

Import strings keyspec.

Lemma blank_app s t : blank (s ++ t) <-> blank s /\ blank t.
Proof. apply Forall_app. Qed.

Lemma TrimLeftSpace_blank ws s : blank ws -> TrimLeftSpace (ws ++ s) = TrimLeftSpace s.
Proof.
  induction 1 as [|r ws Hr _ IH]; simpl; [reflexivity|]. rewrite Hr. exact IH.
Qed.

Lemma TrimLeftSpace_solid_head r s : IsSpace r = false -> TrimLeftSpace (r :: s) = r :: s.
Proof. intros H. simpl. rewrite H. reflexivity. Qed.

(** [TrimLeftSpace] removes a blank prefix, and what is left does not
    start with white space. *)
Lemma TrimLeftSpace_spec s :
  exists ws, s = ws ++ TrimLeftSpace s /\ blank ws /\
             forall r, head (TrimLeftSpace s) = Some r -> IsSpace r = false.
Proof.
  induction s as [|a s (ws & Hs & Hws & Hhd)]; simpl.
  - exists []. split; [reflexivity|]. split; [constructor|]. discriminate.
  - destruct (IsSpace a) eqn:Ha.
    + exists (a :: ws). split; [simpl; congruence|].
      split; [constructor; assumption | exact Hhd].
    + exists []. split; [reflexivity|]. split; [constructor|].
      simpl. intros r [= <-]. exact Ha.
Qed.

Lemma head_rev {A} (l : list A) : head (rev l) = last l.
Proof. rewrite rev_alt. apply head_reverse. Qed.

Lemma TrimRightSpace_spec s :
  exists ws, s = TrimRightSpace s ++ ws /\ blank ws /\
             forall r, last (TrimRightSpace s) = Some r -> IsSpace r = false.
Proof.
  unfold TrimRightSpace.
  destruct (TrimLeftSpace_spec (rev s)) as (ws & Hs & Hws & Hhd).
  exists (rev ws). split; [|split].
  - rewrite <- rev_app_distr, <- Hs, rev_involutive. reflexivity.
  - apply Forall_rev, Hws.
  - intros r Hr. apply Hhd. rewrite <- Hr.
    rewrite <- (rev_involutive (TrimLeftSpace (rev s))) at 1.
    apply head_rev.
Qed.

Lemma TrimRightSpace_blank s ws : blank ws -> TrimRightSpace (s ++ ws) = TrimRightSpace s.
Proof.
  intros H. unfold TrimRightSpace. rewrite rev_app_distr.
  rewrite TrimLeftSpace_blank; [reflexivity|]. apply Forall_rev, H.
Qed.

Lemma TrimRightSpace_solid_last s r :
  IsSpace r = false -> TrimRightSpace (s ++ [r]) = s ++ [r].
Proof.
  intros H. unfold TrimRightSpace. rewrite rev_app_distr. simpl.
  rewrite H. simpl. rewrite rev_involutive. reflexivity.
Qed.

(** Trimming on the right keeps what trimming on the left established. *)
Lemma TrimRightSpace_head s r :
  head s = Some r -> IsSpace r = false -> head (TrimRightSpace s) = Some r.
Proof.
  intros Hs Hr. destruct s as [|a s]; [discriminate|]. injection Hs as ->.
  destruct (TrimRightSpace_spec (r :: s)) as (ws & Heq & Hws & _).
  destruct (TrimRightSpace (r :: s)) as [|b t] eqn:E.
  - simpl in Heq. subst ws. apply Forall_cons in Hws as [Hb _]. congruence.
  - simpl in Heq. injection Heq as -> _. reflexivity.
Qed.

(** [TrimSpace] computes the trimmed form. *)
Lemma TrimSpace_trimmedTo key : trimmedTo key (TrimSpace key).
Proof.
  unfold TrimSpace.
  destruct (TrimLeftSpace_spec key) as (pre & Hkey & Hpre & Hhd).
  destruct (TrimRightSpace_spec (TrimLeftSpace key)) as (post & Hmid & Hpost & Hlast).
  exists pre, post. split; [|split; [exact Hpre|split; [exact Hpost|split]]].
  - rewrite <- Hmid. exact Hkey.
  - intros r Hr. apply Hhd.
    destruct (TrimLeftSpace key) as [|a s] eqn:E; [discriminate Hr|].
    simpl. f_equal.
    destruct (IsSpace a) eqn:Ha.
    + specialize (Hhd a eq_refl). congruence.
    + pose proof (TrimRightSpace_head (a :: s) a eq_refl Ha) as H.
      rewrite Hr in H. congruence.
  - exact Hlast.
Qed.

(** The trimmed form is unique. *)
Lemma trimmedTo_TrimSpace key core : trimmedTo key core -> core = TrimSpace key.
Proof.
  intros (pre & post & -> & Hpre & Hpost & Hhd & Hlast).
  unfold TrimSpace. rewrite TrimLeftSpace_blank by exact Hpre.
  destruct core as [|a s].
  - simpl. assert (H : TrimLeftSpace post = []).
    { clear -Hpost. induction Hpost as [|r ws Hr _ IH]; simpl; [reflexivity|].
      rewrite Hr. exact IH. }
    rewrite H. reflexivity.
  - simpl app at 1. rewrite TrimLeftSpace_solid_head by (apply Hhd; reflexivity).
    change (a :: s ++ post) with ((a :: s) ++ post).
    rewrite TrimRightSpace_blank by exact Hpost.
    destruct (exists_last (l := a :: s)) as (t & b & E); [discriminate|].
    rewrite E. symmetry. apply TrimRightSpace_solid_last.
    apply Hlast. rewrite E. apply last_snoc.
Qed.

Lemma HasPrefix_rune s r : HasPrefix s [r] = bool_decide (head s = Some r).
Proof.
  destruct s as [|a s]; simpl; [reflexivity|].
  rewrite andb_true_r. destruct (N.eqb_spec r a) as [->|Hne].
  - rewrite bool_decide_eq_true_2; reflexivity.
  - rewrite bool_decide_eq_false_2; [reflexivity|]. congruence.
Qed.

(** [strings.Contains] with a pattern of one rune is membership. *)
Lemma Contains_rune s r : Contains s [r] = true <-> In r s.
Proof.
  induction s as [|a s IH].
  - simpl. split; [discriminate | tauto].
  - change (Contains (a :: s) [r]) with (HasPrefix (a :: s) [r] || Contains s [r]).
    rewrite HasPrefix_rune, orb_true_iff, IH, bool_decide_eq_true. simpl.
    split; intros [H|H]; auto; left; congruence.
Qed.

Lemma hasInk_cons a s : hasInk (a :: s) <-> IsSpace a = false \/ hasInk s.
Proof.
  unfold hasInk. split.
  - intros (r & [->|Hin] & Hr); [left; exact Hr | right; eauto].
  - intros [Ha|(r & Hin & Hr)]; [exists a | exists r]; simpl; auto.
Qed.

Lemma hasInk_rev s : hasInk s -> hasInk (rev s).
Proof. intros (r & Hin & Hr). exists r. split; [apply in_rev in Hin|]; auto. Qed.

Lemma TrimLeftSpace_ink l x : hasInk l -> TrimLeftSpace (l ++ x) = TrimLeftSpace l ++ x.
Proof.
  induction l as [|a l IH]; intros H.
  - destruct H as (r & [] & _).
  - simpl. destruct (IsSpace a) eqn:Ha; [|reflexivity].
    apply IH. apply hasInk_cons in H as [H|H]; [congruence | exact H].
Qed.

Lemma TrimRightSpace_ink x l : hasInk l -> TrimRightSpace (x ++ l) = x ++ TrimRightSpace l.
Proof.
  intros H. unfold TrimRightSpace. rewrite rev_app_distr.
  rewrite TrimLeftSpace_ink by (apply hasInk_rev, H).
  rewrite rev_app_distr, rev_involutive. reflexivity.
Qed.

(** A key of two lines keeps its newline when it is trimmed. *)
Lemma twoLines_TrimSpace key : twoLines key -> In NL (TrimSpace key).
Proof.
  intros (l1 & l2 & -> & H1 & H2). unfold TrimSpace.
  rewrite TrimLeftSpace_ink by exact H1.
  change (NL :: l2) with ([NL] ++ l2). rewrite app_assoc.
  rewrite TrimRightSpace_ink by exact H2.
  apply in_or_app. left. apply in_or_app. right. simpl. auto.
Qed.

(** *** Fields *)

Lemma fieldsFrom_blank ws : blank ws -> fieldsFrom [] ws = [].
Proof. induction 1 as [|r ws Hr _ IH]; simpl; [reflexivity|]. rewrite Hr. exact IH. Qed.

Lemma fieldsFrom_skip ws s : blank ws -> fieldsFrom [] (ws ++ s) = fieldsFrom [] s.
Proof. induction 1 as [|r ws Hr _ IH]; simpl; [reflexivity|]. rewrite Hr. exact IH. Qed.

Lemma fieldsFrom_solid acc f s :
  solid f -> fieldsFrom acc (f ++ s) = fieldsFrom (acc ++ f) s.
Proof.
  intros H. revert acc. induction H as [|r f Hr _ IH]; intros acc; simpl.
  - rewrite app_nil_r. reflexivity.
  - rewrite Hr, IH, <- app_assoc. reflexivity.
Qed.

Lemma fieldsFrom_end cur ws : blank ws -> fieldsFrom cur ws = fieldsFrom cur [].
Proof.
  intros H. destruct H as [|r ws Hr Hws]; [reflexivity|]. simpl. rewrite Hr.
  rewrite (fieldsFrom_blank ws Hws). destruct cur; reflexivity.
Qed.

Lemma fieldsFrom_trailing cur s ws :
  blank ws -> fieldsFrom cur (s ++ ws) = fieldsFrom cur s.
Proof.
  intros H. revert cur. induction s as [|a s IH]; intros cur.
  - apply fieldsFrom_end, H.
  - simpl. destruct (IsSpace a); [destruct cur|]; rewrite ?IH; reflexivity.
Qed.

(** Surrounding white space does not change the fields. *)
Lemma Fields_TrimSpace key : Fields (TrimSpace key) = Fields key.
Proof.
  destruct (TrimSpace_trimmedTo key) as (pre & post & Hkey & Hpre & Hpost & _).
  unfold Fields. rewrite Hkey at 2.
  rewrite fieldsFrom_skip by exact Hpre.
  rewrite fieldsFrom_trailing by exact Hpost. reflexivity.
Qed.

Lemma splitsInto_nil s : splitsInto s [] -> blank s.
Proof. inversion 1; assumption. Qed.

Lemma splitsInto_prefix ws s fs :
  blank ws -> splitsInto s fs -> splitsInto (ws ++ s) fs.
Proof.
  intros Hws H. destruct H as [w Hw | w f w' Hw Hf Hs Hw' | w f sp rest fs Hw Hf Hs Hsp Hrest Hfs].
  - constructor. apply blank_app. tauto.
  - rewrite app_assoc. constructor; try assumption. apply blank_app. tauto.
  - rewrite app_assoc. constructor; try assumption. apply blank_app. tauto.
Qed.

(** The relation determines the fields, and [Fields] computes them. *)
Lemma splitsInto_Fields s fs : splitsInto s fs -> Fields s = fs.
Proof.
  unfold Fields. induction 1 as [w Hw | w f w' Hw Hf Hs Hw' | w f sp rest fs Hw Hf Hs Hsp Hrest IH Hfs].
  - apply fieldsFrom_blank, Hw.
  - rewrite fieldsFrom_skip by exact Hw. rewrite fieldsFrom_solid by exact Hs.
    rewrite fieldsFrom_end by exact Hw'. simpl. destruct f; [congruence|reflexivity].
  - rewrite fieldsFrom_skip by exact Hw. rewrite fieldsFrom_solid by exact Hs.
    simpl. rewrite Hsp, IH. destruct f; [congruence|reflexivity].
Qed.

Lemma fieldsFrom_splitsInto s cur :
  solid cur -> splitsInto (cur ++ s) (fieldsFrom cur s).
Proof.
  revert cur. induction s as [|r s IH]; intros cur Hcur.
  - simpl. destruct cur as [|c cur].
    + apply splits_blank. constructor.
    + apply (splits_last [] (c :: cur) []); [constructor|discriminate|exact Hcur|constructor].
  - simpl. destruct (IsSpace r) eqn:Hr.
    + pose proof (IH [] ltac:(constructor)) as Hrest. simpl in Hrest.
      destruct cur as [|c cur].
      * apply (splitsInto_prefix [r]); [repeat constructor; exact Hr | exact Hrest].
      * destruct (fieldsFrom [] s) as [|g gs] eqn:E.
        -- apply (splits_last [] (c :: cur) (r :: s));
             [constructor|discriminate|exact Hcur|].
           constructor; [exact Hr | apply splitsInto_nil, Hrest].
        -- apply (splits_more [] (c :: cur) r s (g :: gs));
             [constructor|discriminate|exact Hcur|exact Hr|exact Hrest|discriminate].
    + replace (cur ++ r :: s) with ((cur ++ [r]) ++ s)
        by (rewrite <- app_assoc; reflexivity).
      apply IH. apply Forall_app. split; [exact Hcur|]. repeat constructor. exact Hr.
Qed.

Lemma Fields_splitsInto s : splitsInto s (Fields s).
Proof. apply (fieldsFrom_splitsInto s []). constructor. Qed.

(** *** The table of key types *)

Lemma validTypes_recognized t :
  default false (server.validTypes !! t) = true <-> In t recognizedTypes.
Proof.
  unfold server.validTypes, recognizedTypes. split.
  - destruct (list_to_map _ !! t) as [b|] eqn:E; simpl; [|discriminate].
    intros ->. apply elem_of_list_to_map_2 in E.
    apply list_elem_of_In in E. simpl in E.
    repeat (destruct E as [E|E]; [injection E as <-; simpl; tauto|]).
    destruct E.
  - intros H. simpl in H.
    repeat (destruct H as [<-|H]; [vm_compute; reflexivity|]). destruct H.
Qed.

(** ** validatePublicKey *)

Lemma splitsInto_single f : f <> [] -> solid f -> splitsInto f [f].
Proof.
  intros Hne Hsolid.
  pose proof (splits_last [] f [] ltac:(constructor) Hne Hsolid ltac:(constructor)) as H.
  simpl in H. rewrite app_nil_r in H. exact H.
Qed.

Lemma len_app a b : len (a ++ b) = (len a + len b)%Z.
Proof.
  induction a as [|x a IH]; [reflexivity|].
  change (len ((x :: a) ++ b)) with (RuneLen x + len (a ++ b))%Z.
  change (len (x :: a)) with (RuneLen x + len a)%Z. lia.
Qed.

Lemma last_app_ne {A} (l1 l2 : list A) : l2 <> [] -> last (l1 ++ l2) = last l2.
Proof.
  intros H. destruct (exists_last H) as (t & b & ->).
  rewrite app_assoc, !last_snoc. reflexivity.
Qed.

Lemma last_In {A} (l : list A) x : last l = Some x -> In x l.
Proof.
  destruct l as [|a l]; [discriminate|].
  destruct (@exists_last _ (a :: l)) as (t & b & ->); [discriminate|].
  rewrite last_snoc. intros [= <-]. apply in_or_app. right. simpl. auto.
Qed.

(** The branches of [validatePublicKey], on the trimmed key. *)
Lemma validatePublicKey_None key :
  server.validatePublicKey key = None <->
  ~ In NL (TrimSpace key) /\ (len (TrimSpace key) <= 2048)%Z /\
  exists algo field2 more,
    Fields (TrimSpace key) = algo :: field2 :: more /\ In algo recognizedTypes.
Proof.
  unfold server.validatePublicKey.
  destruct (Contains (TrimSpace key) [NL]) eqn:Hnl.
  { apply Contains_rune in Hnl. split; [discriminate | tauto]. }
  assert (Hnl' : ~ In NL (TrimSpace key)).
  { intros H. apply Contains_rune in H. congruence. }
  destruct (Z.ltb_spec 2048 (len (TrimSpace key))) as [Hlen|Hlen].
  { split; [discriminate|]. intros (_ & H & _). lia. }
  destruct (Fields (TrimSpace key)) as [|algo [|field2 more]] eqn:Hf; simpl.
  - split; [discriminate|]. intros (_ & _ & a & b & c & H & _). discriminate.
  - split; [discriminate|]. intros (_ & _ & a & b & c & H & _). discriminate.
  - pose proof (validTypes_recognized algo) as Hrec.
    match goal with |- context [negb ?b] => destruct b eqn:Hty end; simpl.
    + split; [|reflexivity]. intros _. split; [exact Hnl'|]. split; [exact Hlen|].
      exists algo, field2, more. split; [reflexivity|].
      apply Hrec. exact Hty.
    + split; [discriminate|]. intros (_ & _ & a & b & c & [= <- _ _] & Hin).
      exfalso. exact (eq_true_false_abs _ (proj2 Hrec Hin) Hty).
Qed.

(** C10.  [validatePublicKey] accepts exactly the keys that, after their
    surrounding white space is trimmed, contain no newline, are at most
    2048 bytes long, split into at least two white-space separated fields,
    and have as first field one of ssh-rsa, ssh-ed25519,
    ecdsa-sha2-nistp256, ecdsa-sha2-nistp384, ecdsa-sha2-nistp521 and
    ssh-dss.  In particular a DSA key (ssh-dss and a second field) is
    accepted, and a key that consists of a single field is rejected. *)
Theorem validatePublicKey_accepts_exactly (key : gostring) :
  (server.validatePublicKey key = None <-> acceptable key)
  /\ (forall blob, blob <> [] -> solid blob -> (len blob <= 2040)%Z -> ~ In NL blob ->
        server.validatePublicKey (str "ssh-dss " ++ blob) = None)
  /\ (forall field, Fields key = [field] -> server.validatePublicKey key <> None).
Proof.
  assert (Hiff : forall k, server.validatePublicKey k = None <-> acceptable k).
  { intros k. rewrite validatePublicKey_None. unfold acceptable. split.
    - intros (Hnl & Hlen & algo & field2 & more & Hf & Hin).
      exists (TrimSpace k). split; [apply TrimSpace_trimmedTo|].
      split; [exact Hnl|]. split; [exact Hlen|].
      exists algo, field2, more. split; [|exact Hin].
      rewrite <- Hf. apply Fields_splitsInto.
    - intros (core & Htrim & Hnl & Hlen & algo & field2 & more & Hsplit & Hin).
      apply trimmedTo_TrimSpace in Htrim. subst core.
      split; [exact Hnl|]. split; [exact Hlen|].
      exists algo, field2, more. split; [|exact Hin].
      apply splitsInto_Fields, Hsplit. }
  split; [apply Hiff|]. split.
  - intros blob Hne Hsolid Hlen Hnl. apply Hiff.
    exists (str "ssh-dss " ++ blob). split; [|split; [|split]].
    + exists [], []. rewrite app_nil_r.
      split; [reflexivity|]. split; [constructor|]. split; [constructor|].
      split; [intros r [= <-]; reflexivity|].
      intros r Hr. rewrite last_app_ne in Hr by exact Hne.
      apply last_In in Hr. unfold solid in Hsolid. rewrite Forall_forall in Hsolid.
      apply Hsolid, list_elem_of_In, Hr.
    + intros Hin. apply in_app_or in Hin as [Hin|Hin]; [|tauto].
      vm_compute in Hin. repeat (destruct Hin as [Hin|Hin]; [discriminate|]). exact Hin.
    + rewrite len_app. change (len (str "ssh-dss ")) with 8%Z. lia.
    + exists (str "ssh-dss"), blob, []. split; [|vm_compute; tauto].
      change (str "ssh-dss " ++ blob) with ([] ++ str "ssh-dss" ++ 32%N :: blob).
      apply splits_more; try solve [constructor | discriminate | reflexivity].
      * vm_compute. repeat constructor.
      * apply splitsInto_single; assumption.
  - intros field Hf Hok. apply validatePublicKey_None in Hok
      as (_ & _ & a & b & c & H & _).
    rewrite Fields_TrimSpace, Hf in H. discriminate.
Qed.

(** The key of the tests is acceptable, by running [validatePublicKey]. *)
Lemma validatePublicKey_accepts_exactly_witness :
  acceptable (str "ssh-ed25519 AAAA alice").
Proof.
  apply (proj1 (validatePublicKey_accepts_exactly (str "ssh-ed25519 AAAA alice"))).
  vm_compute. reflexivity.
Defined.

(** ** The routing config *)

Import config docspec.

Lemma fold_left_append {A} (f : A -> gostring) l out :
  fold_left (fun out x => out ++ f x) l out = out ++ concat (map f l).
Proof.
  revert out. induction l as [|x l IH]; intros out; simpl.
  - rewrite app_nil_r. reflexivity.
  - rewrite IH, app_assoc. reflexivity.
Qed.

Lemma fold_left_range {A B} (f : A -> B -> gostring) (items : list B) l out :
  fold_left (fun out x => fold_left (fun out i => out ++ f x i) items out) l out
  = out ++ concat (map (fun x => concat (map (f x) items)) l).
Proof.
  revert out. induction l as [|x l IH]; intros out; simpl.
  - rewrite app_nil_r. reflexivity.
  - rewrite IH, fold_left_append, app_assoc. reflexivity.
Qed.

(** Executing the template yields the document of the specification. *)
Lemma Execute_sshpiperTemplate machines keysDir serverKey :
  Execute sshpiperTemplate (mkTemplateData machines keysDir serverKey)
  = routingDocument keysDir serverKey machines.
Proof.
  unfold Execute, routingDocument.
  rewrite fold_left_range.
  change (before sshpiperTemplate)
    with (str "version: " ++ [DQ] ++ str "1.0" ++ [DQ] ++ [NL] ++ str "pipes:").
  change (after sshpiperTemplate) with [NL].
  cbn [Machines].
  rewrite (map_ext _ (routingRule keysDir serverKey)).
  - rewrite <- !app_assoc. reflexivity.
  - intros m. unfold routingRule.
    cbn [sshpiperTemplate body map concat execItem dataKeysDir dataServerKey].
    rewrite app_nil_r, <- !app_assoc. reflexivity.
Qed.

Lemma Generate_ok g io fs machines :
  failCreateConfig io = false -> cutExecute io = None ->
  Generate g io fs machines =
    (None, <[ConfigPath g := routingDocument (KeysDir g) (ServerKey g) machines]> fs).
Proof.
  intros H H'. unfold Generate. rewrite H, H', Execute_sshpiperTemplate.
  rewrite insert_insert_eq. reflexivity.
Qed.

(** [Generate] fails for no other reason than a refusal of the operating
    system. *)
Lemma Generate_None g io fs machines :
  fst (Generate g io fs machines) = None
  <-> failCreateConfig io = false /\ cutExecute io = None.
Proof.
  unfold Generate. destruct (failCreateConfig io).
  - simpl. split; [discriminate|intros [? _]; discriminate].
  - destruct (cutExecute io); simpl; split; auto; try discriminate.
    intros [_ ?]; discriminate.
Qed.

(** C6.  The generator of the routing config is deterministic and total.
    Executing the template is defined for every machine list, the empty
    one included, and [Generate] fails for no machine list: it returns an
    error exactly when the operating system refuses to create the config
    file or a write to it fails.  Whenever neither happens, the document
    it writes is the one determined by the list (in its order), the keys
    directory and the server key path: two invocations on the same list
    with the same two paths write byte-identical documents, whatever the
    files held before, wherever the config is written and whatever else
    fails.  The empty list yields the well-formed document with no
    rule. *)
Theorem Generate_deterministic_total
    (g1 g2 : Generator) (io1 io2 : Faults) (fs1 fs2 : FS) (machines : list Machine) :
  KeysDir g1 = KeysDir g2 -> ServerKey g1 = ServerKey g2 ->
  failCreateConfig io1 = false -> cutExecute io1 = None ->
  failCreateConfig io2 = false -> cutExecute io2 = None ->
  Execute sshpiperTemplate (mkTemplateData machines (KeysDir g1) (ServerKey g1))
  = routingDocument (KeysDir g1) (ServerKey g1) machines
  /\ fst (Generate g1 io1 fs1 machines) = None
  /\ fst (Generate g2 io2 fs2 machines) = None
  /\ snd (Generate g1 io1 fs1 machines) !! ConfigPath g1
     = Some (routingDocument (KeysDir g1) (ServerKey g1) machines)
  /\ snd (Generate g2 io2 fs2 machines) !! ConfigPath g2
     = snd (Generate g1 io1 fs1 machines) !! ConfigPath g1
  /\ routingDocument (KeysDir g1) (ServerKey g1) []
     = str "version: " ++ [DQ] ++ str "1.0" ++ [DQ] ++ [NL] ++ str "pipes:" ++ [NL]
  /\ (forall io fs l,
        fst (Generate g1 io fs l) = None
        <-> failCreateConfig io = false /\ cutExecute io = None).
Proof.
  intros Hk Hs H1 H1' H2 H2'.
  rewrite (Generate_ok g1 io1 fs1 machines H1 H1'),
          (Generate_ok g2 io2 fs2 machines H2 H2').
  simpl. rewrite !lookup_insert_eq, Hk, Hs.
  split; [apply Execute_sshpiperTemplate|].
  do 5 (split; [reflexivity|]).
  intros io fs l. apply Generate_None.
Qed.

(** TestGenerateWithMachines, run twice: on an empty disk, and again over
    the first result and while everything else fails. *)
Lemma Generate_deterministic_total_witness :
  Execute sshpiperTemplate
    (mkTemplateData [fixtures.row1; fixtures.row2]
                    (KeysDir fixtures.gen) (ServerKey fixtures.gen))
  = routingDocument (KeysDir fixtures.gen) (ServerKey fixtures.gen)
                    [fixtures.row1; fixtures.row2]
  /\ fst (Generate fixtures.gen noFaults ∅ [fixtures.row1; fixtures.row2]) = None
  /\ fst (Generate fixtures.gen
            (mkFaults true false true true true (Some 0%nat) None (Some 0%nat) true)
            (snd (Generate fixtures.gen noFaults ∅ [fixtures.row1; fixtures.row2]))
            [fixtures.row1; fixtures.row2]) = None
  /\ snd (Generate fixtures.gen noFaults ∅ [fixtures.row1; fixtures.row2])
       !! ConfigPath fixtures.gen
     = Some (routingDocument (KeysDir fixtures.gen) (ServerKey fixtures.gen)
                             [fixtures.row1; fixtures.row2])
  /\ snd (Generate fixtures.gen
            (mkFaults true false true true true (Some 0%nat) None (Some 0%nat) true)
            (snd (Generate fixtures.gen noFaults ∅ [fixtures.row1; fixtures.row2]))
            [fixtures.row1; fixtures.row2]) !! ConfigPath fixtures.gen
     = snd (Generate fixtures.gen noFaults ∅ [fixtures.row1; fixtures.row2])
         !! ConfigPath fixtures.gen.
Proof.
  destruct (Generate_deterministic_total fixtures.gen fixtures.gen
              noFaults
              (mkFaults true false true true true (Some 0%nat) None (Some 0%nat) true)
              ∅
              (snd (Generate fixtures.gen noFaults ∅ [fixtures.row1; fixtures.row2]))
              [fixtures.row1; fixtures.row2]
              eq_refl eq_refl eq_refl eq_refl eq_refl eq_refl)
    as (H1 & H2 & H3 & H4 & H5 & _).
  repeat split; assumption.
Defined.

(** ** Decimal numerals *)








(** ** The credential file *)

Lemma authorizedKeysEntry_grantEntry m :
  authorizedKeysEntry m = grantEntry (Port m) (PublicKey m).
Proof.
  unfold authorizedKeysEntry, grantEntry, grant. rewrite <- !app_assoc. reflexivity.
Qed.


Lemma firstEntry_code serverPubKey :
  (let keys := [] ++ serverPubKey in
   if (0 <? length keys)%nat && negb (bool_decide (last keys = Some NL))
   then keys ++ [NL] else keys)
  = firstEntry serverPubKey.
Proof.
  simpl. unfold firstEntry. destruct serverPubKey as [|a s]; [reflexivity|].
  change (0 <? length (a :: s))%nat with true. simpl andb.
  destruct (last (a :: s)) as [r|] eqn:E.
  - destruct (decide (r = NL)) as [->|Hne].
    + rewrite !bool_decide_eq_true_2 by reflexivity. reflexivity.
    + rewrite !bool_decide_eq_false_2 by congruence. reflexivity.
  - apply last_None in E. discriminate.
Qed.


(** What [UpdateAuthorizedKeys] writes. *)
Lemma UpdateAuthorizedKeys_keys g io fs machines fs' :
  UpdateAuthorizedKeys g io fs machines = (None, fs') ->
  fs' = <[authKeysPath :=
            match fs !! (ServerKey g ++ str ".pub") with
            | Some serverPubKey => credentialFile serverPubKey machines
            | None => credentialFile [] machines
            end]> fs.
Proof.
  unfold UpdateAuthorizedKeys, os_WriteFile.
  destruct (failMkdirAll io); [discriminate|].
  destruct (failWriteAuthKeys io); [discriminate|].
  destruct (cutWriteAuthKeys io); [discriminate|].
  intros [= <-]. f_equal. rewrite fold_left_append.
  unfold credentialFile.
  rewrite (map_ext authorizedKeysEntry (fun m => grantEntry (Port m) (PublicKey m)))
    by apply authorizedKeysEntry_grantEntry.
  destruct (fs !! (ServerKey g ++ str ".pub")) as [k|]; [|reflexivity].
  rewrite <- firstEntry_code. reflexivity.
Qed.

(** *** The lines of the credential file *)













(** A listed key with a newline is not bound to its grant.  For the
    machine that [Register] stores for the key of [fixtures.newlineKey],
    an empty line followed by a valid key, the file has three lines: the
    key of the server, the grant without a key, and the key of the
    machine on a line of its own, without any restriction. *)
Lemma UpdateAuthorizedKeys_key_with_newline :
  lines (default []
           (snd (UpdateAuthorizedKeys fixtures.gen noFaults (server.files fixtures.fresh)
                   [mkMachine 1 (str "alice-mac") (str "alice") 10022 (str "alice")
                              fixtures.newlineKey 1 None]) !! authKeysPath))
  = [ str "ssh-ed25519 SERVER bastion-server";
      grant 10022 ++ str " ";
      str "ssh-ed25519 AAAA alice" ].
Proof. vm_compute. reflexivity. Qed.

(** ** The handlers *)

Import server reqspec.

Lemma regenerateConfig_store h io st :
  store (snd (regenerateConfig h io st)) = store st.
Proof.
  unfold regenerateConfig. destruct (failListMachines io); [reflexivity|].
  destruct (Generate _ _ _ _) as [[e|] fs]; [reflexivity|]. simpl.
  destruct (UpdateAuthorizedKeys _ _ _ _) as [[e|] fs1];
    destruct (OnChange h); reflexivity.
Qed.

(** A request that fails the validation is answered with status 400 and
    changes nothing. *)
Lemma Register_validation h io now st req :
  wellFormed req \/
  exists msg, Register h io now st (Some req) = (jsonError msg StatusBadRequest, st).
Proof.
  unfold Register, wellFormed.
  destruct (decide (reqName req = [])) as [E1|E1];
    [right; rewrite (bool_decide_eq_true_2 _ E1); simpl; eauto|].
  destruct (decide (reqOwner req = [])) as [E2|E2];
    [right; rewrite (bool_decide_eq_true_2 _ E2), orb_true_r; simpl; eauto|].
  destruct (decide (reqLocalUser req = [])) as [E3|E3];
    [right; rewrite (bool_decide_eq_true_2 _ E3), !orb_true_r; simpl; eauto|].
  destruct (decide (reqPublicKey req = [])) as [E4|E4];
    [right; rewrite (bool_decide_eq_true_2 _ E4), !orb_true_r; simpl; eauto|].
  rewrite (bool_decide_eq_false_2 _ E1), (bool_decide_eq_false_2 _ E2),
          (bool_decide_eq_false_2 _ E3), (bool_decide_eq_false_2 _ E4).
  simpl orb. cbv iota.
  destruct (validName (reqName req)); [|right; simpl; eauto].
  destruct (validName (reqOwner req)); [|right; simpl; eauto].
  destruct (validName (reqLocalUser req)); [|right; simpl; eauto].
  simpl negb. cbv iota.
  destruct (validatePublicKey (reqPublicKey req)) as [e|]; [right; eauto|].
  left. repeat split; assumption.
Qed.

(** [Register] after a successful validation. *)
Lemma Register_wellFormed h io now st req :
  wellFormed req ->
  Register h io now st (Some req) =
  match db.GetMachine (store st) (reqName req) with
  | Some existing => (jsonError MsgAlreadyRegistered StatusConflict, st)
  | None =>
    match db.CreateMachine (store st) now (newMachine req) with
    | (m, Some err, d) =>
        (jsonError MsgFailedRegister StatusInternalServerError,
         logPrintf (setStore st d) (LogCreating err))
    | (m, None, d) =>
        let st := setStore st d in
        let st :=
          match WriteKey (Gen h) io (files st) (db.Name m) (db.PublicKey m) with
          | (Some err, fs) => logPrintf (setFiles st fs) (LogWritingKey err)
          | (None, fs) => setFiles st fs
          end in
        let st :=
          match regenerateConfig h io st with
          | (Some err, st) => logPrintf st (LogRegenerating err)
          | (None, st) => st
          end in
        let serverPubKey :=
          match files st !! (ServerKey (Gen h) ++ str ".pub") with
          | Some pubKeyData => strings.TrimSpace pubKeyData
          | None => []
          end in
        (jsonCreated
           (mkRegisterResponse (db.Name m) (db.Port m) (ServerURL h) 2222
                               (str "bastion") serverPubKey),
         st)
    end
  end.
Proof.
  intros (E1 & E2 & E3 & E4 & V1 & V2 & V3 & V4). unfold Register.
  rewrite (bool_decide_eq_false_2 _ E1), (bool_decide_eq_false_2 _ E2),
          (bool_decide_eq_false_2 _ E3), (bool_decide_eq_false_2 _ E4).
  rewrite V1, V2, V3, V4. reflexivity.
Qed.

Lemma Register_bad_key h io now st req e :
  validatePublicKey (reqPublicKey req) = Some e ->
  exists msg, Register h io now st (Some req) = (jsonError msg StatusBadRequest, st).
Proof.
  intros He. destruct (Register_validation h io now st req) as [Hwf|H]; [|exact H].
  destruct Hwf as (_ & _ & _ & _ & _ & _ & _ & V). congruence.
Qed.

(** A successful registration: the answer carries the allocated port, and
    the table is the one [CreateMachine] produced. *)
Lemma Register_created h io now st req m d :
  wellFormed req -> db.GetMachine (store st) (reqName req) = None ->
  db.CreateMachine (store st) now (newMachine req) = (m, None, d) ->
  exists r,
    fst (Register h io now st (Some req)) = jsonCreated r
    /\ respName r = reqName req /\ respPort r = db.Port m
    /\ store (snd (Register h io now st (Some req))) = d.
Proof.
  intros Hwf Hfree Hcreate.
  rewrite (Register_wellFormed h io now st req Hwf), Hfree, Hcreate.
  eexists. split; [reflexivity|]. cbn [fst snd respName respPort].
  assert (Hname : db.Name m = reqName req).
  { unfold db.CreateMachine in Hcreate.
    destruct (db.AllocatePort (store st)) as [p [err|]]; [discriminate|].
    destruct (db.sql_insert _ _ _ _ _ _ _) as [err|[d1 id]]; [discriminate|].
    injection Hcreate as <- _. reflexivity. }
  split; [exact Hname|]. split; [reflexivity|].
  destruct (regenerateConfig h io _) as [[e|] st1] eqn:Hregen.
  - cbn [store logPrintf].
    change st1 with (snd (Some e, st1)). rewrite <- Hregen, regenerateConfig_store.
    destruct (WriteKey _ _ _ _ _) as [[e'|] fs]; reflexivity.
  - change st1 with (snd (@None config.error, st1)).
    rewrite <- Hregen, regenerateConfig_store.
    destruct (WriteKey _ _ _ _ _) as [[e'|] fs]; reflexivity.
Qed.

Lemma DeleteMachine_deleted h io st name d :
  db.DeleteMachine (store st) name = (None, d) ->
  fst (DeleteMachine h io st name) = jsonOK
  /\ store (snd (DeleteMachine h io st name)) = d.
Proof.
  intros Hdel. unfold DeleteMachine. rewrite Hdel.
  destruct (regenerateConfig h io _) as [[e|] st1] eqn:Hregen.
  - split; [reflexivity|]. cbn [snd store logPrintf].
    change st1 with (snd (Some e, st1)). rewrite <- Hregen, regenerateConfig_store.
    reflexivity.
  - split; [reflexivity|]. cbn [snd].
    change st1 with (snd (@None config.error, st1)).
    rewrite <- Hregen, regenerateConfig_store. reflexivity.
Qed.

(** ** The claims about registration and deletion *)

(** C3.  Registering a name that is already in the table.  The request
    fails and changes nothing: the machine set and its count, the free
    ports, the files.  It fails with the conflict answer (409, machine
    already registered) whenever it passes the validation, which comes
    first; a later registration is answered exactly as if the failed
    attempt had never happened, so it receives the same port.  At the
    store, [CreateMachine] with the name fails as well and leaves the
    table as it was. *)
Theorem Register_duplicate_name
    (h : Handlers) (io : Faults) (now : Z) (st : state)
    (req : registerRequest) (existing : db.Machine) :
  db.GetMachine (store st) (reqName req) = Some existing ->
  (exists msg code, fst (Register h io now st (Some req)) = jsonError msg code)
  /\ (wellFormed req ->
      fst (Register h io now st (Some req))
      = jsonError MsgAlreadyRegistered StatusConflict)
  /\ snd (Register h io now st (Some req)) = st
  /\ db.ListMachines (store (snd (Register h io now st (Some req))))
     = db.ListMachines (store st)
  /\ db.AllocatePort (store (snd (Register h io now st (Some req))))
     = db.AllocatePort (store st)
  /\ (forall h' io' now' body',
        Register h' io' now' (snd (Register h io now st (Some req))) body'
        = Register h' io' now' st body')
  /\ (exists m e,
        db.CreateMachine (store st) now (newMachine req) = (m, Some e, store st)).
Proof.
  intros Hex.
  assert (Hrun : exists msg code,
             Register h io now st (Some req) = (jsonError msg code, st)
             /\ (wellFormed req -> msg = MsgAlreadyRegistered /\ code = StatusConflict)).
  { destruct (Register_validation h io now st req) as [Hwf|[msg Hbad]].
    - rewrite (Register_wellFormed h io now st req Hwf), Hex. eauto.
    - exists msg, StatusBadRequest. split; [exact Hbad|]. intros Hwf.
      rewrite (Register_wellFormed h io now st req Hwf), Hex in Hbad. discriminate. }
  destruct Hrun as (msg & code & Hrun & Hconflict). rewrite Hrun. simpl.
  split; [eauto|]. split.
  { intros Hwf. destruct (Hconflict Hwf) as [-> ->]. reflexivity. }
  repeat (split; [reflexivity|]).
  apply CreateMachine_duplicate. simpl.
  destruct (hasName (reqName req) (db.rows (store st))) eqn:E; [reflexivity|].
  apply GetMachine_None in E. congruence.
Qed.

(** TestRegisterDuplicate: [alice] registers twice. *)
Lemma Register_duplicate_name_witness :
  fst (Register fixtures.handlers noFaults 2 fixtures.withAlice (Some fixtures.alice))
  = jsonError MsgAlreadyRegistered StatusConflict
  /\ snd (Register fixtures.handlers noFaults 2 fixtures.withAlice (Some fixtures.alice))
     = fixtures.withAlice.
Proof.
  assert (Hex : db.GetMachine (store fixtures.withAlice) (reqName fixtures.alice)
                = Some (db.mkMachine 1 (str "alice-mac") (str "alice") 10022
                                     (str "alice") (str "ssh-ed25519 AAAA alice") 1 None))
    by (vm_compute; reflexivity).
  pose proof (Register_duplicate_name fixtures.handlers noFaults 2 fixtures.withAlice
                fixtures.alice _ Hex) as (_ & Hconflict & Hsame & _).
  split; [|exact Hsame].
  apply Hconflict. unfold wellFormed. vm_compute.
  repeat split; discriminate.
Defined.

(** C4.  After the store mutation of a registration or a deletion has
    succeeded, no failure of what follows (writing the key file, listing
    the machines, creating the routing config, writing the credential
    file: any combination of [Faults]) changes the table or the answer:
    the registration still answers 201 with the allocated port, the
    deletion still answers 200, and the table is the one the mutation
    produced. *)
Theorem mutation_survives_regeneration_failures
    (h : Handlers) (io : Faults) (now : Z) (st : state) :
  (forall req m d,
     wellFormed req -> db.GetMachine (store st) (reqName req) = None ->
     db.CreateMachine (store st) now (newMachine req) = (m, None, d) ->
     exists r,
       fst (Register h io now st (Some req)) = jsonCreated r
       /\ respName r = reqName req /\ respPort r = db.Port m
       /\ store (snd (Register h io now st (Some req))) = d)
  /\ (forall name d,
        db.DeleteMachine (store st) name = (None, d) ->
        fst (DeleteMachine h io st name) = jsonOK
        /\ store (snd (DeleteMachine h io st name)) = d).
Proof.
  split.
  - intros req m d. apply Register_created.
  - intros name d. apply DeleteMachine_deleted.
Qed.

(** [bob] registers and [alice] is deleted while every later step fails:
    both requests succeed, and nothing but the log and the table
    changes. *)
Lemma mutation_survives_regeneration_failures_witness :
  (exists r,
     fst (Register fixtures.handlers fixtures.allFaults 2 fixtures.withAlice
            (Some fixtures.bob)) = jsonCreated r
     /\ respName r = str "bob-pc" /\ respPort r = 10023%Z
     /\ store (snd (Register fixtures.handlers fixtures.allFaults 2
                      fixtures.withAlice (Some fixtures.bob)))
        = snd (db.CreateMachine (store fixtures.withAlice) 2 (newMachine fixtures.bob)))
  /\ (fst (DeleteMachine fixtures.handlers fixtures.allFaults fixtures.withAlice
             (str "alice-mac")) = jsonOK
      /\ store (snd (DeleteMachine fixtures.handlers fixtures.allFaults
                       fixtures.withAlice (str "alice-mac")))
         = db.mkDB [] 1)
  /\ files (snd (Register fixtures.handlers fixtures.allFaults 2 fixtures.withAlice
                   (Some fixtures.bob))) = files fixtures.withAlice.
Proof.
  pose proof (mutation_survives_regeneration_failures fixtures.handlers
                fixtures.allFaults 2 fixtures.withAlice) as [Hreg Hdel].
  split; [|split].
  - apply (Hreg fixtures.bob
             (db.mkMachine 2 (str "bob-pc") (str "bob") 10023 (str "bob")
                           (str "ssh-ed25519 BBBB bob") 0 None)).
    + unfold wellFormed. vm_compute. repeat split; discriminate.
    + vm_compute. reflexivity.
    + vm_compute. reflexivity.
  - apply Hdel. vm_compute. reflexivity.
  - vm_compute. reflexivity.
Defined.

(** The three kinds of key that the validation refuses. *)
Lemma validatePublicKey_refuses key :
  twoLines key
  \/ (2048 < len (TrimSpace key))%Z
  \/ (exists algo, algorithm key = Some algo /\ ~ In algo recognizedTypes) ->
  exists e, validatePublicKey key = Some e.
Proof.
  intros H. destruct (validatePublicKey key) as [e|] eqn:E; [eauto|]. exfalso.
  apply validatePublicKey_None in E as (Hnl & Hlen & a & b & c & Hf & Hin).
  destruct H as [H|[H|(algo & Halgo & Hbad)]].
  - apply Hnl, twoLines_TrimSpace, H.
  - lia.
  - unfold algorithm in Halgo. rewrite <- Fields_TrimSpace, Hf in Halgo.
    injection Halgo as <-. tauto.
Qed.

(** C8, as amended.  Registration validates before it mutates: a request
    whose public key has two lines, or exceeds 2048 bytes once its
    surrounding white space is trimmed, or whose algorithm token (its
    first field) is not a recognized one, is answered with a validation
    error (status 400), and the state is exactly as before: the table,
    hence the occupied ports, and every file. *)
Theorem Register_validates_before_mutating
    (h : Handlers) (io : Faults) (now : Z) (st : state) (req : registerRequest) :
  twoLines (reqPublicKey req)
  \/ (2048 < len (TrimSpace (reqPublicKey req)))%Z
  \/ (exists algo, algorithm (reqPublicKey req) = Some algo
                   /\ ~ In algo recognizedTypes) ->
  exists msg,
    Register h io now st (Some req) = (jsonError msg StatusBadRequest, st)
    /\ store (snd (Register h io now st (Some req))) = store st
    /\ db.AllocatePort (store (snd (Register h io now st (Some req))))
       = db.AllocatePort (store st)
    /\ files (snd (Register h io now st (Some req))) = files st.
Proof.
  intros H. apply validatePublicKey_refuses in H as [e He].
  destruct (Register_bad_key h io now st req e He) as [msg Hrun].
  exists msg. rewrite Hrun. repeat split; reflexivity.
Qed.

(** A key of the unknown type ssh-foo is refused on the server that holds
    [alice]. *)
Lemma Register_validates_before_mutating_witness :
  exists msg,
    Register fixtures.handlers noFaults 2 fixtures.withAlice
      (Some (mkRegisterRequest (str "carol") (str "carol") (str "carol")
                               (str "ssh-foo AAAA carol")))
    = (jsonError msg StatusBadRequest, fixtures.withAlice)
    /\ store (snd (Register fixtures.handlers noFaults 2 fixtures.withAlice
         (Some (mkRegisterRequest (str "carol") (str "carol") (str "carol")
                                  (str "ssh-foo AAAA carol")))))
       = store fixtures.withAlice
    /\ db.AllocatePort (store (snd (Register fixtures.handlers noFaults 2
         fixtures.withAlice
         (Some (mkRegisterRequest (str "carol") (str "carol") (str "carol")
                                  (str "ssh-foo AAAA carol"))))))
       = db.AllocatePort (store fixtures.withAlice)
    /\ files (snd (Register fixtures.handlers noFaults 2 fixtures.withAlice
         (Some (mkRegisterRequest (str "carol") (str "carol") (str "carol")
                                  (str "ssh-foo AAAA carol")))))
       = files fixtures.withAlice.
Proof.
  apply (Register_validates_before_mutating fixtures.handlers noFaults 2
           fixtures.withAlice
           (mkRegisterRequest (str "carol") (str "carol") (str "carol")
                              (str "ssh-foo AAAA carol"))).
  right. right. exists (str "ssh-foo"). split; [vm_compute; reflexivity|].
  vm_compute. intros H. repeat (destruct H as [H|H]; [discriminate|]). exact H.
Defined.

(** C8 as stated fails: the length is measured after trimming.  A request
    whose public key exceeds 2048 bytes only by trailing spaces passes the
    validation, is registered, and changes the table. *)
Lemma Register_accepts_padded_key :
  (2048 < len (reqPublicKey fixtures.padded))%Z
  /\ exists r st',
       Register fixtures.handlers noFaults 1 fixtures.fresh (Some fixtures.padded)
       = (jsonCreated r, st')
       /\ respPort r = 10022%Z
       /\ length (db.rows (store st')) = 1%nat
       /\ length (db.rows (store fixtures.fresh)) = 0%nat.
Proof.
  split; [vm_compute; reflexivity|].
  eexists _, _. split; [vm_compute; reflexivity|].
  repeat split; reflexivity.
Qed.

(** C9.  The stored public key is the submitted string, not its trimmed
    form.  The validation trims a copy of the key, and the handler stores
    the original: the request whose key starts with an empty line is
    accepted, the stored key keeps the leading newline, and the credential
    file then carries the grant on one line and the key, without any
    restriction, on the next. *)
Theorem Register_stores_untrimmed_key :
  validatePublicKey fixtures.newlineKey = None
  /\ exists r st' m,
       Register fixtures.handlers noFaults 1 fixtures.fresh (Some fixtures.newlined)
       = (jsonCreated r, st')
       /\ db.GetMachine (store st') (str "alice-mac") = Some m
       /\ db.PublicKey m = fixtures.newlineKey
       /\ head (db.PublicKey m) = Some NL
       /\ db.PublicKey m <> TrimSpace (db.PublicKey m)
       /\ files st' !! authKeysPath
          = Some (fixtures.serverPubKey ++
                  grant 10022 ++ str " " ++ [NL] ++
                  str "ssh-ed25519 AAAA alice" ++ [NL]).
Proof.
  split; [vm_compute; reflexivity|].
  eexists _, _, _. split; [vm_compute; reflexivity|].
  split; [vm_compute; reflexivity|].
  split; [reflexivity|]. split; [reflexivity|].
  split; [vm_compute; discriminate|].
  vm_compute. reflexivity.
Qed.

(** The stored key is the submitted one for every accepted registration. *)
Lemma Register_stores_submitted_key h io now st req m d :
  wellFormed req -> db.GetMachine (store st) (reqName req) = None ->
  db.CreateMachine (store st) now (newMachine req) = (m, None, d) ->
  exists row,
    db.GetMachine (store (snd (Register h io now st (Some req)))) (reqName req)
    = Some row
    /\ db.PublicKey row = reqPublicKey req.
Proof.
  intros Hwf Hfree Hcreate.
  destruct (Register_created h io now st req m d Hwf Hfree Hcreate)
    as (r & _ & _ & _ & ->).
  unfold db.CreateMachine in Hcreate.
  destruct (db.AllocatePort (store st)) as [p [err|]] eqn:Hp; [discriminate|].
  apply GetMachine_None in Hfree.
  pose proof (CreateMachine_ok (store st) now (newMachine req) p Hp Hfree) as Hok.
  unfold db.CreateMachine in Hok. rewrite Hp in Hok. rewrite Hok in Hcreate.
  injection Hcreate as _ <-.
  eexists. split.
  - unfold db.GetMachine, db.sql_select_by_name. simpl.
    apply find_appended; [exact Hfree|reflexivity].
  - reflexivity.
Qed.

(* ================================================================== *)
(** * Further properties of the code *)
(* ================================================================== *)

Import facts.

(** ** The store: create, delete and heartbeat *)

Lemma CreateMachine_success d now m m' d' :
  CreateMachine d now m = (m', None, d') ->
  exists p,
    AllocatePort d = (p, None) /\ hasName (Name m) (rows d) = false /\
    m' = setID (setPort m p) (lastID d + 1) /\
    d' = mkDB (rows d ++ [mkMachine (lastID d + 1) (Name m) (Owner m) p
                                    (LocalUser m) (PublicKey m) now None])
              (lastID d + 1).
Proof.
  unfold CreateMachine. destruct (AllocatePort d) as [p [err|]] eqn:Hp; [discriminate|].
  unfold sql_insert. simpl.
  destruct (hasName (Name m) (rows d)) eqn:Hn; [discriminate|].
  destruct (hasPort p (rows d)) eqn:Hpt; [discriminate|].
  intros [= <- <-]. exists p. repeat split; reflexivity.
Qed.

Lemma find_app_other n l r :
  Name r <> n ->
  find (fun x => bool_decide (Name x = n)) (l ++ [r])
  = find (fun x => bool_decide (Name x = n)) l.
Proof.
  intros Hr. induction l as [|a l IH]; simpl.
  - rewrite bool_decide_eq_false_2 by exact Hr. reflexivity.
  - destruct (bool_decide (Name a = n)); [reflexivity | exact IH].
Qed.

(** Insert and lookup.  When [CreateMachine] succeeds the name was free,
    and [GetMachine] of the name then returns the row with the submitted
    owner, local user and key, the port and the id handed back through the
    pointer, the current time as creation time and no heartbeat; the port
    is the one [AllocatePort] chose, the id the next value of the counter;
    whatever id, port or times the caller had put into the machine is
    ignored; every other name reads as before. *)
Theorem CreateMachine_then_GetMachine (d : DB) (now : Z) (m m' : Machine) (d' : DB) :
  CreateMachine d now m = (m', None, d') ->
  GetMachine d (Name m) = None
  /\ GetMachine d' (Name m)
     = Some (mkMachine (ID m') (Name m) (Owner m) (Port m') (LocalUser m)
                       (PublicKey m) now None)
  /\ AllocatePort d = (Port m', None)
  /\ ID m' = (lastID d + 1)%Z /\ lastID d' = ID m'
  /\ Name m' = Name m /\ Owner m' = Owner m /\ LocalUser m' = LocalUser m
  /\ PublicKey m' = PublicKey m
  /\ (forall n, n <> Name m -> GetMachine d' n = GetMachine d n).
Proof.
  intros H. apply CreateMachine_success in H as (p & Hp & Hn & -> & ->). simpl.
  split; [apply GetMachine_None, Hn|]. split.
  { unfold GetMachine, sql_select_by_name. simpl.
    apply find_appended; [exact Hn|reflexivity]. }
  split; [exact Hp|]. repeat (split; [reflexivity|]).
  intros n Hne. unfold GetMachine, sql_select_by_name. simpl.
  apply find_app_other. simpl. congruence.
Qed.

(** TestCreateAndGetMachine, on the table of [m1] and [m2]. *)
Lemma CreateMachine_then_GetMachine_witness :
  GetMachine fixtures.two (str "m3") = None
  /\ GetMachine (snd (CreateMachine fixtures.two 3 (fixtures.machine "m3" "c" "key3")))
                (str "m3")
     = Some (mkMachine 3 (str "m3") (str "c") 10024 (str "c") (str "key3") 3 None).
Proof.
  destruct (CreateMachine_then_GetMachine fixtures.two 3
              (fixtures.machine "m3" "c" "key3")
              (mkMachine 3 (str "m3") (str "c") 10024 (str "c") (str "key3") 0 None)
              (snd (CreateMachine fixtures.two 3 (fixtures.machine "m3" "c" "key3"))))
    as (H1 & H2 & _).
  - vm_compute. reflexivity.
  - split; [exact H1 | exact H2].
Defined.

Lemma countName_find n l :
  countName n l = 0%nat <-> find (fun r => bool_decide (Name r = n)) l = None.
Proof.
  unfold countName. induction l as [|a l IH]; simpl; [tauto|].
  destruct (bool_decide (Name a = n)); simpl; [split; discriminate | exact IH].
Qed.

Lemma filter_length_split {A} (P : A -> bool) l :
  (length l = length (List.filter P l) + length (List.filter (fun x => negb (P x)) l))%nat.
Proof.
  induction l as [|a l IH]; simpl; [reflexivity|].
  destruct (P a); simpl; lia.
Qed.

(** [RowsAffected] of the DELETE is the number of rows of the name. *)
Lemma sql_delete_affected d name :
  snd (sql_delete d name) = Z.of_nat (countName name (rows d)).
Proof.
  unfold sql_delete, countName. simpl.
  pose proof (filter_length_split (fun r => bool_decide (Name r = name)) (rows d)).
  lia.
Qed.

Lemma find_filter_other n name l :
  n <> name ->
  find (fun r => bool_decide (Name r = n))
       (List.filter (fun r => negb (bool_decide (Name r = name))) l)
  = find (fun r => bool_decide (Name r = n)) l.
Proof.
  intros Hne. induction l as [|a l IH]; simpl; [reflexivity|].
  destruct (decide (Name a = name)) as [Ha|Ha].
  - rewrite (bool_decide_eq_true_2 _ Ha). simpl.
    rewrite bool_decide_eq_false_2 by congruence. exact IH.
  - rewrite (bool_decide_eq_false_2 _ Ha). simpl.
    destruct (bool_decide (Name a = n)); [reflexivity | exact IH].
Qed.

Lemma find_filter_same name l :
  find (fun r => bool_decide (Name r = name))
       (List.filter (fun r => negb (bool_decide (Name r = name))) l) = None.
Proof.
  induction l as [|a l IH]; simpl; [reflexivity|].
  destruct (decide (Name a = name)) as [Ha|Ha].
  - rewrite (bool_decide_eq_true_2 _ Ha). simpl. exact IH.
  - rewrite (bool_decide_eq_false_2 _ Ha). simpl.
    rewrite (bool_decide_eq_false_2 _ Ha). exact IH.
Qed.

Lemma filter_all {A} (P : A -> bool) l :
  (forall x, In x l -> P x = true) -> List.filter P l = l.
Proof.
  induction l as [|a l IH]; simpl; intros H; [reflexivity|].
  rewrite (H a) by auto. f_equal. apply IH. auto.
Qed.

Lemma DeleteMachine_not_found d name :
  GetMachine d name = None ->
  db.DeleteMachine d name = (Some (ErrNotFound name), d).
Proof.
  intros H. unfold db.DeleteMachine.
  pose proof (sql_delete_affected d name) as Hn.
  destruct (sql_delete d name) as [d' n] eqn:E. simpl in Hn.
  apply countName_find in H. rewrite H in Hn. subst n. simpl.
  f_equal. unfold sql_delete in E. injection E as <-.
  rewrite filter_all; [apply DB_eta|].
  intros x Hx. apply negb_true_iff, bool_decide_eq_false. intros Hname.
  apply countName_0 in H. apply H. rewrite <- Hname. apply in_map, Hx.
Qed.

Lemma DeleteMachine_found d name m :
  GetMachine d name = Some m ->
  db.DeleteMachine d name
  = (None, mkDB (List.filter (fun r => negb (bool_decide (Name r = name))) (rows d))
                (lastID d)).
Proof.
  intros H. unfold db.DeleteMachine.
  pose proof (sql_delete_affected d name) as Hn.
  destruct (sql_delete d name) as [d' n] eqn:E. simpl in Hn.
  unfold sql_delete in E. injection E as <- _.
  destruct (countName name (rows d)) eqn:Hc.
  - apply countName_find in Hc. unfold GetMachine, sql_select_by_name in H. congruence.
  - subst n. reflexivity.
Qed.

(** Delete.  Deleting a name that is not in the table is an error and
    changes nothing.  Deleting a machine removes it and nothing else: the
    name is absent afterwards, every other name reads as before, the id
    counter keeps its value, and a second delete of the name fails; in a
    table that satisfies the invariant the port of the machine is free
    afterwards and every other port is held exactly as before. *)
Theorem DeleteMachine_removes_exactly (d : DB) (name : gostring) :
  (GetMachine d name = None ->
     db.DeleteMachine d name = (Some (ErrNotFound name), d))
  /\ (forall m, GetMachine d name = Some m ->
        exists d',
          db.DeleteMachine d name = (None, d')
          /\ GetMachine d' name = None
          /\ (forall n, n <> name -> GetMachine d' n = GetMachine d n)
          /\ lastID d' = lastID d
          /\ db.DeleteMachine d' name = (Some (ErrNotFound name), d')
          /\ (Inv d ->
              ~ portUsed d' (Port m)
              /\ forall p, p <> Port m -> (portUsed d' p <-> portUsed d p))).
Proof.
  split; [apply DeleteMachine_not_found|].
  intros m Hm. rewrite (DeleteMachine_found d name m Hm).
  eexists. split; [reflexivity|].
  assert (Hgone : GetMachine
            (mkDB (List.filter (fun r => negb (bool_decide (Name r = name))) (rows d))
                  (lastID d)) name = None)
    by apply find_filter_same.
  split; [exact Hgone|]. split.
  { intros n Hne. apply find_filter_other, Hne. }
  split; [reflexivity|]. split; [apply DeleteMachine_not_found, Hgone|].
  intros [Hnames Hports _ _].
  apply GetMachine_Some in Hm as [Hin Hname].
  unfold portUsed. simpl. split.
  - intros (r & Hr & Hp). apply filter_In in Hr as [Hr Hkeep].
    apply negb_true_iff, bool_decide_eq_false in Hkeep. apply Hkeep.
    rewrite (NoDup_map_inj Port (rows d) r m Hports Hr Hin Hp). exact Hname.
  - intros p Hp. split.
    + intros (r & Hr & <-). apply filter_In in Hr as [Hr _]. eauto.
    + intros (r & Hr & <-). exists r. split; [|reflexivity].
      apply filter_In. split; [exact Hr|].
      apply negb_true_iff, bool_decide_eq_false. intros Hrn.
      apply Hp. f_equal.
      apply (NoDup_map_inj Name (rows d) r m Hnames Hr Hin). congruence.
Qed.

(** TestPortReuse and TestDeleteMachineNotFound, on the table of [m1] and
    [m2]. *)
Lemma DeleteMachine_removes_exactly_witness :
  db.DeleteMachine fixtures.two (str "ghost")
  = (Some (ErrNotFound (str "ghost")), fixtures.two)
  /\ exists d',
       db.DeleteMachine fixtures.two (str "m1") = (None, d')
       /\ GetMachine d' (str "m1") = None
       /\ (forall n, n <> str "m1" -> GetMachine d' n = GetMachine fixtures.two n)
       /\ lastID d' = lastID fixtures.two
       /\ db.DeleteMachine d' (str "m1") = (Some (ErrNotFound (str "m1")), d')
       /\ (Inv fixtures.two ->
           ~ portUsed d' (Port fixtures.row1)
           /\ forall p, p <> Port fixtures.row1 ->
                        (portUsed d' p <-> portUsed fixtures.two p)).
Proof.
  destruct (DeleteMachine_removes_exactly fixtures.two (str "ghost")) as [H1 _].
  destruct (DeleteMachine_removes_exactly fixtures.two (str "m1")) as [_ H2].
  split.
  - apply H1. vm_compute. reflexivity.
  - apply (H2 fixtures.row1). vm_compute. reflexivity.
Defined.

Lemma find_touch now name n l :
  find (fun r => bool_decide (Name r = n)) (map (touchRow now name) l)
  = option_map (touchRow now name) (find (fun r => bool_decide (Name r = n)) l).
Proof.
  induction l as [|a l IH]; simpl; [reflexivity|].
  assert (Hn : Name (touchRow now name a) = Name a)
    by (unfold touchRow; case_bool_decide; reflexivity).
  rewrite Hn. destruct (bool_decide (Name a = n)); [reflexivity | exact IH].
Qed.

Lemma touchRow_absent now name l :
  ~ In name (map Name l) -> map (touchRow now name) l = l.
Proof.
  induction l as [|a l IH]; simpl; intros H; [reflexivity|].
  unfold touchRow at 1. case_bool_decide as Ha; [exfalso; apply H; auto|].
  f_equal. apply IH. tauto.
Qed.

(** Heartbeat.  [UpdateLastSeen] of a name that is not in the table is an
    error and changes nothing.  For a machine of the table it sets
    [last_seen] to the current time and touches nothing else: every other
    field of the machine, every other machine, the names, the ports, the
    id counter and the port that the next registration will receive are
    as before. *)
Theorem UpdateLastSeen_touches_last_seen_only (d : DB) (now : Z) (name : gostring) :
  (GetMachine d name = None ->
     UpdateLastSeen d now name = (Some (ErrNotFound name), d))
  /\ (forall m, GetMachine d name = Some m ->
        exists d',
          UpdateLastSeen d now name = (None, d')
          /\ GetMachine d' name
             = Some (mkMachine (ID m) (Name m) (Owner m) (Port m) (LocalUser m)
                               (PublicKey m) (CreatedAt m) (Some now))
          /\ (forall n, n <> name -> GetMachine d' n = GetMachine d n)
          /\ map Name (rows d') = map Name (rows d)
          /\ map Port (rows d') = map Port (rows d)
          /\ lastID d' = lastID d
          /\ AllocatePort d' = AllocatePort d).
Proof.
  unfold UpdateLastSeen, sql_update_last_seen. split.
  - intros H. apply countName_find in H. rewrite H. simpl.
    apply countName_0 in H. rewrite touchRow_absent by exact H.
    rewrite DB_eta. reflexivity.
  - intros m Hm.
    destruct (countName name (rows d)) as [|k] eqn:Hc.
    { apply countName_find in Hc. unfold GetMachine, sql_select_by_name in Hm.
      congruence. }
    simpl. eexists. split; [reflexivity|].
    assert (Hnames : map Name (map (touchRow now name) (rows d)) = map Name (rows d)).
    { rewrite map_map. apply map_ext. intros r. unfold touchRow.
      case_bool_decide; reflexivity. }
    assert (Hports : map Port (map (touchRow now name) (rows d)) = map Port (rows d)).
    { rewrite map_map. apply map_ext. intros r. unfold touchRow.
      case_bool_decide; reflexivity. }
    unfold GetMachine, sql_select_by_name in *. simpl.
    split.
    { rewrite find_touch, Hm. simpl. unfold touchRow.
      apply find_some in Hm as [_ Hname]. rewrite Hname. reflexivity. }
    split.
    { intros n Hne. rewrite find_touch.
      destruct (find (fun r => bool_decide (Name r = n)) (rows d)) as [r|] eqn:Hr;
        [|reflexivity].
      simpl. apply find_some in Hr as [_ Hname].
      apply bool_decide_eq_true in Hname. unfold touchRow.
      rewrite bool_decide_eq_false_2 by congruence. reflexivity. }
    split; [exact Hnames|]. split; [exact Hports|]. split; [reflexivity|].
    unfold AllocatePort, sql_select_ports. simpl. rewrite Hports. reflexivity.
Qed.

(** TestUpdateLastSeen and TestUpdateLastSeenNotFound. *)
Lemma UpdateLastSeen_touches_last_seen_only_witness :
  UpdateLastSeen fixtures.two 9 (str "ghost")
  = (Some (ErrNotFound (str "ghost")), fixtures.two)
  /\ exists d',
       UpdateLastSeen fixtures.two 9 (str "m1") = (None, d')
       /\ GetMachine d' (str "m1")
          = Some (mkMachine 1 (str "m1") (str "a") 10022 (str "a") (str "key1") 1 (Some 9%Z))
       /\ AllocatePort d' = AllocatePort fixtures.two.
Proof.
  destruct (UpdateLastSeen_touches_last_seen_only fixtures.two 9 (str "ghost"))
    as [H1 _].
  destruct (UpdateLastSeen_touches_last_seen_only fixtures.two 9 (str "m1"))
    as [_ H2].
  split; [apply H1; vm_compute; reflexivity|].
  destruct (H2 fixtures.row1) as (d' & Hrun & Hget & _ & _ & _ & _ & Halloc);
    [vm_compute; reflexivity|].
  exists d'. repeat split; assumption.
Defined.

(** ** The store: rename there and back *)

Lemma renameRow_back oldName newName l :
  ~ In newName (map Name l) ->
  map (renameRow newName oldName) (map (renameRow oldName newName) l) = l.
Proof.
  intros Hnew. rewrite map_map. rewrite <- (map_id l) at 2.
  apply map_ext_in. intros r Hr.
  destruct (decide (Name r = oldName)) as [Ho|Ho].
  - rewrite (renameRow_hit oldName newName r Ho).
    rewrite renameRow_hit by reflexivity.
    destruct r; simpl in *; subst; reflexivity.
  - rewrite (renameRow_miss oldName newName r Ho).
    apply renameRow_miss. intros Hn. apply Hnew. rewrite <- Hn. apply in_map, Hr.
Qed.

(** Rename is undone by the opposite rename.  In a table that satisfies
    the invariant, renaming a machine to a free name and then back again
    succeeds twice and yields the table it started from; a rename never
    changes the port that the next registration will receive; and the
    rename of a name that is not in the table reports that the machine was
    not found, whether or not the new name is taken, and changes
    nothing. *)
Theorem RenameMachine_round_trip (d : DB) (oldName newName : gostring) :
  (forall m, Inv d -> GetMachine d oldName = Some m -> GetMachine d newName = None ->
     fst (RenameMachine d oldName newName) = None
     /\ RenameMachine (snd (RenameMachine d oldName newName)) newName oldName
        = (None, d))
  /\ AllocatePort (snd (RenameMachine d oldName newName)) = AllocatePort d
  /\ (GetMachine d oldName = None ->
      RenameMachine d oldName newName = (Some (ErrNotFound oldName), d)).
Proof.
  split; [|split].
  - intros m HI Hold Hnew.
    pose proof (RenameMachine_Inv d oldName newName HI) as HI1.
    assert (Ho : hasName oldName (rows d) = true).
    { apply GetMachine_Some in Hold as [Hin <-]. apply hasName_In, in_map, Hin. }
    apply GetMachine_None in Hnew.
    assert (Hne : oldName <> newName) by congruence.
    destruct HI as [Hnames _ _ _].
    rewrite (RenameMachine_ok d oldName newName Hnames Ho Hnew) in HI1 |- *.
    simpl. split; [reflexivity|].
    destruct HI1 as [Hnames1 _ _ _]. simpl in Hnames1.
    set (d1 := mkDB (map (renameRow oldName newName) (rows d)) (lastID d)).
    assert (Hn1 : hasName newName (rows d1) = true).
    { destruct (hasName newName (rows d1)) eqn:E; [reflexivity|].
      apply (GetMachine_None d1) in E.
      unfold GetMachine, sql_select_by_name in E. simpl in E.
      rewrite find_rename_new in E; [|exact Hne|apply hasName_false, Hnew].
      unfold GetMachine, sql_select_by_name in Hold. rewrite Hold in E. discriminate. }
    assert (Ho1 : hasName oldName (rows d1) = false).
    { apply (GetMachine_None d1). apply find_rename_old, Hne. }
    rewrite (RenameMachine_ok d1 newName oldName Hnames1 Hn1 Ho1). simpl.
    rewrite renameRow_back by (apply hasName_false, Hnew).
    rewrite DB_eta. reflexivity.
  - assert (Hports : map Port (rows (snd (RenameMachine d oldName newName)))
                     = map Port (rows d)).
    { unfold RenameMachine, sql_update_name.
      destruct (_ && _ && _); [reflexivity|].
      destruct (_ =? 0)%Z; simpl; apply renameRow_ports. }
    unfold AllocatePort, sql_select_ports. rewrite Hports. reflexivity.
  - intros H. apply RenameMachine_not_found, GetMachine_None, H.
Qed.

(** TestRenameMachine there and back, and TestRenameMachineNotFound with a
    new name that is taken. *)
Lemma RenameMachine_round_trip_witness :
  (fst (RenameMachine fixtures.two (str "m1") (str "m3")) = None
   /\ RenameMachine (snd (RenameMachine fixtures.two (str "m1") (str "m3")))
                    (str "m3") (str "m1") = (None, fixtures.two))
  /\ RenameMachine fixtures.two (str "ghost") (str "m2")
     = (Some (ErrNotFound (str "ghost")), fixtures.two).
Proof.
  split.
  - apply (proj1 (RenameMachine_round_trip fixtures.two (str "m1") (str "m3"))
             fixtures.row1).
    + apply reachable_Inv. unfold fixtures.two. repeat constructor.
    + vm_compute. reflexivity.
    + vm_compute. reflexivity.
  - apply (proj2 (proj2 (RenameMachine_round_trip fixtures.two (str "ghost") (str "m2")))).
    vm_compute. reflexivity.
Defined.

(** ** The store: the listing *)

Lemma insert_by_port_Permutation m l : Permutation (m :: l) (insert_by_port m l).
Proof.
  induction l as [|x l IH]; simpl; [reflexivity|].
  destruct (Port m <? Port x)%Z; [reflexivity|].
  rewrite perm_swap. apply perm_skip, IH.
Qed.

Lemma insert_by_port_sorted m l :
  StronglySorted (fun a b => (Port a <= Port b)%Z) l ->
  StronglySorted (fun a b => (Port a <= Port b)%Z) (insert_by_port m l).
Proof.
  induction 1 as [|x l Hl IH Hx]; simpl.
  - repeat constructor.
  - destruct (Z.ltb_spec (Port m) (Port x)) as [Hlt|Hge].
    + constructor; [constructor; assumption|].
      constructor; [lia|].
      rewrite Forall_forall in *. intros y Hy. specialize (Hx y Hy). simpl in Hx. lia.
    + constructor; [exact IH|].
      rewrite Forall_forall in *. intros y Hy.
      apply list_elem_of_In in Hy.
      apply (Permutation_in _ (Permutation_sym (insert_by_port_Permutation m l))) in Hy.
      destruct Hy as [<-|Hy]; [lia|]. apply Hx, list_elem_of_In, Hy.
Qed.

Lemma sorted_strict l :
  StronglySorted (fun a b => (Port a <= Port b)%Z) l -> NoDup (map Port l) ->
  StronglySorted (fun a b => (Port a < Port b)%Z) l.
Proof.
  induction 1 as [|x l Hl IH Hx]; simpl; intros Hnd; [constructor|].
  apply NoDup_cons in Hnd as [Hnotin Hnd]. constructor; [apply IH, Hnd|].
  rewrite Forall_forall in *. intros y Hy. specialize (Hx y Hy). simpl in Hx.
  assert (Port x <> Port y); [|lia].
  intros Heq. apply Hnotin. rewrite Heq. apply list_elem_of_In, in_map.
  apply list_elem_of_In, Hy.
Qed.

Lemma order_by_port_Permutation l : Permutation l (fold_right insert_by_port [] l).
Proof.
  induction l as [|m l IH]; simpl; [reflexivity|].
  rewrite <- insert_by_port_Permutation. apply perm_skip, IH.
Qed.

Lemma order_by_port_sorted l :
  StronglySorted (fun a b => (Port a <= Port b)%Z) (fold_right insert_by_port [] l).
Proof.
  induction l as [|m l IH]; simpl; [constructor|].
  apply insert_by_port_sorted, IH.
Qed.

(** The listing.  [ListMachines] returns the rows of the table, each one
    exactly once, in ascending order of their ports; when the ports are
    pairwise distinct, as the schema demands, the order is strict, so that
    a machine registered on the lower port comes first. *)
Theorem ListMachines_ascending (d : DB) :
  Permutation (rows d) (db.ListMachines d)
  /\ length (db.ListMachines d) = length (rows d)
  /\ StronglySorted (fun a b => (Port a <= Port b)%Z) (db.ListMachines d)
  /\ (NoDup (map Port (rows d)) ->
      StronglySorted (fun a b => (Port a < Port b)%Z) (db.ListMachines d)).
Proof.
  unfold db.ListMachines, sql_select_order_by_port.
  pose proof (order_by_port_Permutation (rows d)) as Hperm.
  pose proof (order_by_port_sorted (rows d)) as Hsorted.
  split; [exact Hperm|]. split; [symmetry; apply Permutation_length, Hperm|].
  split; [exact Hsorted|].
  intros Hnd. apply sorted_strict; [exact Hsorted|].
  rewrite <- (Permutation_map Port Hperm). exact Hnd.
Qed.

(** TestListMachines: the table of [m1] and [m2] is listed as [m1], then
    [m2], also when [m2] was inserted first. *)
Lemma ListMachines_ascending_witness :
  StronglySorted (fun a b => (Port a < Port b)%Z)
                 (db.ListMachines (mkDB [fixtures.row2; fixtures.row1] 2))
  /\ db.ListMachines (mkDB [fixtures.row2; fixtures.row1] 2)
     = [fixtures.row1; fixtures.row2].
Proof.
  split; [|reflexivity].
  apply (proj2 (proj2 (proj2
           (ListMachines_ascending (mkDB [fixtures.row2; fixtures.row1] 2))))).
  apply (bool_decide_unpack _). vm_compute. reflexivity.
Defined.

(** ** The store: filling the pool *)

Lemma AllocatePort_next d k :
  map Port (rows d) = seqZ PortMin (Z.of_nat k) -> (k < 78)%nat ->
  AllocatePort d = ((PortMin + Z.of_nat k)%Z, None).
Proof.
  intros Hports Hk. apply AllocatePort_ok. unfold inPool, PortMin, PortMax.
  split; [lia|]. split.
  - intros Hu. apply portUsed_In in Hu. rewrite Hports in Hu.
    apply list_elem_of_In, elem_of_seqZ in Hu. unfold PortMin in Hu. lia.
  - intros q Hq. apply portUsed_In. rewrite Hports.
    apply list_elem_of_In, elem_of_seqZ. unfold PortMin. lia.
Qed.

Lemma createAll_from now ms : forall d k,
  map Port (rows d) = seqZ PortMin (Z.of_nat k) ->
  NoDup (map Name (rows d) ++ map Name ms) ->
  (k + length ms <= 78)%nat ->
  map Port (rows (createAll d now ms)) = seqZ PortMin (Z.of_nat (k + length ms))
  /\ map Name (rows (createAll d now ms)) = map Name (rows d) ++ map Name ms.
Proof.
  induction ms as [|m ms IH]; intros d k Hports Hnd Hlen; simpl in *.
  - rewrite Nat.add_0_r, app_nil_r. auto.
  - assert (Hfree : hasName (Name m) (rows d) = false).
    { apply hasName_false. intros Hin. apply NoDup_app in Hnd as (_ & Hdisj & _).
      apply (Hdisj (Name m)); [apply list_elem_of_In, Hin | left]. }
    rewrite (CreateMachine_ok d now m _ (AllocatePort_next d k Hports ltac:(lia)) Hfree).
    simpl.
    match goal with |- context [createAll ?d1 now ms] =>
      destruct (IH d1 (S k)) as [Hp Hn] end.
    + simpl. rewrite map_app, Hports. simpl. rewrite seqZ_S. reflexivity.
    + simpl. rewrite map_app. simpl. rewrite <- app_assoc. exact Hnd.
    + lia.
    + rewrite Hp, Hn. simpl. rewrite map_app, <- app_assoc.
      split; [f_equal; lia | reflexivity].
Qed.

(** Filling the pool.  Machines with pairwise distinct names, registered
    one after the other on a fresh database, receive the ports of the pool
    in ascending order, starting at [PortMin] and without a gap, as long
    as there are at most 78 of them; once 78 machines are registered,
    every further registration, whatever its name, fails with the error of
    the exhausted pool and leaves the database and the machine of the
    caller as they were. *)
Theorem createAll_fills_pool (now : Z) (ms : list Machine) :
  NoDup (map Name ms) -> (length ms <= 78)%nat ->
  map Port (rows (createAll Open now ms)) = seqZ PortMin (Z.of_nat (length ms))
  /\ map Name (rows (createAll Open now ms)) = map Name ms
  /\ (length ms = 78%nat -> forall now' m,
        CreateMachine (createAll Open now ms) now' m
        = (m, Some (ErrNoPorts 78), createAll Open now ms)).
Proof.
  intros Hnd Hlen.
  destruct (createAll_from now ms Open 0) as [Hp Hn]; simpl; auto.
  split; [exact Hp|]. split; [exact Hn|].
  intros H78 now' m. unfold CreateMachine.
  rewrite (proj2 (AllocatePort_exhausted (createAll Open now ms))); [reflexivity|].
  intros p Hp'. apply portUsed_In. rewrite Hp, H78.
  apply list_elem_of_In, elem_of_seqZ. unfold inPool, PortMin, PortMax in *. lia.
Qed.

(** TestPortAllocation: three machines on a fresh database receive 10022,
    10023 and 10024. *)
Lemma createAll_fills_pool_witness :
  map Port (rows (createAll Open 1
     [fixtures.machine "m1" "a" "key1"; fixtures.machine "m2" "b" "key2";
      fixtures.machine "m3" "c" "key3"]))
  = [10022; 10023; 10024]%Z.
Proof.
  apply (createAll_fills_pool 1
     [fixtures.machine "m1" "a" "key1"; fixtures.machine "m2" "b" "key2";
      fixtures.machine "m3" "c" "key3"]).
  - apply (bool_decide_unpack _). vm_compute. reflexivity.
  - simpl. lia.
Defined.

(** ** The store: the ids *)

Lemma idsFresh_weaken l n n' :
  (n <= n')%Z -> Forall (fun m => (0 < ID m <= n)%Z) l ->
  Forall (fun m => (0 < ID m <= n')%Z) l.
Proof. intros Hle H. eapply Forall_impl; [exact H|]. simpl. intros; lia. Qed.

Lemma lastID_apply d o : (lastID d <= lastID (apply d o))%Z.
Proof.
  destruct o as [now m|oldName newName|name|now name]; simpl.
  - destruct (CreateMachine d now m) as [[m' [e|]] d'] eqn:E.
    + apply CreateMachine_error in E. subst. simpl. lia.
    + apply CreateMachine_success in E as (p & _ & _ & _ & ->). simpl. lia.
  - unfold RenameMachine, sql_update_name.
    destruct (_ && _ && _); [simpl; lia|]. destruct (_ =? 0)%Z; simpl; lia.
  - unfold db.DeleteMachine, sql_delete. destruct (_ =? 0)%Z; simpl; lia.
  - unfold UpdateLastSeen, sql_update_last_seen. destruct (_ =? 0)%Z; simpl; lia.
Qed.

Lemma idsFresh_apply d o : idsFresh d -> idsFresh (apply d o).
Proof.
  intros (H0 & Hnd & Hall).
  destruct o as [now m|oldName newName|name|now name]; simpl.
  - destruct (CreateMachine d now m) as [[m' [e|]] d'] eqn:E.
    + apply CreateMachine_error in E. subst. repeat split; assumption.
    + apply CreateMachine_success in E as (p & _ & _ & _ & ->).
      split; [simpl; lia|]. split; simpl.
      * rewrite map_app. simpl. apply NoDup_app. split; [exact Hnd|].
        split; [|apply NoDup_singleton].
        intros i Hi Hi'. apply list_elem_of_In in Hi, Hi'.
        simpl in Hi'. destruct Hi' as [<-|[]].
        apply in_map_iff in Hi as (r & Hr & Hin).
        rewrite Forall_forall in Hall. apply list_elem_of_In, Hall in Hin. lia.
      * apply Forall_app. split.
        -- apply (idsFresh_weaken _ (lastID d)); [lia|exact Hall].
        -- constructor; [simpl; lia|constructor].
  - unfold RenameMachine, sql_update_name.
    destruct (_ && _ && _); [repeat split; assumption|].
    assert (Hid : map ID (map (renameRow oldName newName) (rows d)) = map ID (rows d)).
    { rewrite map_map. apply map_ext. intros r. unfold renameRow.
      case_bool_decide; reflexivity. }
    assert (idsFresh (mkDB (map (renameRow oldName newName) (rows d)) (lastID d))).
    { split; [exact H0|]. split; simpl; [rewrite Hid; exact Hnd|].
      apply Forall_map. eapply Forall_impl; [exact Hall|].
      intros r Hr. unfold renameRow. simpl. case_bool_decide; exact Hr. }
    destruct (_ =? 0)%Z; assumption.
  - assert (idsFresh (fst (sql_delete d name))).
    { unfold sql_delete. split; [exact H0|]. split; simpl.
      + apply NoDup_map_filter, Hnd.
      + apply Forall_forall. intros r Hr.
        apply list_elem_of_In, filter_In in Hr as [Hr _].
        rewrite Forall_forall in Hall. apply Hall, list_elem_of_In, Hr. }
    unfold db.DeleteMachine. destruct (sql_delete d name) as [d' n].
    destruct (_ =? 0)%Z; assumption.
  - assert (Hid : map ID (map (touchRow now name) (rows d)) = map ID (rows d)).
    { rewrite map_map. apply map_ext. intros r. unfold touchRow.
      case_bool_decide; reflexivity. }
    assert (idsFresh (mkDB (map (touchRow now name) (rows d)) (lastID d))).
    { split; [exact H0|]. split; simpl; [rewrite Hid; exact Hnd|].
      apply Forall_map. eapply Forall_impl; [exact Hall|].
      intros r Hr. unfold touchRow. simpl. case_bool_decide; exact Hr. }
    unfold UpdateLastSeen, sql_update_last_seen. destruct (_ =? 0)%Z; assumption.
Qed.

(** The ids.  In every table that the operations of the store produce
    from a fresh database the ids are positive and pairwise distinct; no
    operation lowers the counter of the ids, whatever happens later; and a
    registration that succeeds hands out an id above the counter, which
    is above the id of every row of the table, so that the id of a
    deleted machine is not given to another one. *)
Theorem ids_never_reused (d : DB) :
  reachable d ->
  idsFresh d
  /\ (forall os, (lastID d <= lastID (fold_left apply os d))%Z)
  /\ (forall now m m' d', CreateMachine d now m = (m', None, d') ->
        (lastID d < ID m')%Z /\ lastID d' = ID m' /\ In (ID m') (map ID (rows d'))
        /\ forall r, In r (rows d) -> (0 < ID r < ID m')%Z).
Proof.
  intros Hr.
  assert (Hfresh : idsFresh d).
  { induction Hr as [|d o _ IH]; [|apply idsFresh_apply, IH].
    split; [simpl; lia|]. split; simpl; constructor. }
  split; [exact Hfresh|]. split.
  - intros os. clear Hr Hfresh. revert d.
    induction os as [|o os IH]; intros d; simpl; [lia|].
    etransitivity; [apply (lastID_apply d o)|apply IH].
  - intros now m m' d' E.
    apply CreateMachine_success in E as (p & _ & _ & -> & ->). simpl.
    split; [lia|]. split; [reflexivity|]. split.
    + rewrite map_app. apply in_or_app. right. left. reflexivity.
    + intros r Hin. destruct Hfresh as (_ & _ & Hall).
      rewrite Forall_forall in Hall. apply list_elem_of_In, Hall in Hin. lia.
Qed.

(** After [m1] of two machines was deleted, a third machine gets the id 3,
    not the id of the deleted machine. *)
Lemma ids_never_reused_witness :
  idsFresh fixtures.onlySecond
  /\ ID (fst (fst (CreateMachine fixtures.onlySecond 3
                     (fixtures.machine "m3" "c" "key3")))) = 3%Z.
Proof.
  split; [|reflexivity].
  apply (ids_never_reused fixtures.onlySecond).
  unfold fixtures.onlySecond, fixtures.two. repeat constructor.
Defined.

(** ** The handlers: regeneration *)

Lemma state_eta st : mkState (store st) (files st) (reloads st) (logs st) = st.
Proof. destruct st; reflexivity. Qed.

Lemma UpdateAuthorizedKeys_ok g io fs machines :
  failMkdirAll io = false -> failWriteAuthKeys io = false ->
  cutWriteAuthKeys io = None ->
  UpdateAuthorizedKeys g io fs machines
  = (None, <[authKeysPath :=
               credentialFile (default [] (fs !! (ServerKey g ++ str ".pub")))
                              machines]> fs).
Proof.
  intros H1 H2 H3.
  destruct (UpdateAuthorizedKeys g io fs machines) as [e fs'] eqn:E.
  assert (He : e = None).
  { unfold UpdateAuthorizedKeys, os_WriteFile in E. rewrite H1, H2, H3 in E.
    congruence. }
  subst e. rewrite (UpdateAuthorizedKeys_keys g io fs machines fs' E).
  destruct (fs !! _); reflexivity.
Qed.

Lemma UpdateAuthorizedKeys_refused g io fs machines :
  failMkdirAll io || failWriteAuthKeys io = true ->
  exists e, UpdateAuthorizedKeys g io fs machines = (Some e, fs).
Proof.
  intros H. unfold UpdateAuthorizedKeys, os_WriteFile.
  destruct (failMkdirAll io); [eauto|]. simpl in H. rewrite H. eauto.
Qed.

Lemma UpdateAuthorizedKeys_unfold g io fs machines :
  UpdateAuthorizedKeys g io fs machines
  = if failMkdirAll io then (Some (ErrMkdirAll (str "/home/bastion/.ssh")), fs)
    else os_WriteFile (failWriteAuthKeys io) (cutWriteAuthKeys io) fs authKeysPath
           (credentialFile (default [] (fs !! (ServerKey g ++ str ".pub"))) machines).
Proof.
  unfold UpdateAuthorizedKeys. destruct (failMkdirAll io); [reflexivity|].
  f_equal. rewrite fold_left_append. unfold credentialFile.
  rewrite (map_ext authorizedKeysEntry (fun m => grantEntry (Port m) (PublicKey m)))
    by apply authorizedKeysEntry_grantEntry.
  destruct (fs !! (ServerKey g ++ str ".pub")) as [k|]; [|reflexivity].
  cbn [default from_option id]. rewrite <- firstEntry_code. reflexivity.
Qed.

Lemma UpdateAuthorizedKeys_cut g io fs machines n :
  failMkdirAll io || failWriteAuthKeys io = false ->
  cutWriteAuthKeys io = Some n ->
  UpdateAuthorizedKeys g io fs machines
  = (Some (ErrWriteFile authKeysPath),
     <[authKeysPath :=
         take n (credentialFile (default [] (fs !! (ServerKey g ++ str ".pub")))
                                machines)]> fs).
Proof.
  intros H Hn. apply orb_false_elim in H as [H1 H2].
  rewrite UpdateAuthorizedKeys_unfold. unfold os_WriteFile.
  rewrite H1, H2, Hn. reflexivity.
Qed.

Lemma Generate_refused g io fs machines :
  failCreateConfig io = true -> Generate g io fs machines = (Some ErrCreateConfig, fs).
Proof. intros H. unfold Generate. rewrite H. reflexivity. Qed.

Lemma Generate_cut g io fs machines n :
  failCreateConfig io = false -> cutExecute io = Some n ->
  Generate g io fs machines
  = (Some ErrExecute,
     <[ConfigPath g := take n (routingDocument (KeysDir g) (ServerKey g) machines)]> fs).
Proof.
  intros H Hn. unfold Generate. rewrite H, Hn, Execute_sshpiperTemplate.
  rewrite insert_insert_eq. reflexivity.
Qed.

Lemma regenerateConfig_ok h io st :
  failListMachines io = false -> failCreateConfig io = false ->
  cutExecute io = None ->
  failMkdirAll io = false -> failWriteAuthKeys io = false ->
  cutWriteAuthKeys io = None ->
  regenerateConfig h io st
  = (None,
     let machines := db.ListMachines (store st) in
     let fs := <[ConfigPath (Gen h) :=
                   routingDocument (KeysDir (Gen h)) (ServerKey (Gen h)) machines]>
                 (files st) in
     mkState (store st)
       (<[authKeysPath :=
            credentialFile (default [] (fs !! (ServerKey (Gen h) ++ str ".pub")))
                           machines]> fs)
       (if OnChange h then S (reloads st) else reloads st)
       (logs st)).
Proof.
  intros H1 H2 H2' H3 H4 H4'. unfold regenerateConfig.
  rewrite H1, (Generate_ok _ _ _ _ H2 H2'). cbn [setFiles files store reloads logs].
  rewrite (UpdateAuthorizedKeys_ok _ _ _ _ H3 H4 H4').
  destruct (OnChange h); reflexivity.
Qed.

(** Regeneration, for every combination of failures.  [regenerateConfig]
    returns an error exactly when the listing, the creation of the
    routing config or a write to it fails.  After a failed listing or
    creation nothing has changed; after a failed write the routing config
    holds only what was written before the failure; in all three cases
    the reload hook has not run and nothing is logged.  Otherwise the
    routing config is rewritten from the listing and the hook, when there
    is one, runs once: also when the credential file could not be
    written, in which case one warning is logged and that file keeps its
    old content (when it could not be opened) or holds only what was
    written before the failure.  In no case does it change the table or
    a file other than the routing config and the credential file. *)
Theorem regenerateConfig_effects (h : Handlers) (io : Faults) (st : state) :
  (fst (regenerateConfig h io st) <> None
     <-> failListMachines io = true \/ failCreateConfig io = true
         \/ cutExecute io <> None)
  /\ (failListMachines io = true \/ failCreateConfig io = true ->
      snd (regenerateConfig h io st) = st)
  /\ (forall n,
        failListMachines io = false -> failCreateConfig io = false ->
        cutExecute io = Some n ->
        regenerateConfig h io st
        = (Some ErrExecute,
           setFiles st
             (<[ConfigPath (Gen h) :=
                  take n (routingDocument (KeysDir (Gen h)) (ServerKey (Gen h))
                                          (db.ListMachines (store st)))]> (files st))))
  /\ (fst (regenerateConfig h io st) = None ->
        reloads (snd (regenerateConfig h io st))
          = (if OnChange h then S (reloads st) else reloads st)
        /\ (failMkdirAll io || failWriteAuthKeys io = true ->
              files (snd (regenerateConfig h io st))
                = <[ConfigPath (Gen h) :=
                      routingDocument (KeysDir (Gen h)) (ServerKey (Gen h))
                                      (db.ListMachines (store st))]> (files st)
              /\ exists e, logs (snd (regenerateConfig h io st))
                           = logs st ++ [LogAuthorizedKeys e])
        /\ (forall n,
              failMkdirAll io || failWriteAuthKeys io = false ->
              cutWriteAuthKeys io = Some n ->
              files (snd (regenerateConfig h io st))
                = (let fs := <[ConfigPath (Gen h) :=
                                 routingDocument (KeysDir (Gen h)) (ServerKey (Gen h))
                                                 (db.ListMachines (store st))]>
                               (files st) in
                   <[authKeysPath :=
                       take n (credentialFile
                                 (default [] (fs !! (ServerKey (Gen h) ++ str ".pub")))
                                 (db.ListMachines (store st)))]> fs)
              /\ logs (snd (regenerateConfig h io st))
                 = logs st ++ [LogAuthorizedKeys (ErrWriteFile authKeysPath)])
        /\ (failMkdirAll io || failWriteAuthKeys io = false ->
            cutWriteAuthKeys io = None ->
            files (snd (regenerateConfig h io st))
              = (let fs := <[ConfigPath (Gen h) :=
                               routingDocument (KeysDir (Gen h)) (ServerKey (Gen h))
                                               (db.ListMachines (store st))]>
                             (files st) in
                 <[authKeysPath :=
                     credentialFile
                       (default [] (fs !! (ServerKey (Gen h) ++ str ".pub")))
                       (db.ListMachines (store st))]> fs)
            /\ logs (snd (regenerateConfig h io st)) = logs st))
  /\ (fst (regenerateConfig h io st) <> None ->
        reloads (snd (regenerateConfig h io st)) = reloads st
        /\ logs (snd (regenerateConfig h io st)) = logs st)
  /\ store (snd (regenerateConfig h io st)) = store st
  /\ (forall p, p <> ConfigPath (Gen h) -> p <> authKeysPath ->
        files (snd (regenerateConfig h io st)) !! p = files st !! p).
Proof.
  destruct (failListMachines io) eqn:H1.
  { unfold regenerateConfig. rewrite H1. cbn [fst snd].
    split; [split; [auto|discriminate]|]. split; [reflexivity|].
    split; [discriminate|]. split; [discriminate|]. auto. }
  destruct (failCreateConfig io) eqn:H2.
  { unfold regenerateConfig. rewrite H1, (Generate_refused _ _ _ _ H2).
    unfold setFiles. rewrite state_eta. cbn [fst snd].
    split; [split; [auto|discriminate]|]. split; [reflexivity|].
    split; [discriminate|]. split; [discriminate|]. auto. }
  destruct (cutExecute io) as [k|] eqn:H2'.
  { unfold regenerateConfig. rewrite H1, (Generate_cut _ _ _ _ k H2 H2').
    cbn [fst snd setFiles files store reloads logs].
    split; [split; [intros _; right; right; discriminate|discriminate]|].
    split; [intros [?|?]; discriminate|].
    split; [intros n _ _ [= <-]; reflexivity|].
    split; [discriminate|]. split; [auto|]. split; [reflexivity|].
    intros p Hp _. apply lookup_insert_ne. congruence. }
  assert (Hok : forall x : option config.error * state,
            fst x = None ->
            (fst x <> None <-> false = true \/ false = true \/ @None nat <> None)).
  { intros x ->. split; [intros H; exfalso; apply H; reflexivity|].
    intros [?|[?|?]]; try discriminate. exfalso; auto. }
  destruct (failMkdirAll io || failWriteAuthKeys io) eqn:H3.
  - unfold regenerateConfig. rewrite H1, (Generate_ok _ _ _ _ H2 H2').
    cbn [setFiles files store reloads logs].
    destruct (UpdateAuthorizedKeys_refused (Gen h) io
                (<[ConfigPath (Gen h) :=
                     routingDocument (KeysDir (Gen h)) (ServerKey (Gen h))
                                     (db.ListMachines (store st))]> (files st))
                (db.ListMachines (store st)) H3) as [e ->].
    assert (Hnone : forall s : state, fst (@None config.error, s) = None)
      by reflexivity.
    split; [apply Hok; destruct (OnChange h); reflexivity|].
    split; [intros [?|?]; discriminate|]. split; [discriminate|].
    split.
    { intros _. split; [destruct (OnChange h); reflexivity|].
      split; [intros _|split; discriminate].
      split; [destruct (OnChange h); reflexivity|].
      exists e. destruct (OnChange h); reflexivity. }
    split; [intros H; exfalso; apply H; destruct (OnChange h); reflexivity|].
    split; [destruct (OnChange h); reflexivity|].
    intros p Hp _.
    replace (files _) with
      (<[ConfigPath (Gen h) :=
           routingDocument (KeysDir (Gen h)) (ServerKey (Gen h))
                           (db.ListMachines (store st))]> (files st))
      by (destruct (OnChange h); reflexivity).
    apply lookup_insert_ne. congruence.
  - destruct (cutWriteAuthKeys io) as [k|] eqn:H4.
    + unfold regenerateConfig. rewrite H1, (Generate_ok _ _ _ _ H2 H2').
      cbn [setFiles files store reloads logs].
      rewrite (UpdateAuthorizedKeys_cut _ _ _ _ k H3 H4).
      split; [apply Hok; destruct (OnChange h); reflexivity|].
      split; [intros [?|?]; discriminate|]. split; [discriminate|].
      split.
      { intros _. split; [destruct (OnChange h); reflexivity|].
        split; [discriminate|]. split; [|intros _; discriminate].
        intros n _ [= <-]. split; destruct (OnChange h); reflexivity. }
      split; [intros H; exfalso; apply H; destruct (OnChange h); reflexivity|].
      split; [destruct (OnChange h); reflexivity|].
      intros p Hp Hq.
      replace (files _) with
        (<[authKeysPath :=
             take k (credentialFile
                       (default []
                          (<[ConfigPath (Gen h) :=
                               routingDocument (KeysDir (Gen h)) (ServerKey (Gen h))
                                               (db.ListMachines (store st))]>
                             (files st) !! (ServerKey (Gen h) ++ str ".pub")))
                       (db.ListMachines (store st)))]>
           (<[ConfigPath (Gen h) :=
                routingDocument (KeysDir (Gen h)) (ServerKey (Gen h))
                                (db.ListMachines (store st))]> (files st)))
        by (destruct (OnChange h); reflexivity).
      rewrite !lookup_insert_ne by congruence. reflexivity.
    + apply orb_false_elim in H3 as [H3 H3'].
      rewrite (regenerateConfig_ok h io st H1 H2 H2' H3 H3' H4). cbn [fst snd].
      split; [exact (Hok (None, st) eq_refl)|].
      split; [intros [?|?]; discriminate|]. split; [discriminate|].
      split.
      { intros _. split; [reflexivity|]. split; [discriminate|].
        split; [discriminate|]. intros _ _. split; reflexivity. }
      split; [intros H; exfalso; apply H; reflexivity|].
      split; [reflexivity|].
      intros p Hp Hq. cbn [files].
      rewrite !lookup_insert_ne by congruence. reflexivity.
Qed.

(** ** The handlers: the files follow the table *)

Lemma insert_by_port_map (f : Machine -> Machine) m l :
  (forall r, Port (f r) = Port r) ->
  insert_by_port (f m) (map f l) = map f (insert_by_port m l).
Proof.
  intros Hf. induction l as [|x l IH]; simpl; [reflexivity|].
  rewrite !Hf. destruct (Port m <? Port x)%Z; [reflexivity|].
  simpl. rewrite IH. reflexivity.
Qed.

Lemma ListMachines_touch d now name :
  db.ListMachines (snd (UpdateLastSeen d now name))
  = map (touchRow now name) (db.ListMachines d).
Proof.
  unfold db.ListMachines, sql_select_order_by_port. rewrite UpdateLastSeen_rows.
  induction (rows d) as [|m l IH]; simpl; [reflexivity|].
  rewrite IH. apply insert_by_port_map.
  intros r. unfold touchRow. case_bool_decide; reflexivity.
Qed.

Lemma routingDocument_touch keysDir serverKey now name l :
  routingDocument keysDir serverKey (map (touchRow now name) l)
  = routingDocument keysDir serverKey l.
Proof.
  unfold routingDocument. rewrite map_map.
  rewrite (map_ext (fun x => routingRule keysDir serverKey (touchRow now name x))
                   (routingRule keysDir serverKey)); [reflexivity|].
  intros r. unfold touchRow. case_bool_decide; reflexivity.
Qed.

Lemma credentialFile_touch serverPubKey now name l :
  credentialFile serverPubKey (map (touchRow now name) l)
  = credentialFile serverPubKey l.
Proof.
  unfold credentialFile. rewrite map_map.
  rewrite (map_ext (fun x => grantEntry (Port (touchRow now name x))
                                        (PublicKey (touchRow now name x)))
                   (fun m => grantEntry (Port m) (PublicKey m))); [reflexivity|].
  intros r. unfold touchRow. case_bool_decide; reflexivity.
Qed.

Lemma inSync_regenerated h st :
  ConfigPath (Gen h) <> authKeysPath ->
  authKeysPath <> ServerKey (Gen h) ++ str ".pub" ->
  inSync h (snd (regenerateConfig h noFaults st)).
Proof.
  intros H1 H2. rewrite regenerateConfig_ok by reflexivity.
  unfold inSync. cbn [snd files store]. split.
  - rewrite lookup_insert_ne by congruence. apply lookup_insert_eq.
  - rewrite lookup_insert_eq. rewrite (lookup_insert_ne _ authKeysPath) by exact H2.
    reflexivity.
Qed.

Lemma inSync_same h st st' :
  files st' = files st -> store st' = store st -> inSync h st -> inSync h st'.
Proof. unfold inSync. intros -> ->. tauto. Qed.

(** The files follow the table.  When the routing config, the credential
    file and the public key of the server are different files and the
    operating system refuses nothing, every request to [Register],
    [DeleteMachine] and [Heartbeat], accepted or refused, leaves the
    routing config and the credential file in agreement with the table:
    the config holds one rule per machine and the credential file the
    server key and one entry per machine, both in the order of the
    ports.  A heartbeat keeps them so without writing a file. *)
Theorem serve_keeps_files_in_sync (h : Handlers) (st : state) (r : request) :
  ConfigPath (Gen h) <> authKeysPath ->
  authKeysPath <> ServerKey (Gen h) ++ str ".pub" ->
  inSync h st ->
  inSync h (snd (serve h noFaults st r))
  /\ (forall now body, r = PostHeartbeat now body ->
        files (snd (serve h noFaults st r)) = files st).
Proof.
  intros H1 H2 Hsync. split.
  - destruct r as [now [req|]|name|now [name|]]; cbn [serve];
      [|exact Hsync| | |exact Hsync].
    + destruct (Register_validation h noFaults now st req) as [Hwf|[msg ->]];
        [|exact Hsync].
      rewrite (Register_wellFormed h noFaults now st req Hwf).
      destruct (db.GetMachine (store st) (reqName req)); [exact Hsync|].
      destruct (db.CreateMachine (store st) now (newMachine req))
        as [[m [e|]] d] eqn:E.
      * apply CreateMachine_error in E. subst d.
        apply (inSync_same h st); [reflexivity|reflexivity|exact Hsync].
      * cbn [snd].
        match goal with |- context [regenerateConfig h noFaults ?s] =>
          pose proof (inSync_regenerated h s H1 H2) as Hs;
          rewrite (regenerateConfig_ok h noFaults s) in Hs |- * by reflexivity
        end.
        exact Hs.
    + unfold DeleteMachine.
      destruct (db.GetMachine (store st) name) as [m|] eqn:Hm.
      * rewrite (DeleteMachine_found _ _ _ Hm). cbn [snd].
        match goal with |- context [regenerateConfig h noFaults ?s] =>
          pose proof (inSync_regenerated h s H1 H2) as Hs;
          rewrite (regenerateConfig_ok h noFaults s) in Hs |- * by reflexivity
        end.
        exact Hs.
      * rewrite (DeleteMachine_not_found _ _ Hm). simpl.
        apply (inSync_same h st); [reflexivity|reflexivity|exact Hsync].
    + unfold Heartbeat. case_bool_decide; [exact Hsync|].
      assert (Ht : inSync h (setStore st (snd (UpdateLastSeen (store st) now name)))).
      { destruct Hsync as [Hc Ha]. unfold inSync. cbn [setStore files store].
        rewrite ListMachines_touch, routingDocument_touch, credentialFile_touch.
        split; assumption. }
      destruct (UpdateLastSeen (store st) now name) as [[e|] d]; exact Ht.
  - intros now body ->. simpl. unfold Heartbeat.
    destruct body as [name|]; [|reflexivity].
    case_bool_decide; [reflexivity|].
    destruct (UpdateLastSeen (store st) now name) as [[e|] d]; reflexivity.
Qed.

(** [bob] registers on the server of [alice]. *)
Lemma serve_keeps_files_in_sync_witness :
  inSync fixtures.handlers
    (snd (serve fixtures.handlers noFaults fixtures.withAlice
            (PostRegister 2 (Some fixtures.bob)))).
Proof.
  apply (serve_keeps_files_in_sync fixtures.handlers fixtures.withAlice
           (PostRegister 2 (Some fixtures.bob))).
  - discriminate.
  - discriminate.
  - unfold inSync. split; vm_compute; reflexivity.
Defined.

(** ** path/filepath *)









(** ** cmd/bastiond: the files at startup *)

Lemma WriteKey_noFaults g fs name publicKey :
  WriteKey g noFaults fs name publicKey
  = (None, <[keyPath g name := publicKey ++ [NL]]> fs).
Proof. reflexivity. Qed.






(** ** The handlers: what a registration and a deletion write *)

Lemma CreateMachine_fields d now m m' d' :
  db.CreateMachine d now m = (m', None, d') ->
  Name m' = Name m /\ PublicKey m' = PublicKey m.
Proof.
  intros E. apply CreateMachine_success in E as (p & _ & _ & -> & _).
  split; reflexivity.
Qed.

(** What a registration writes.  When the operating system refuses
    nothing and the generated files have different paths, an accepted
    registration writes the submitted key and a newline to the key file
    of the machine, leaves every file other than the key file, the
    routing config and the credential file as it was, runs the reload
    hook once, logs nothing, and answers with the name, the allocated
    port, the server URL, tunnel port 2222, the user [bastion] and the
    public key of the server without its surrounding white space (empty
    when the key file of the server cannot be read). *)
Theorem Register_writes_key_file
    (h : Handlers) (now : Z) (st : state) (req : registerRequest)
    (m : Machine) (d : DB) :
  wellFormed req -> db.GetMachine (store st) (reqName req) = None ->
  db.CreateMachine (store st) now (newMachine req) = (m, None, d) ->
  separated (Gen h) (reqName req) ->
  fst (Register h noFaults now st (Some req))
    = jsonCreated
        (mkRegisterResponse (reqName req) (Port m) (ServerURL h) 2222 (str "bastion")
           (TrimSpace (default [] (files st !! (ServerKey (Gen h) ++ str ".pub")))))
  /\ files (snd (Register h noFaults now st (Some req)))
       !! keyPath (Gen h) (reqName req) = Some (reqPublicKey req ++ [NL])
  /\ (forall p, p <> keyPath (Gen h) (reqName req) -> p <> ConfigPath (Gen h) ->
        p <> authKeysPath ->
        files (snd (Register h noFaults now st (Some req))) !! p = files st !! p)
  /\ reloads (snd (Register h noFaults now st (Some req)))
     = (if OnChange h then S (reloads st) else reloads st)
  /\ logs (snd (Register h noFaults now st (Some req))) = logs st.
Proof.
  intros Hwf Hfree Hcreate (S1 & S2 & S3 & S4 & S5 & S6).
  rewrite (Register_wellFormed h noFaults now st req Hwf), Hfree, Hcreate.
  destruct (CreateMachine_fields _ _ _ _ _ Hcreate) as [Hn Hk].
  simpl in Hn, Hk. rewrite Hn, Hk.
  cbv zeta. rewrite WriteKey_noFaults.
  rewrite regenerateConfig_ok by reflexivity.
  cbn [fst snd files store reloads logs setFiles setStore].
  fold (keyPath (Gen h) (reqName req)).
  split; [|split; [|split; [|split]]].
  - rewrite !lookup_insert_ne by congruence.
    destruct (files st !! (ServerKey (Gen h) ++ str ".pub")); reflexivity.
  - rewrite !lookup_insert_ne by congruence. apply lookup_insert_eq.
  - intros p P1 P2 P3. rewrite !lookup_insert_ne by congruence. reflexivity.
  - reflexivity.
  - reflexivity.
Qed.

(** TestRegisterSuccess, on a server with a server key. *)
Lemma Register_writes_key_file_witness :
  fst (Register fixtures.handlers noFaults 1 fixtures.fresh (Some fixtures.alice))
    = jsonCreated
        (mkRegisterResponse (str "alice-mac") 10022 (str "bastion.example.com") 2222
           (str "bastion") (str "ssh-ed25519 SERVER bastion-server"))
  /\ files (snd (Register fixtures.handlers noFaults 1 fixtures.fresh
                   (Some fixtures.alice)))
       !! str "/data/keys/alice-mac.pub"
     = Some (str "ssh-ed25519 AAAA alice" ++ [NL]).
Proof.
  pose proof (Register_writes_key_file fixtures.handlers 1 fixtures.fresh
                fixtures.alice
                (db.mkMachine 1 (str "alice-mac") (str "alice") 10022 (str "alice")
                              (str "ssh-ed25519 AAAA alice") 0 None)
                (snd (db.CreateMachine db.Open 1 (newMachine fixtures.alice)))) as H.
  destruct H as (Hresp & Hkey & _).
  - unfold wellFormed. vm_compute. repeat split; discriminate.
  - vm_compute. reflexivity.
  - vm_compute. reflexivity.
  - unfold separated. repeat split; discriminate.
  - split; [exact Hresp | exact Hkey].
Defined.

Lemma CreateMachine_then_DeleteMachine d now m m' d' :
  db.CreateMachine d now m = (m', None, d') ->
  db.DeleteMachine d' (Name m) = (None, mkDB (rows d) (lastID d + 1)).
Proof.
  intros E. apply CreateMachine_success in E as (p & _ & Hfree & _ & ->).
  erewrite DeleteMachine_found.
  - cbn [rows lastID]. f_equal. f_equal.
    rewrite List.filter_app. simpl. rewrite bool_decide_eq_true_2 by reflexivity.
    simpl. rewrite app_nil_r. apply filter_all.
    intros r Hr. apply negb_true_iff, bool_decide_eq_false. intros Hn.
    apply hasName_false in Hfree. apply Hfree. rewrite <- Hn. apply in_map, Hr.
  - unfold db.GetMachine, sql_select_by_name. cbn [rows].
    apply find_appended; [exact Hfree|reflexivity].
Qed.







(** Registration and deletion cancel.  When the operating system refuses
    nothing, the generated files have different paths and the files agree
    with the table, registering a machine and deleting it again restores
    the rows of the table and every file, except that the key file of the
    machine is gone; the port that the machine held is the one the next
    registration receives, while the counter of the ids has advanced by
    one. *)
Theorem Register_then_DeleteMachine
    (h : Handlers) (now : Z) (st : state) (req : registerRequest)
    (m : Machine) (d : DB) :
  wellFormed req -> db.GetMachine (store st) (reqName req) = None ->
  db.CreateMachine (store st) now (newMachine req) = (m, None, d) ->
  separated (Gen h) (reqName req) -> inSync h st ->
  fst (DeleteMachine h noFaults (snd (Register h noFaults now st (Some req)))
         (reqName req)) = jsonOK
  /\ store (snd (DeleteMachine h noFaults
                   (snd (Register h noFaults now st (Some req))) (reqName req)))
     = mkDB (rows (store st)) (lastID (store st) + 1)
  /\ files (snd (DeleteMachine h noFaults
                   (snd (Register h noFaults now st (Some req))) (reqName req)))
     = delete (keyPath (Gen h) (reqName req)) (files st)
  /\ fst (AllocatePort (store (snd (DeleteMachine h noFaults
            (snd (Register h noFaults now st (Some req))) (reqName req)))))
     = Port m.
Proof.
  intros Hwf Hfree Hcreate (S1 & S2 & S3 & S4 & S5 & S6) [Hcfg Hauth].
  pose proof (CreateMachine_then_DeleteMachine _ _ _ _ _ Hcreate) as Hdel.
  cbn [newMachine Name] in Hdel.
  rewrite (Register_wellFormed h noFaults now st req Hwf), Hfree, Hcreate.
  destruct (CreateMachine_fields _ _ _ _ _ Hcreate) as [Hn Hk].
  simpl in Hn, Hk. rewrite Hn, Hk.
  cbv zeta. rewrite WriteKey_noFaults.
  rewrite regenerateConfig_ok by reflexivity.
  cbn [fst snd files store reloads logs setFiles setStore].
  unfold DeleteMachine. cbn [store]. rewrite Hdel. cbv zeta.
  rewrite regenerateConfig_ok by reflexivity.
  cbn [fst snd files store reloads logs setFiles setStore].
  fold (keyPath (Gen h) (reqName req)).
  assert (Hlist : db.ListMachines (mkDB (rows (store st)) (lastID (store st) + 1))
                  = db.ListMachines (store st)) by reflexivity.
  rewrite Hlist.
  split; [reflexivity|]. split; [reflexivity|]. split.
  - unfold RemoveKey. fold (keyPath (Gen h) (reqName req)).
    rewrite !lookup_insert_ne by congruence. rewrite lookup_insert_eq.
    cbn [snd failRemoveKey noFaults].
    apply map_eq. intros p.
    destruct (decide (p = authKeysPath)) as [->|Pa].
    { rewrite lookup_insert_eq. rewrite !lookup_delete_ne by congruence.
      rewrite !lookup_insert_ne by congruence. rewrite Hauth. reflexivity. }
    rewrite lookup_insert_ne by congruence.
    destruct (decide (p = ConfigPath (Gen h))) as [->|Pc].
    { rewrite lookup_insert_eq, lookup_delete_ne by congruence.
      rewrite Hcfg. reflexivity. }
    rewrite lookup_insert_ne by congruence.
    destruct (decide (p = keyPath (Gen h) (reqName req))) as [->|Pk].
    { rewrite !lookup_delete_eq. reflexivity. }
    rewrite !lookup_delete_ne by congruence.
    rewrite !lookup_insert_ne by congruence. reflexivity.
  - apply CreateMachine_success in Hcreate as (p & Hp & _ & -> & _).
    cbn [Port setID setPort].
    unfold AllocatePort, sql_select_ports in *. cbn [rows]. rewrite Hp. reflexivity.
Qed.

(** [alice] registers on the fresh server after its files were generated,
    and is deleted again. *)
Lemma Register_then_DeleteMachine_witness :
  files (snd (DeleteMachine fixtures.handlers noFaults
                (snd (Register fixtures.handlers noFaults 1
                        (snd (regenerateConfig fixtures.handlers noFaults
                                fixtures.fresh))
                        (Some fixtures.alice)))
                (str "alice-mac")))
  = delete (str "/data/keys/alice-mac.pub")
           (files (snd (regenerateConfig fixtures.handlers noFaults fixtures.fresh))).
Proof.
  apply (Register_then_DeleteMachine fixtures.handlers 1
           (snd (regenerateConfig fixtures.handlers noFaults fixtures.fresh))
           fixtures.alice
           (db.mkMachine 1 (str "alice-mac") (str "alice") 10022 (str "alice")
                         (str "ssh-ed25519 AAAA alice") 0 None)
           (snd (db.CreateMachine db.Open 1 (newMachine fixtures.alice)))).
  - unfold wellFormed. vm_compute. repeat split; discriminate.
  - vm_compute. reflexivity.
  - vm_compute. reflexivity.
  - unfold separated. repeat split; discriminate.
  - unfold inSync. split; vm_compute; reflexivity.
Defined.

(** ** The handlers: the exhausted pool *)

(** The exhausted pool.  A registration that passes the validation and
    names a machine that is not in the table fails with status 500
    exactly when every port of the pool is held; it then changes neither
    the table nor a file, does not run the reload hook, and leaves one
    line about the exhausted pool in the log. *)
Theorem Register_fails_on_full_pool
    (h : Handlers) (io : Faults) (now : Z) (st : state) (req : registerRequest) :
  wellFormed req -> db.GetMachine (store st) (reqName req) = None ->
  (fst (Register h io now st (Some req))
     = jsonError MsgFailedRegister StatusInternalServerError
   <-> forall p, inPool p -> portUsed (store st) p)
  /\ ((forall p, inPool p -> portUsed (store st) p) ->
      snd (Register h io now st (Some req))
      = logPrintf st (LogCreating (ErrNoPorts 78))).
Proof.
  intros Hwf Hfree.
  assert (Hfull : (forall p, inPool p -> portUsed (store st) p) ->
                  Register h io now st (Some req)
                  = (jsonError MsgFailedRegister StatusInternalServerError,
                     logPrintf st (LogCreating (ErrNoPorts 78)))).
  { intros H. apply AllocatePort_exhausted in H.
    rewrite (Register_wellFormed h io now st req Hwf), Hfree.
    unfold db.CreateMachine. rewrite H. unfold setStore. rewrite state_eta.
    reflexivity. }
  split; [split|].
  - intros Herr. destruct (AllocatePort_cases (store st)) as [[p Hp]|Hex].
    + exfalso. apply GetMachine_None in Hfree.
      pose proof (CreateMachine_ok (store st) now (newMachine req) p Hp Hfree) as Hc.
      destruct (Register_created h io now st req _ _ Hwf
                  (proj2 (GetMachine_None _ _) Hfree) Hc) as (r & Hr & _).
      congruence.
    + apply AllocatePort_exhausted, Hex.
  - intros H. rewrite (Hfull H). reflexivity.
  - intros H. rewrite (Hfull H). reflexivity.
Qed.

(** The 79th machine. *)
Lemma Register_fails_on_full_pool_witness :
  fst (Register fixtures.handlers noFaults 2 (mkState full ∅ 0 []) (Some fixtures.alice))
  = jsonError MsgFailedRegister StatusInternalServerError.
Proof.
  apply (Register_fails_on_full_pool fixtures.handlers noFaults 2
           (mkState full ∅ 0 []) fixtures.alice).
  - unfold wellFormed. vm_compute. repeat split; discriminate.
  - vm_compute. reflexivity.
  - apply AllocatePort_exhausted. vm_compute. reflexivity.
Defined.

(** ** The handlers: heartbeat *)

(** The heartbeat request.  A body that is not JSON or has no name is
    answered with status 400, and the name of a machine that is not in
    the table with status 404 and the error of the store; neither changes
    anything.  The name is not held against the name rule.  For a
    registered machine the answer is 200 and the row gets the time of the
    request as its last-seen time; no heartbeat, accepted or refused,
    writes a file, runs the reload hook or logs a line, and the port that
    the next registration receives stays the same. *)
Theorem Heartbeat_handler (now : Z) (st : state) (body : option gostring) :
  (body = None \/ body = Some [] ->
     Heartbeat now st body = (jsonError MsgNameRequired StatusBadRequest, st))
  /\ (forall name, body = Some name -> name <> [] ->
        (db.GetMachine (store st) name = None ->
           Heartbeat now st body
           = (jsonError (MsgStore (ErrNotFound name)) StatusNotFound, st))
        /\ (forall m, db.GetMachine (store st) name = Some m ->
              fst (Heartbeat now st body) = jsonOK
              /\ db.GetMachine (store (snd (Heartbeat now st body))) name
                 = Some (setLastSeen m (Some now))))
  /\ files (snd (Heartbeat now st body)) = files st
  /\ reloads (snd (Heartbeat now st body)) = reloads st
  /\ logs (snd (Heartbeat now st body)) = logs st
  /\ AllocatePort (store (snd (Heartbeat now st body))) = AllocatePort (store st).
Proof.
  split; [|split].
  - intros [->| ->]; reflexivity.
  - intros name -> Hne. unfold Heartbeat.
    rewrite bool_decide_eq_false_2 by exact Hne. split.
    + intros H. unfold UpdateLastSeen, sql_update_last_seen.
      apply countName_find in H. rewrite H. simpl.
      apply countName_0 in H. rewrite touchRow_absent by exact H.
      rewrite DB_eta. unfold setStore. rewrite state_eta. reflexivity.
    + intros m Hm. unfold UpdateLastSeen, sql_update_last_seen.
      destruct (countName name (rows (store st))) as [|k] eqn:Hc.
      { apply countName_find in Hc.
        unfold db.GetMachine, sql_select_by_name in Hm. congruence. }
      simpl. split; [reflexivity|].
      unfold db.GetMachine, sql_select_by_name in *. simpl.
      rewrite find_touch, Hm. simpl. unfold touchRow.
      apply find_some in Hm as [_ Hname]. rewrite Hname. reflexivity.
  - assert (Hst : files (snd (Heartbeat now st body)) = files st
                  /\ reloads (snd (Heartbeat now st body)) = reloads st
                  /\ logs (snd (Heartbeat now st body)) = logs st
                  /\ map Port (rows (store (snd (Heartbeat now st body))))
                     = map Port (rows (store st))).
    { unfold Heartbeat. destruct body as [name|]; [|auto].
      case_bool_decide; [auto|].
      pose proof (UpdateLastSeen_rows (store st) now name) as Hr.
      destruct (UpdateLastSeen (store st) now name) as [[e|] d]; simpl in *;
        rewrite Hr, map_map; repeat split;
        apply map_ext; intros r; unfold touchRow; case_bool_decide; reflexivity. }
    destruct Hst as (H1 & H2 & H3 & H4).
    split; [exact H1|]. split; [exact H2|]. split; [exact H3|].
    unfold AllocatePort, sql_select_ports. rewrite H4. reflexivity.
Qed.

(** TestHeartbeat and TestHeartbeatNotFound. *)
Lemma Heartbeat_handler_witness :
  Heartbeat 5 fixtures.withAlice (Some (str "ghost"))
  = (jsonError (MsgStore (ErrNotFound (str "ghost"))) StatusNotFound,
     fixtures.withAlice)
  /\ fst (Heartbeat 5 fixtures.withAlice (Some (str "alice-mac"))) = jsonOK.
Proof.
  split.
  - apply (proj1 (proj2 (Heartbeat_handler 5 fixtures.withAlice (Some (str "ghost"))))
             (str "ghost") eq_refl ltac:(discriminate)).
    vm_compute. reflexivity.
  - apply (proj2 (proj1 (proj2 (Heartbeat_handler 5 fixtures.withAlice
                                  (Some (str "alice-mac"))))
                    (str "alice-mac") eq_refl ltac:(discriminate))
             (db.mkMachine 1 (str "alice-mac") (str "alice") 10022 (str "alice")
                           (str "ssh-ed25519 AAAA alice") 1 None)).
    vm_compute. reflexivity.
Defined.

(** ** The handlers: what the table can hold *)

Lemma isNameRune_plain r :
  isNameRune r = true ->
  (r < 128)%N /\ r <> 47%N /\ r <> DQ /\ r <> NL /\ r <> 32%N /\ r <> 92%N.
Proof.
  unfold isNameRune, isAlnum, DQ, NL.
  rewrite !orb_true_iff, !andb_true_iff, !N.leb_le, !N.eqb_eq. lia.
Qed.

Lemma len_ascii s :
  Forall (fun r => (r < 128)%N) s -> len s = Z.of_nat (length s).
Proof.
  induction 1 as [|r s Hr _ IH]; [reflexivity|].
  change (len (r :: s)) with (RuneLen r + len s)%Z. rewrite IH.
  unfold RuneLen. rewrite (proj2 (N.ltb_lt _ _) Hr). simpl length. lia.
Qed.

Lemma validName_plain s : validName s = true -> plain s.
Proof.
  destruct s as [|r rest]; [discriminate|]. simpl.
  rewrite !andb_true_iff, Nat.leb_le, forallb_forall.
  intros [[Hr Hlen] Hrest].
  assert (Hall : forall x, In x (r :: rest) -> isNameRune x = true).
  { intros x [<-|Hx]; [|apply Hrest, Hx].
    unfold isNameRune. rewrite Hr. reflexivity. }
  assert (Hlen' : len (r :: rest) = Z.of_nat (length (r :: rest))).
  { apply len_ascii, Forall_forall. intros x Hx.
    apply list_elem_of_In, Hall, isNameRune_plain in Hx. tauto. }
  unfold plain. rewrite Hlen'. simpl length.
  split; [lia|]. split; [reflexivity|].
  repeat split; intros Hin; apply Hall, isNameRune_plain in Hin; tauto.
Qed.

Lemma serve_store h io st r :
  store (snd (serve h io st r)) = store st
  \/ (exists now req, r = PostRegister now (Some req) /\ wellFormed req
        /\ store (snd (serve h io st r))
           = registry.apply (store st) (Create now (newMachine req)))
  \/ (exists name, store (snd (serve h io st r))
                   = registry.apply (store st) (Delete name))
  \/ (exists now name, store (snd (serve h io st r))
                       = registry.apply (store st) (registry.Heartbeat now name)).
Proof.
  destruct r as [now [req|]|name|now [name|]]; cbn [serve];
    [|left; reflexivity| | |left; reflexivity].
  - destruct (Register_validation h io now st req) as [Hwf|[msg ->]];
      [|left; reflexivity].
    destruct (db.GetMachine (store st) (reqName req)) as [m|] eqn:Hm.
    { left. rewrite (Register_wellFormed h io now st req Hwf), Hm. reflexivity. }
    destruct (db.CreateMachine (store st) now (newMachine req))
      as [[m [e|]] d] eqn:E.
    + left. rewrite (Register_wellFormed h io now st req Hwf), Hm, E.
      apply CreateMachine_error in E. subst d. reflexivity.
    + right. left. exists now, req. split; [reflexivity|]. split; [exact Hwf|].
      destruct (Register_created h io now st req m d Hwf Hm E) as (r & _ & _ & _ & ->).
      simpl. rewrite E. reflexivity.
  - right. right. left. exists name. simpl.
    destruct (db.DeleteMachine (store st) name) as [[e|] d] eqn:E.
    + unfold DeleteMachine. rewrite E. reflexivity.
    + apply (DeleteMachine_deleted h io st name d E).
  - unfold Heartbeat. case_bool_decide; [left; reflexivity|].
    right. right. right. exists now, name. simpl.
    destruct (UpdateLastSeen (store st) now name) as [[e|] d]; reflexivity.
Qed.

Lemma served_validRow h st :
  served h st -> reachable (store st) /\ Forall validRow (rows (store st)).
Proof.
  induction 1 as [fs|st io r _ [IHr IHv]].
  - split; [apply reachable_Open|constructor].
  - destruct (serve_store h io st r)
      as [->|[(now & req & _ & Hwf & ->)|[(name & ->)|(now & name & ->)]]].
    + split; assumption.
    + split; [apply reachable_apply, IHr|]. simpl.
      destruct (db.CreateMachine (store st) now (newMachine req))
        as [[m [e|]] d] eqn:E.
      * apply CreateMachine_error in E. subst d. exact IHv.
      * apply CreateMachine_success in E as (p & _ & _ & _ & ->). simpl.
        apply Forall_app. split; [exact IHv|].
        constructor; [|constructor].
        destruct Hwf as (_ & _ & _ & _ & V1 & V2 & V3 & V4).
        repeat split; assumption.
    + split; [apply reachable_apply, IHr|]. simpl.
      rewrite DeleteMachine_rows. apply Forall_forall. intros m Hm.
      apply list_elem_of_In, filter_In in Hm as [Hm _].
      rewrite Forall_forall in IHv. apply IHv, list_elem_of_In, Hm.
    + split; [apply reachable_apply, IHr|]. simpl.
      rewrite UpdateLastSeen_rows. apply Forall_map.
      eapply Forall_impl; [exact IHv|].
      intros m Hm. unfold touchRow. case_bool_decide; exact Hm.
Qed.

(** What the table can hold.  On a server that started on an empty
    table, after any sequence of requests to [Register], [DeleteMachine]
    and [Heartbeat] and whatever the operating system refused, every
    stored machine has passed the validation of [Register]: its key is
    one that [validatePublicKey] accepts, and its name, owner and local
    user are 1 to 64 ASCII characters without a slash, a backslash, a
    double quote, a space or a newline, so that the key file of the
    machine lies in the keys directory and the quoted names of the
    routing config stay inside their quotes.  The table is one that the
    operations of the store produce from a fresh database, so the
    invariant of the data model holds for it. *)
Theorem served_rows_valid (h : Handlers) (st : state) :
  served h st ->
  reachable (store st)
  /\ Inv (store st)
  /\ (forall m, In m (rows (store st)) ->
        validRow m /\ plain (Name m) /\ plain (Owner m) /\ plain (LocalUser m)).
Proof.
  intros Hs. apply served_validRow in Hs as [Hr Hv].
  split; [exact Hr|]. split; [apply reachable_Inv, Hr|].
  intros m Hm. rewrite Forall_forall in Hv. apply list_elem_of_In, Hv in Hm.
  split; [exact Hm|]. destruct Hm as (V1 & V2 & V3 & _).
  repeat split; apply validName_plain; assumption.
Qed.

(** The server of [alice], after a registration with a slash in the name
    was refused. *)
Lemma served_rows_valid_witness :
  rows (store (snd (serve fixtures.handlers noFaults fixtures.withAlice
          (PostRegister 2 (Some (mkRegisterRequest (str "../etc") (str "eve")
                                   (str "eve") (str "ssh-ed25519 EEEE eve")))))))
  = rows (store fixtures.withAlice)
  /\ plain (str "alice-mac").
Proof.
  split; [vm_compute; reflexivity|].
  apply (proj2 (proj2 (served_rows_valid fixtures.handlers
           (snd (serve fixtures.handlers noFaults fixtures.withAlice
              (PostRegister 2 (Some (mkRegisterRequest (str "../etc") (str "eve")
                                       (str "eve") (str "ssh-ed25519 EEEE eve"))))))
           (served_request fixtures.handlers _ noFaults _
              (served_request fixtures.handlers _ noFaults
                 (PostRegister 1 (Some fixtures.alice))
                 (served_start fixtures.handlers
                    {[ str "/data/server-key.pub" := fixtures.serverPubKey ]})))))
           (db.mkMachine 1 (str "alice-mac") (str "alice") 10022 (str "alice")
                         (str "ssh-ed25519 AAAA alice") 1 None)).
  vm_compute. left. reflexivity.
Defined.

(** ** internal/tunnel: the delay before a reconnection *)

Lemma pow2_ge_64 a : (6 <= a)%Z -> (64 <= 2 ^ a)%Z.
Proof.
  intros H. change 64%Z with (2 ^ 6)%Z. apply Z.pow_le_mono_r; lia.
Qed.

Lemma backoff_small a :
  (0 <= a <= 5)%Z -> tunnel.backoff a = (2 ^ a * tunnel.Second)%Z.
Proof.
  intros H. unfold tunnel.backoff.
  assert (Hc : (a = 0 \/ a = 1 \/ a = 2 \/ a = 3 \/ a = 4 \/ a = 5)%Z) by lia.
  destruct Hc as [->|[->|[->|[->|[->| ->]]]]]; reflexivity.
Qed.

Lemma backoff_large a :
  (6 <= a)%Z -> tunnel.backoff a = (60 * tunnel.Second)%Z.
Proof.
  intros H. unfold tunnel.backoff.
  rewrite (proj2 (Z.ltb_ge a 0)) by lia.
  pose proof (pow2_ge_64 a H).
  rewrite (proj2 (Z.ltb_lt 60 (2 ^ a))) by lia. reflexivity.
Qed.

Lemma backoff_negative a : (a < 0)%Z -> tunnel.backoff a = 0%Z.
Proof.
  intros H. unfold tunnel.backoff. rewrite (proj2 (Z.ltb_lt a 0)) by lia.
  reflexivity.
Qed.

(** The delay before a reconnection.  [backoff] doubles from one second
    at attempt 0 to 32 seconds at attempt 5 and is 60 seconds from
    attempt 6 on: the delays of the attempts 1, 2, 3, ... that [Run]
    passes are 2s, 4s, 8s, 16s, 32s, 60s, 60s, ...  The delay never
    exceeds 60 seconds, never decreases from one attempt to the next, is
    at least two seconds for every attempt that [Run] passes, and is
    zero for a negative attempt. *)
Theorem backoff_schedule (attempt : Z) :
  (0 <= tunnel.backoff attempt <= 60 * tunnel.Second)%Z
  /\ ((0 <= attempt <= 5)%Z ->
      tunnel.backoff attempt = (2 ^ attempt * tunnel.Second)%Z)
  /\ ((6 <= attempt)%Z -> tunnel.backoff attempt = (60 * tunnel.Second)%Z)
  /\ ((1 <= attempt)%Z -> (2 * tunnel.Second <= tunnel.backoff attempt)%Z)
  /\ (tunnel.backoff attempt <= tunnel.backoff (attempt + 1))%Z
  /\ ((attempt < 0)%Z -> tunnel.backoff attempt = 0%Z).
Proof.
  assert (Hcases : forall a,
            (a < 0 /\ tunnel.backoff a = 0)%Z
            \/ ((0 <= a <= 5)%Z /\ tunnel.backoff a = (2 ^ a * tunnel.Second)%Z)
            \/ ((6 <= a)%Z /\ tunnel.backoff a = (60 * tunnel.Second)%Z)).
  { intros a. destruct (Z.lt_ge_cases a 0) as [H|H];
      [left; split; [exact H|apply backoff_negative, H]|].
    destruct (Z.le_gt_cases a 5) as [H5|H5];
      [right; left; split; [lia|apply backoff_small; lia]
      |right; right; split; [lia|apply backoff_large; lia]]. }
  assert (Hpow : forall a, (0 <= a <= 5)%Z -> (1 <= 2 ^ a <= 32)%Z).
  { intros a Ha.
    assert (Hc : (a = 0 \/ a = 1 \/ a = 2 \/ a = 3 \/ a = 4 \/ a = 5)%Z) by lia.
    destruct Hc as [->|[->|[->|[->|[->| ->]]]]]; simpl; lia. }
  assert (Hdouble : forall a, (0 <= a)%Z -> (2 ^ (a + 1) = 2 * 2 ^ a)%Z).
  { intros a Ha. rewrite Z.pow_add_r by lia. lia. }
  assert (Hsec : tunnel.Second = 1000000000%Z) by reflexivity.
  split; [|split; [|split; [|split; [|split]]]].
  - destruct (Hcases attempt) as [[_ ->]|[[H ->]|[_ ->]]]; [lia| |lia].
    pose proof (Hpow attempt H). nia.
  - apply backoff_small.
  - apply backoff_large.
  - intros H1. destruct (Hcases attempt) as [[H _]|[[H ->]|[_ ->]]]; [lia| |lia].
    assert (2 <= 2 ^ attempt)%Z; [|nia].
    replace attempt with ((attempt - 1) + 1)%Z by lia.
    rewrite Hdouble by lia. pose proof (Hpow (attempt - 1)%Z ltac:(lia)). lia.
  - destruct (Hcases attempt) as [[H ->]|[[H ->]|[H ->]]].
    + destruct (Hcases (attempt + 1)%Z) as [[_ ->]|[[H' ->]|[_ ->]]]; [lia| |lia].
      pose proof (Hpow (attempt + 1)%Z H'). nia.
    + destruct (Hcases (attempt + 1)%Z) as [[H' _]|[[H' ->]|[_ ->]]]; [lia| |].
      * rewrite Hdouble by lia. pose proof (Hpow attempt H). nia.
      * pose proof (Hpow attempt H). nia.
    + destruct (Hcases (attempt + 1)%Z) as [[H' _]|[[H' _]|[_ ->]]]; lia.
  - apply backoff_negative.
Qed.

(** ** cmd/bastion: the configuration of the client *)

Lemma validKeys_spec key :
  default false (client.validKeys !! key) = true
  <-> key = str "server_url" \/ key = str "api_key"
      \/ key = str "machine_name" \/ key = str "key_path".
Proof.
  unfold client.validKeys. split.
  - destruct (list_to_map _ !! key) as [b|] eqn:E; simpl; [|discriminate].
    intros ->. apply elem_of_list_to_map_2 in E.
    apply list_elem_of_In in E. simpl in E.
    repeat (destruct E as [E|E]; [injection E as <-; tauto|]).
    destruct E.
  - intros H.
    repeat (destruct H as [->|H]; [vm_compute; reflexivity|]).
    subst key. vm_compute. reflexivity.
Qed.

(** The configuration of the client.  [config set] accepts exactly the
    keys server_url, api_key, machine_name and key_path.  When it accepts,
    [getConfigValue] of the saved configuration returns the new value for
    that key and the old value for every other key, and the assigned port
    is unchanged; the key assigned_port is refused as read-only whatever
    the value, so that only a registration can set the port. *)
Theorem configSet_round_trip (cfg : client.clientConfig) (key value : gostring) :
  ((exists cfg', client.configSet cfg key value = inr cfg')
   <-> key = str "server_url" \/ key = str "api_key"
       \/ key = str "machine_name" \/ key = str "key_path")
  /\ (forall cfg', client.configSet cfg key value = inr cfg' ->
        client.getConfigValue cfg' key = value
        /\ (forall k, k <> key ->
              client.getConfigValue cfg' k = client.getConfigValue cfg k)
        /\ client.AssignedPort cfg' = client.AssignedPort cfg)
  /\ client.configSet cfg (str "assigned_port") value
     = inl (client.ErrReadOnly (str "assigned_port")).
Proof.
  assert (Hset : forall cfg',
            client.configSet cfg key value = inr cfg' ->
            (key = str "server_url" \/ key = str "api_key"
             \/ key = str "machine_name" \/ key = str "key_path")
            /\ cfg' = client.setConfigValue cfg key value).
  { intros cfg'. unfold client.configSet.
    destruct (default false (client.validKeys !! key)) eqn:E; simpl.
    - intros [= <-]. split; [apply validKeys_spec, E|reflexivity].
    - destruct (default false (client.readOnlyKeys !! key)); discriminate. }
  split; [split|split].
  - intros [cfg' H]. apply Hset in H. tauto.
  - intros H. apply validKeys_spec in H. unfold client.configSet. rewrite H.
    simpl. eauto.
  - intros cfg' H. apply Hset in H as [Hk ->].
    destruct Hk as [->|[->|[->| ->]]]; (split; [reflexivity|]);
      (split; [|reflexivity]); intros k Hk;
      unfold client.getConfigValue, client.setConfigValue;
      repeat (case_bool_decide; try discriminate; try congruence; simpl);
      reflexivity.
  - reflexivity.
Qed.

(** ** cmd/bastion: the key of the server in authorized_keys *)

Lemma HasPrefix_app p s : HasPrefix (p ++ s) p = true.
Proof.
  induction p as [|x p IH]; simpl; [reflexivity|].
  rewrite N.eqb_refl. exact IH.
Qed.

Lemma Contains_cons x s p : Contains s p = true -> Contains (x :: s) p = true.
Proof.
  intros H. change (Contains (x :: s) p) with (HasPrefix (x :: s) p || Contains s p).
  rewrite H. apply orb_true_r.
Qed.

Lemma Contains_app a p b : Contains (a ++ p ++ b) p = true.
Proof.
  induction a as [|x a IH]; simpl app.
  - destruct (p ++ b) as [|y s] eqn:E.
    + destruct p; [reflexivity|discriminate].
    + rewrite <- E.
      assert (H : HasPrefix (p ++ b) p = true) by apply HasPrefix_app.
      rewrite E in *. simpl. rewrite H. reflexivity.
  - apply Contains_cons, IH.
Qed.

(** The key of the server in the authorized_keys of the client.  When the
    operating system refuses nothing, [addToAuthorizedKeys] succeeds and
    the file, authorized_keys in the directory .ssh of the home directory
    as [filepath.Join] names it, then contains the key; the old content
    of the file is kept as a prefix of the new one and no other file
    changes; and a second call with the same key changes nothing, so that
    registering again does not duplicate the line.  When the key was
    missing, what is appended is the key on a line of its own: a newline
    first when the old content did not end with one.  Whatever is
    refused, the old content stays a prefix of the file and no other file
    changes; the call reports an error exactly when the key was missing
    and the directory, the file or the write of the key is refused, not
    when only the write of the separating newline is. *)
Theorem addToAuthorizedKeys_idempotent (fs : FS) (home pubKey : gostring) :
  fst (client.addToAuthorizedKeys client.noRefusals fs home pubKey) = None
  /\ Contains
       (default [] (snd (client.addToAuthorizedKeys client.noRefusals fs home pubKey)
                      !! filepath_Join (filepath_Join home (str ".ssh"))
                                       (str "authorized_keys")))
       pubKey = true
  /\ client.addToAuthorizedKeys client.noRefusals
       (snd (client.addToAuthorizedKeys client.noRefusals fs home pubKey)) home pubKey
     = (None, snd (client.addToAuthorizedKeys client.noRefusals fs home pubKey))
  /\ (exists added,
        default [] (snd (client.addToAuthorizedKeys client.noRefusals fs home pubKey)
                      !! filepath_Join (filepath_Join home (str ".ssh"))
                                       (str "authorized_keys"))
        = default [] (fs !! filepath_Join (filepath_Join home (str ".ssh"))
                                          (str "authorized_keys")) ++ added
        /\ (added = [] \/ added = pubKey ++ [NL] \/ added = [NL] ++ pubKey ++ [NL]))
  /\ (forall io,
        (exists added,
           default [] (snd (client.addToAuthorizedKeys io fs home pubKey)
                         !! filepath_Join (filepath_Join home (str ".ssh"))
                                          (str "authorized_keys"))
           = default [] (fs !! filepath_Join (filepath_Join home (str ".ssh"))
                                             (str "authorized_keys")) ++ added)
        /\ (forall p,
              p <> filepath_Join (filepath_Join home (str ".ssh"))
                                 (str "authorized_keys") ->
              snd (client.addToAuthorizedKeys io fs home pubKey) !! p = fs !! p)
        /\ (fst (client.addToAuthorizedKeys io fs home pubKey) <> None
            <-> client.refuseMkdirAll io = true
                \/ Contains
                     (default [] (fs !! filepath_Join (filepath_Join home (str ".ssh"))
                                                      (str "authorized_keys")))
                     pubKey = false
                   /\ (client.refuseOpenFile io = true
                       \/ client.cutWriteString io <> None))).
Proof.
  unfold client.addToAuthorizedKeys. cbv zeta.
  set (path := filepath_Join (filepath_Join home (str ".ssh")) (str "authorized_keys")).
  set (existing := default [] (fs !! path)).
  assert (Hall : forall io,
    (exists added,
       default []
         (snd (if client.refuseMkdirAll io
               then (Some (ErrMkdirAll (filepath_Join home (str ".ssh"))), fs)
               else if Contains existing pubKey then (None, fs)
               else if client.refuseOpenFile io then (Some (ErrWriteFile path), fs)
               else match client.cutWriteString io with
                    | Some n =>
                        (Some (ErrWriteFile path),
                         <[path := (if (0 <? length existing)%nat
                                       && negb (bool_decide (last existing = Some NL))
                                    then (if client.refuseNewline io then existing
                                          else existing ++ [NL])
                                    else existing)
                                   ++ take n (pubKey ++ [NL])]> fs)
                    | None =>
                        (None,
                         <[path := (if (0 <? length existing)%nat
                                       && negb (bool_decide (last existing = Some NL))
                                    then (if client.refuseNewline io then existing
                                          else existing ++ [NL])
                                    else existing)
                                   ++ (pubKey ++ [NL])]> fs)
                    end) !! path)
       = existing ++ added)
    /\ (forall p, p <> path ->
          snd (if client.refuseMkdirAll io
               then (Some (ErrMkdirAll (filepath_Join home (str ".ssh"))), fs)
               else if Contains existing pubKey then (None, fs)
               else if client.refuseOpenFile io then (Some (ErrWriteFile path), fs)
               else match client.cutWriteString io with
                    | Some n =>
                        (Some (ErrWriteFile path),
                         <[path := (if (0 <? length existing)%nat
                                       && negb (bool_decide (last existing = Some NL))
                                    then (if client.refuseNewline io then existing
                                          else existing ++ [NL])
                                    else existing)
                                   ++ take n (pubKey ++ [NL])]> fs)
                    | None =>
                        (None,
                         <[path := (if (0 <? length existing)%nat
                                       && negb (bool_decide (last existing = Some NL))
                                    then (if client.refuseNewline io then existing
                                          else existing ++ [NL])
                                    else existing)
                                   ++ (pubKey ++ [NL])]> fs)
                    end) !! p = fs !! p)
    /\ (fst (if client.refuseMkdirAll io
             then (Some (ErrMkdirAll (filepath_Join home (str ".ssh"))), fs)
             else if Contains existing pubKey then (None, fs)
             else if client.refuseOpenFile io then (Some (ErrWriteFile path), fs)
             else match client.cutWriteString io with
                  | Some n =>
                      (Some (ErrWriteFile path),
                       <[path := (if (0 <? length existing)%nat
                                     && negb (bool_decide (last existing = Some NL))
                                  then (if client.refuseNewline io then existing
                                        else existing ++ [NL])
                                  else existing)
                                 ++ take n (pubKey ++ [NL])]> fs)
                  | None =>
                      (None,
                       <[path := (if (0 <? length existing)%nat
                                     && negb (bool_decide (last existing = Some NL))
                                  then (if client.refuseNewline io then existing
                                        else existing ++ [NL])
                                  else existing)
                                 ++ (pubKey ++ [NL])]> fs)
                  end) <> None
        <-> client.refuseMkdirAll io = true
            \/ Contains existing pubKey = false
               /\ (client.refuseOpenFile io = true
                   \/ client.cutWriteString io <> None))).
  { intros io.
    assert (Hsame : exists added, default [] (fs !! path) = existing ++ added)
      by (exists []; rewrite app_nil_r; reflexivity).
    destruct (client.refuseMkdirAll io).
    { cbn [fst snd]. split; [exact Hsame|]. split; [reflexivity|].
      split; [auto|discriminate]. }
    destruct (Contains existing pubKey).
    { cbn [fst snd]. split; [exact Hsame|]. split; [reflexivity|].
      split; [intros H; exfalso; apply H; reflexivity|].
      intros [?|[? _]]; discriminate. }
    destruct (client.refuseOpenFile io).
    { cbn [fst snd]. split; [exact Hsame|]. split; [reflexivity|].
      split; [auto|discriminate]. }
    assert (Hstart : exists nl,
              (if (0 <? length existing)%nat
                  && negb (bool_decide (last existing = Some NL))
               then (if client.refuseNewline io then existing else existing ++ [NL])
               else existing) = existing ++ nl).
    { destruct (_ && _); [destruct (client.refuseNewline io)|];
        [exists []|exists [NL]|exists []]; rewrite ?app_nil_r; reflexivity. }
    destruct Hstart as [nl ->].
    destruct (client.cutWriteString io) as [n|]; cbn [fst snd];
      rewrite lookup_insert_eq; cbn [from_option id].
    - split; [eexists; rewrite <- app_assoc; reflexivity|].
      split; [intros p Hp; apply lookup_insert_ne; congruence|].
      split; [intros _; right; split; [reflexivity|right; discriminate]|discriminate].
    - split; [eexists; rewrite <- app_assoc; reflexivity|].
      split; [intros p Hp; apply lookup_insert_ne; congruence|].
      split; [intros H; exfalso; apply H; reflexivity|].
      intros [?|[_ [?|H]]]; try discriminate. exfalso. apply H. reflexivity. }
  cbn [client.refuseMkdirAll client.refuseOpenFile client.refuseNewline
       client.cutWriteString client.noRefusals].
  destruct (Contains existing pubKey) eqn:Hc.
  - cbn [fst snd]. fold existing. rewrite Hc.
    split; [reflexivity|]. split; [reflexivity|]. split; [reflexivity|].
    split; [exists []; rewrite app_nil_r; auto|]. exact Hall.
  - cbn [fst snd]. rewrite lookup_insert_eq. cbn [from_option id].
    set (start := if (0 <? length existing)%nat
                     && negb (bool_decide (last existing = Some NL))
                  then existing ++ [NL] else existing).
    assert (Hin : Contains (start ++ pubKey ++ [NL]) pubKey = true)
      by apply Contains_app.
    rewrite Hin.
    split; [reflexivity|]. split; [reflexivity|]. split; [reflexivity|].
    split; [|exact Hall].
    unfold start.
    destruct ((0 <? length existing)%nat
              && negb (bool_decide (last existing = Some NL))).
    + exists ([NL] ++ pubKey ++ [NL]). rewrite <- app_assoc. auto.
    + exists (pubKey ++ [NL]). auto.
Qed.
